(** * fspy_importer: container parser and camera derivation

    A shallow embedding of [fspy_importer.py] and the properties its
    specification states about it.

    Conventions of the embedding:
    - Python [float] values are real numbers ([R]); [math.cos], [math.sin],
      [math.sqrt], [math.tan] are the real functions, so rounding is not
      modelled.  Python [int] values are [Z].
    - A raised exception is the [Raise] case of [result]; a [try/except]
      is a [match] on it.
    - [dict] values are [gmap string _]; [list] values are [list _] with
      checked indexing.
    - numpy is an external library: [np.array] and the scalar arithmetic
      of an array built from JSON values are parameters; an array of
      floats computes on [R]. *)

From Stdlib Require Import Reals Lra Lia ZArith String List.
From Stdlib Require Import Strings.Byte.
From stdpp Require Import gmap strings list fin_maps.
From Stdlib Require Import RNsatz.

Set Warnings "-register-all".

(** ** Exceptions and results *)

Inductive exn : Type :=
| ValueError (msg : string)
| AttributeError
| IndexError
| TypeError
| ZeroDivisionError
| struct_error
| UnicodeDecodeError
| JSONDecodeError
| KeyError
| OSError.

Inductive result (A : Type) : Type :=
| Ok (a : A)
| Raise (e : exn).
Arguments Ok {A} a.
Arguments Raise {A} e.

#[global] Instance result_ret : MRet result := @Ok.
#[global] Instance result_bind : MBind result := fun A B k m =>
  match m with
  | Ok a => k a
  | Raise e => Raise e
  end.

(** [l[i]] for a non-negative index: [IndexError] out of range. *)
Definition index {A : Type} (l : list A) (i : nat) : result A :=
  match l !! i with
  | Some a => Ok a
  | None => Raise IndexError
  end.

(** [[f(k) for k in l]], stopping at the first exception. *)
Fixpoint mapM {A B : Type} (f : A -> result B) (l : list A) : result (list B) :=
  match l with
  | [] => Ok []
  | a :: l' => b ← f a; bs ← mapM f l'; Ok (b :: bs)
  end.

(** [for a in l: s = f(s, a)], stopping at the first exception. *)
Fixpoint foldM {A S : Type} (f : S -> A -> result S) (l : list A) (s : S) : result S :=
  match l with
  | [] => Ok s
  | a :: l' => s' ← f s a; foldM f l' s'
  end.

Definition range (n : nat) : list nat := seq 0 n.

(** ** Matrix3x3 and RotationMath *)

(** Both matrix carriers of the source, the [Matrix3x3] class and a numpy
    array built by [np.array] from a nested list, are row-major containers;
    they are embedded as one record holding the nested list. *)
Record Matrix3x3 (A : Type) : Type := { data : list (list A) }.
Arguments data {A} m.

(** [Matrix3x3.__init__]: [[[data[i][j] for j in range(3)] for i in range(3)]]. *)
Definition Matrix3x3_init {A : Type} (d : list (list A)) : result (Matrix3x3 A) :=
  rows ← mapM (fun i => mapM (fun j => row ← index d i; index row j) (range 3))
            (range 3);
  Ok {| data := rows |}.

(** [Matrix3x3.__getitem__], also [matrix[i, j]] on an array. *)
Definition getitem {A : Type} (self : Matrix3x3 A) (key : nat * nat) : result A :=
  let '(i, j) := key in
  row ← index (data self) i; index row j.

#[global] Instance R_eq_dec : EqDecision R := Req_dec_T.
#[global] Instance Rlt_decision (x y : R) : Decision (x < y)%R := Rlt_dec x y.
#[global] Instance Rle_decision (x y : R) : Decision (x <= y)%R := Rle_dec x y.

(** ** JSON values, as [json.loads] returns them *)

Inductive json : Type :=
| JNull
| JBool (b : bool)
| JInt (n : Z)
| JFloat (r : R)
| JStr (s : string)
| JArr (l : list json)
| JObj (m : gmap string json).

(** Truth value of an object in a condition. *)
Definition truthy (v : json) : bool :=
  match v with
  | JNull => false
  | JBool b => b
  | JInt n => negb (Z.eqb n 0)
  | JFloat r => negb (bool_decide (r = 0%R))
  | JStr s => negb (String.eqb s "")
  | JArr l => negb (Nat.eqb (length l) 0)
  | JObj m => negb (Nat.eqb (size m) 0)
  end.

(** [d.get(k, dflt)]; only a [dict] has the method. *)
Definition dict_get (d : json) (k : string) (dflt : json) : result json :=
  match d with
  | JObj m => Ok (default dflt (m !! k))
  | _ => Raise AttributeError
  end.

(** [v[i]] for a literal non-negative [i]. *)
Definition subscript (v : json) (i : nat) : result json :=
  match v with
  | JArr l => index l i
  | JStr s =>
      match String.get i s with
      | Some c => Ok (JStr (String c EmptyString))
      | None => Raise IndexError
      end
  | JObj _ => Raise KeyError
  | _ => Raise TypeError
  end.

(** Use of a value as a number by an arithmetic operator, by a [math]
    function or by a [:.3f] format. *)
Definition as_number (v : json) : result R :=
  match v with
  | JInt n => Ok (IZR n)
  | JFloat r => Ok r
  | JBool b => Ok (if b then 1%R else 0%R)
  | _ => Raise TypeError
  end.

(** The arithmetic that [rotation_matrix_to_euler] does on the entries of
    a matrix: [a ** 2], the sum of two squares, [-a], and the use of an
    entry as a [float] by [math.atan2]. *)
Class Number (A : Type) : Type := {
  number : A -> result R;
  square : A -> result R;
  add_squares : R -> R -> result R;
  negate : A -> result R
}.

(** Entries that are Python floats, and the entries of a numpy array of
    floats. *)
#[global] Instance R_Number : Number R := {|
  number := Ok;
  square := fun a => Ok (a ^ 2)%R;
  add_squares := fun x y => Ok (x + y)%R;
  negate := fun a => Ok (- a)%R
|}.

(** Entries that are Python values as [json.loads] returns them, held by
    a [Matrix3x3]: integers are unbounded and a boolean is 0 or 1, for
    [**] and the unary [-] as for [math.atan2].  The entries of a numpy
    array follow the dtype of the array instead; see [np_Number]. *)
Definition json_Number : Number json := {|
  number := as_number;
  square := fun v => a ← as_number v; Ok (a ^ 2)%R;
  add_squares := fun x y => Ok (x + y)%R;
  negate := fun v => a ← as_number v; Ok (- a)%R
|}.

Section RotationMath.
Local Open Scope R_scope.

(** Whether the [import numpy] at module load succeeded. *)
Variable USE_NUMPY : bool.

(** [sum(x * y for x, y in zip(a, b))]; [sum] starts from [0]. *)
Definition dot_product (a b : list R) : R :=
  fold_left Rplus (zip_with Rmult a b) 0.

(** [result[i][j] = v] on a nested list. *)
Definition setitem2 (res : list (list R)) (i j : nat) (v : R) : result (list (list R)) :=
  row ← index res i;
  _ ← index row j;
  Ok (<[i := <[j := v]> row]> res).

(** [Matrix3x3.dot]. *)
Definition dot (self other : Matrix3x3 R) : result (Matrix3x3 R) :=
  let result0 := map (fun _ => map (fun _ => 0) (range 3)) (range 3) in
  res ← foldM (fun res i =>
           foldM (fun res j =>
             row ← mapM (fun k => r ← index (data self) i; index r k) (range 3);
             col ← mapM (fun k => r ← index (data other) k; index r j) (range 3);
             setitem2 res i j (dot_product row col))
           (range 3) res)
         (range 3) result0;
  Matrix3x3_init res.

(** The textbook matrix product: entry [(i, j)] is the sum over [k] of
    [a[i][k] * b[k][j]]. *)
Definition column (b : list (list R)) (j : nat) : list R :=
  map (fun r => nth j r 0) b.

Definition mat_mul (a b : list (list R)) : list (list R) :=
  map (fun r =>
         map (fun j => fold_right Rplus 0 (zip_with Rmult r (column b j)))
             (range (length (hd [] b))))
      a.

(** [np.array(a).dot(np.array(b))] on two-dimensional arrays is the matrix
    product (numpy is an external library). *)
Definition np_dot (a b : Matrix3x3 R) : Matrix3x3 R :=
  {| data := mat_mul (data a) (data b) |}.

Definition rot_x (x : R) : list (list R) :=
  [ [1; 0; 0];
    [0; cos x; - sin x];
    [0; sin x; cos x] ].

Definition rot_y (y : R) : list (list R) :=
  [ [cos y; 0; sin y];
    [0; 1; 0];
    [- sin y; 0; cos y] ].

Definition rot_z (z : R) : list (list R) :=
  [ [cos z; - sin z; 0];
    [sin z; cos z; 0];
    [0; 0; 1] ].

(** [math.sqrt]: [ValueError] on a negative argument. *)
Definition math_sqrt (r : R) : result R :=
  if decide (r < 0) then Raise (ValueError "math domain error") else Ok (sqrt r).

(** [math.atan2(y, x)], the angle of the point [(x, y)] in [(-PI, PI]];
    the quadrant cases of the C library function, without signed zeros. *)
Definition atan2 (y x : R) : R :=
  if decide (0 < x) then atan (y / x)
  else if decide (x < 0) then
    if decide (0 <= y) then atan (y / x) + PI else atan (y / x) - PI
  else
    if decide (0 < y) then PI / 2
    else if decide (y < 0) then - (PI / 2)
    else 0.

Definition create_rotation_matrix (x y z : R) : result (Matrix3x3 R) :=
  if USE_NUMPY then
    Ok (np_dot (np_dot {| data := rot_z z |} {| data := rot_y y |}) {| data := rot_x x |})
  else
    mz ← Matrix3x3_init (rot_z z);
    my ← Matrix3x3_init (rot_y y);
    mx ← Matrix3x3_init (rot_x x);
    zy ← dot mz my;
    dot zy mx.

(** The two branches of the source differ only in how an entry is read:
    [matrix[i, j]] with numpy, [matrix_data[i][j]] without. *)
Definition entry {A : Type} (matrix : Matrix3x3 A) (i j : nat) : result A :=
  if USE_NUMPY then getitem matrix (i, j)
  else row ← index (data matrix) i; index row j.

(** [rotation_matrix_to_euler], statement by statement: the entries of
    an expression are read from left to right, then [math.atan2] makes
    floats of its arguments. *)
Definition rotation_matrix_to_euler {A : Type} `{Number A} (matrix : Matrix3x3 A)
  : result (list R) :=
  v00 ← entry matrix 0 0;
  s00 ← square v00;
  v10 ← entry matrix 1 0;
  s10 ← square v10;
  s ← add_squares s00 s10;
  sy ← math_sqrt s;
  let singular := bool_decide (sy < 1e-6) in
  if negb singular then
    v21 ← entry matrix 2 1;
    v22 ← entry matrix 2 2;
    m21 ← number v21;
    m22 ← number v22;
    let x := atan2 m21 m22 in
    v20 ← entry matrix 2 0;
    n20 ← negate v20;
    let y := atan2 n20 sy in
    v10' ← entry matrix 1 0;
    v00' ← entry matrix 0 0;
    m10' ← number v10';
    m00' ← number v00';
    let z := atan2 m10' m00' in
    Ok [x; y; z]
  else
    v12 ← entry matrix 1 2;
    n12 ← negate v12;
    v11 ← entry matrix 1 1;
    m11 ← number v11;
    let x := atan2 n12 m11 in
    v20 ← entry matrix 2 0;
    n20 ← negate v20;
    let y := atan2 n20 sy in
    let z := 0 in
    Ok [x; y; z].

End RotationMath.

(** ** Reference definitions for rotations (from the specification) *)

Section RotationSpec.
Local Open Scope R_scope.

Definition vec3 : Type := R * R * R.

Definition cross (u v : vec3) : vec3 :=
  let '(u1, u2, u3) := u in
  let '(v1, v2, v3) := v in
  (u2 * v3 - u3 * v2, u3 * v1 - u1 * v3, u1 * v2 - u2 * v1).

Definition inner (u v : vec3) : R :=
  let '(u1, u2, u3) := u in
  let '(v1, v2, v3) := v in
  u1 * v1 + u2 * v2 + u3 * v3.

Definition scale (k : R) (v : vec3) : vec3 :=
  let '(v1, v2, v3) := v in (k * v1, k * v2, k * v3).

Definition vadd (u v : vec3) : vec3 :=
  let '(u1, u2, u3) := u in
  let '(v1, v2, v3) := v in
  (u1 + v1, u2 + v2, u3 + v3).

(** Right-handed rotation of [v] by the angle [theta] about the unit axis
    [u] (Rodrigues' formula; the cross product fixes the handedness). *)
Definition rotate_about (u : vec3) (theta : R) (v : vec3) : vec3 :=
  vadd (vadd (scale (cos theta) v) (scale (sin theta) (cross u v)))
       (scale (inner u v * (1 - cos theta)) u).

(** The matrix of a linear map: column [j] is the image of the [j]-th
    basis vector. *)
Definition matrix_of (f : vec3 -> vec3) : list (list R) :=
  let '(a1, a2, a3) := f (1, 0, 0) in
  let '(b1, b2, b3) := f (0, 1, 0) in
  let '(c1, c2, c3) := f (0, 0, 1) in
  [ [a1; b1; c1]; [a2; b2; c2]; [a3; b3; c3] ].

Definition Rx (theta : R) : list (list R) := matrix_of (rotate_about (1, 0, 0) theta).
Definition Ry (theta : R) : list (list R) := matrix_of (rotate_about (0, 1, 0) theta).
Definition Rz (theta : R) : list (list R) := matrix_of (rotate_about (0, 0, 1) theta).

End RotationSpec.

(** ** Program state *)

Definition bytes : Type := list byte.

#[global] Instance byte_eq_dec : EqDecision byte := Byte.byte_eq_dec.

(** A file opened for binary reading. *)
Record file : Type := { contents : bytes; pos : nat }.

Record FSpyParser : Type := {
  filepath : string;
  state_data : json;
  image_data : option bytes;
  image_path : option string
}.

(** [FSpyParser.__init__]; Python's [None] is [JNull] for [state_data]. *)
Definition FSpyParser_init (path : string) : FSpyParser :=
  {| filepath := path; state_data := JNull; image_data := None; image_path := None |}.

(** The texts given to [log_message], by call site; a formatted text is
    kept as the values it is formatted from. *)
Inductive message : Type :=
| MsgOpening
| MsgFileId (file_id : bytes)
| MsgVersion (version : Z)
| MsgStateSize (state_size : Z)
| MsgImageSize (image_size : Z)
| MsgRawState (prefix : bytes)
| MsgParsedJson (state : json)
| MsgImageLoaded
| MsgParsed (path : string)
| MsgParseFailed (e : exn)
| MsgTransformData (transform : json)
| MsgPositionRotation (position : list json) (rotation : Matrix3x3 json)
| MsgTransformFailed (e : exn)
| MsgFilmBack (h v : R)
| MsgFilmOffset (x y : R)
| MsgFocalLength (f : R)
| MsgInfoUpdated
| MsgInfoFailed (e : exn)
| MsgTraceback (e : exn)
| MsgDebugLevels (trace debug_flag : bool)
| MsgFileLoaded
| MsgDisplayUpdated.

(** Calls into the scene graph of the host. *)
Inductive scene_op : Type :=
| SetAttr (node attr : string) (value : R)
| LockAttr (node attr : string).

(** The lines of the camera information panel, by call site. *)
Inductive info_line : Type :=
| InfoFile (path : string)
| InfoImageSize (width height : Z)
| InfoAspectRatio (ratio : R)
| InfoHorizontalFov (degrees : R)
| InfoPosition (x y z : R)
| InfoRotation (x y z : R)
| InfoFocalLength (mm : R)
| InfoPrincipalPoint (x y : R)
| InfoUnit (unit : json).

(** What the program reads and writes: the parser object, the file that
    [parse] has open, the module-level [DEBUG_LEVELS], the printed log
    (level and message), the calls made into the scene, and the text of
    the information panel. *)
Record world : Type := {
  parser : FSpyParser;
  fd : file;
  DEBUG_LEVELS : gmap string bool;
  stdout : list (string * message);
  scene : list scene_op;
  info_text : option (list info_line)
}.

Definition set_parser (p : FSpyParser) (w : world) : world :=
  {| parser := p; fd := fd w; DEBUG_LEVELS := DEBUG_LEVELS w; stdout := stdout w;
     scene := scene w; info_text := info_text w |}.
Definition set_fd (f : file) (w : world) : world :=
  {| parser := parser w; fd := f; DEBUG_LEVELS := DEBUG_LEVELS w; stdout := stdout w;
     scene := scene w; info_text := info_text w |}.
Definition set_stdout (o : list (string * message)) (w : world) : world :=
  {| parser := parser w; fd := fd w; DEBUG_LEVELS := DEBUG_LEVELS w; stdout := o;
     scene := scene w; info_text := info_text w |}.
Definition set_scene (sc : list scene_op) (w : world) : world :=
  {| parser := parser w; fd := fd w; DEBUG_LEVELS := DEBUG_LEVELS w; stdout := stdout w;
     scene := sc; info_text := info_text w |}.
Definition set_info_text (t : option (list info_line)) (w : world) : world :=
  {| parser := parser w; fd := fd w; DEBUG_LEVELS := DEBUG_LEVELS w; stdout := stdout w;
     scene := scene w; info_text := t |}.

(** The module-level default of [DEBUG_LEVELS]. *)
Definition DEBUG_LEVELS_default : gmap string bool :=
  <["trace" := false]> (<["debug" := false]> (<["info" := true]> (<["error" := true]> ∅))).

(** The world when the module has been loaded and a parser constructed. *)
Definition initial_world (path : string) : world :=
  {| parser := FSpyParser_init path;
     fd := {| contents := []; pos := 0 |};
     DEBUG_LEVELS := DEBUG_LEVELS_default;
     stdout := [];
     scene := [];
     info_text := None |}.

(** ** Computations: state passing with exceptions *)

(** A statement runs in a world and either returns or raises; the world
    it leaves is kept in both cases, as Python keeps assignments made
    before an exception. *)
Definition M (A : Type) : Type := world -> result A * world.

#[global] Instance M_ret : MRet M := fun A a w => (Ok a, w).
#[global] Instance M_bind : MBind M := fun A B k m w =>
  match m w with
  | (Ok a, w') => k a w'
  | (Raise e, w') => (Raise e, w')
  end.

Definition raise {A : Type} (e : exn) : M A := fun w => (Raise e, w).

Definition lift {A : Type} (r : result A) : M A := fun w => (r, w).

(** [try: body except Exception as e: handler(e)]. *)
Definition try_except {A : Type} (body : M A) (handler : exn -> M A) : M A := fun w =>
  match body w with
  | (Ok a, w') => (Ok a, w')
  | (Raise e, w') => handler e w'
  end.

Definition log_enabled (w : world) (level : string) : bool :=
  default true (DEBUG_LEVELS w !! level).

(** [log_message]: prints when [DEBUG_LEVELS.get(level, True)]. *)
Definition log_message (msg : message) (level : string) : M unit := fun w =>
  (Ok tt,
   set_stdout (stdout w ++ (if log_enabled w level then [(level, msg)] else [])) w).

(** The two assignments of [set_debug_level]. *)
Definition set_DEBUG_LEVELS (trace debug_flag : bool) : M unit := fun w =>
  (Ok tt,
   {| parser := parser w; fd := fd w;
      DEBUG_LEVELS := <["debug" := debug_flag]> (<["trace" := trace]> (DEBUG_LEVELS w));
      stdout := stdout w; scene := scene w; info_text := info_text w |}).

(** [set_debug_level]. *)
Definition set_debug_level (trace debug_flag : bool) : M unit :=
  _ ← set_DEBUG_LEVELS trace debug_flag;
  log_message (MsgDebugLevels trace debug_flag) "info".

Definition get_parser : M FSpyParser := fun w => (Ok (parser w), w).

(** ** ContainerParser *)

(** [f.read(n)]: at most [n] bytes from the current position. *)
Definition read (n : nat) : M bytes := fun w =>
  let f := fd w in
  let chunk := take n (drop (pos f) (contents f)) in
  (Ok chunk, set_fd {| contents := contents f; pos := pos f + length chunk |} w).

(** [struct.unpack('<I', b)[0]]. *)
Definition unpack_u32_le (b : bytes) : result Z :=
  match b with
  | [b0; b1; b2; b3] =>
      Ok (Z.of_N (Byte.to_N b0) + 256 * Z.of_N (Byte.to_N b1)
          + 65536 * Z.of_N (Byte.to_N b2) + 16777216 * Z.of_N (Byte.to_N b3))%Z
  | _ => Raise struct_error
  end.

Definition fspy_magic : bytes := ["f"; "s"; "p"; "y"]%byte.

(** [b.replace(b'\x00', b'')]. *)
Definition strip_nul (b : bytes) : bytes := filter (fun c => c <> x00) b.

Section ContainerParser.

(** The files that can be opened for reading, by path. *)
Variable filesystem : string -> option bytes.
(** [bytes.decode('utf-8')] and [json.loads]; [None] is their exception. *)
Variable utf8_decode : bytes -> option string.
Variable json_loads : string -> option json.

(** [open(path, 'rb')]. *)
Definition open_rb (path : string) : M unit := fun w =>
  match filesystem path with
  | Some c => (Ok tt, set_fd {| contents := c; pos := 0 |} w)
  | None => (Raise OSError, w)
  end.

Definition decode_state (b : bytes) : result json :=
  match utf8_decode b with
  | None => Raise UnicodeDecodeError
  | Some text =>
      match json_loads text with
      | None => Raise JSONDecodeError
      | Some j => Ok j
      end
  end.

Definition set_state_data (j : json) : M unit := fun w =>
  let p := parser w in
  (Ok tt, set_parser {| filepath := filepath p; state_data := j;
                        image_data := image_data p; image_path := image_path p |} w).

Definition set_image_data (b : bytes) : M unit := fun w =>
  let p := parser w in
  (Ok tt, set_parser {| filepath := filepath p; state_data := state_data p;
                        image_data := Some b; image_path := image_path p |} w).

(** The body of the [try] in [FSpyParser.parse]. *)
Definition parse_body : M bool :=
  (_ ← log_message MsgOpening "trace";
   self ← get_parser;
   _ ← open_rb (filepath self);
   file_id ← read 4;
   _ ← log_message (MsgFileId file_id) "trace";
   if bool_decide (file_id <> fspy_magic) then
     raise (ValueError "Invalid fSpy file format")
   else
     b ← read 4;
     version ← lift (unpack_u32_le b);
     _ ← log_message (MsgVersion version) "trace";
     b ← read 4;
     state_size ← lift (unpack_u32_le b);
     _ ← log_message (MsgStateSize state_size) "trace";
     b ← read 4;
     image_size ← lift (unpack_u32_le b);
     _ ← log_message (MsgImageSize image_size) "trace";
     state_data ← read (Z.to_nat state_size);
     _ ← log_message (MsgRawState (take 100 state_data)) "trace";
     let state_data := strip_nul state_data in
     j ← lift (decode_state state_data);
     _ ← set_state_data j;
     _ ← log_message (MsgParsedJson j) "trace";
     image ← read (Z.to_nat image_size);
     _ ← set_image_data image;
     _ ← log_message MsgImageLoaded "trace";
     self ← get_parser;
     _ ← log_message (MsgParsed (filepath self)) "info";
     mret true).

(** [FSpyParser.parse]. *)
Definition parse : M bool :=
  try_except parse_body
    (fun e => _ ← log_message (MsgParseFailed e) "error"; mret false).

End ContainerParser.

(** ** CameraDeriver *)

(** The default of [transform.get('rows', ...)]: the 4x4 identity. *)
Definition identity_rows : json :=
  JArr [ JArr [JInt 1; JInt 0; JInt 0; JInt 0];
         JArr [JInt 0; JInt 1; JInt 0; JInt 0];
         JArr [JInt 0; JInt 0; JInt 1; JInt 0];
         JArr [JInt 0; JInt 0; JInt 0; JInt 1] ].

Section CameraDeriver.

Variable USE_NUMPY : bool.
(** [np.array] on a nested list (numpy is an external library). *)
Variable np_array : list (list json) -> result (Matrix3x3 json).
(** The scalar arithmetic of an array that [np.array] has built from JSON
    values.  It follows the dtype of the array, not the values alone (an
    [int64] square wraps, a boolean has no unary minus), and it is
    numpy's: nothing is assumed of it. *)
Variable np_Number : Matrix3x3 json -> Number json.
(** [float(s)] on a string; [None] is its [ValueError]. *)
Variable float_of_string : string -> option R.

(** The body of the [try] in [FSpyParser.get_camera_transform]. *)
Definition get_camera_transform_body : M (list json * Matrix3x3 json) :=
  self ← get_parser;
  camera_parameters ← lift (dict_get (state_data self) "cameraParameters" (JObj ∅));
  if negb (truthy camera_parameters) then
    raise (ValueError "No camera parameters found")
  else
    transform ← lift (dict_get camera_parameters "cameraTransform" (JObj ∅));
    _ ← log_message (MsgTransformData transform) "trace";
    rows ← lift (dict_get transform "rows" identity_rows);
    position ← lift (mapM (fun i => row ← subscript rows i; subscript row 3) (range 3));
    rotation_matrix ← lift (mapM (fun i =>
                               mapM (fun j => row ← subscript rows i; subscript row j)
                                    (range 3))
                             (range 3));
    rotation_matrix ← lift (if USE_NUMPY then np_array rotation_matrix
                            else Matrix3x3_init rotation_matrix);
    _ ← log_message (MsgPositionRotation position rotation_matrix) "trace";
    mret (position, rotation_matrix).

(** [FSpyParser.get_camera_transform]; [None] is the failure value. *)
Definition get_camera_transform : M (option (list json * Matrix3x3 json)) :=
  try_except (r ← get_camera_transform_body; mret (Some r))
    (fun e => _ ← log_message (MsgTransformFailed e) "error"; mret None).

(** [float(v)]. *)
Definition float (v : json) : result R :=
  match v with
  | JInt n => Ok (IZR n)
  | JFloat r => Ok r
  | JBool b => Ok (if b then 1%R else 0%R)
  | JStr s =>
      match float_of_string s with
      | Some r => Ok r
      | None => Raise (ValueError "could not convert string to float")
      end
  | _ => Raise TypeError
  end.

(** [a / b] on floats. *)
Definition truediv (a b : R) : result R :=
  if decide (b = 0%R) then Raise ZeroDivisionError else Ok (a / b)%R.

(** [math.degrees] and [math.radians]. *)
Definition degrees (r : R) : R := (r * (180 / PI))%R.
Definition radians (d : R) : R := (d * (PI / 180))%R.

Definition setAttr (node attr : string) (value : R) : M unit := fun w =>
  (Ok tt, set_scene (scene w ++ [SetAttr node attr value]) w).

Definition setAttr_lock (node attr : string) : M unit := fun w =>
  (Ok tt, set_scene (scene w ++ [LockAttr node attr]) w).

(** [isinstance(v, list)] and [isinstance(v, dict)]. *)
Definition is_list (v : json) : bool := match v with JArr _ => true | _ => false end.
Definition is_dict (v : json) : bool := match v with JObj _ => true | _ => false end.

(** [len(v)] where [v] is known to be a list. *)
Definition len (v : json) : nat := match v with JArr l => length l | _ => 0%nat end.

(** The film-offset statements of [PluginDialog.import_camera]. *)
Definition film_offset_block (camera_shape : string) (params : json)
    (horiz_aperture_mm vert_aperture_mm mm_to_inch : R) : M unit :=
  principal_point ← lift (dict_get params "principalPoint" (JArr [JInt 0; JInt 0]));
  if is_list principal_point && Nat.eqb (len principal_point) 2 then
    p0 ← lift (subscript principal_point 0);
    f0 ← lift (float p0);
    let x_offset_mm := (f0 * horiz_aperture_mm)%R in
    p1 ← lift (subscript principal_point 1);
    f1 ← lift (float p1);
    let y_offset_mm := (f1 * vert_aperture_mm)%R in
    let x_offset_inch := (x_offset_mm * mm_to_inch)%R in
    let y_offset_inch := (y_offset_mm * mm_to_inch)%R in
    _ ← setAttr camera_shape "horizontalFilmOffset" x_offset_inch;
    _ ← setAttr camera_shape "verticalFilmOffset" y_offset_inch;
    log_message (MsgFilmOffset x_offset_inch y_offset_inch) "info"
  else mret tt.

(** Its focal-length statements. *)
Definition focal_length_block (camera_shape : string) (params : json)
    (horiz_aperture_mm : R) : M unit :=
  horizontal_fov ← lift (dict_get params "horizontalFieldOfView" JNull);
  match horizontal_fov with
  | JNull => mret tt
  | _ =>
      fov ← lift (as_number horizontal_fov);
      let horizontal_fov_degrees := degrees fov in
      focal_length ← lift (truediv (horiz_aperture_mm / 2)%R
                             (tan (radians horizontal_fov_degrees / 2)));
      _ ← setAttr camera_shape "focalLength" focal_length;
      log_message (MsgFocalLength focal_length) "info"
  end.

(** What follows the film offset in the camera-property block. *)
Definition after_film_offset (camera camera_shape : string) (params : json)
    (horiz_aperture_mm : R) : M unit :=
  _ ← setAttr camera_shape "filmFit" 1%R;
  _ ← setAttr_lock camera "tx";
  focal_length_block camera_shape params horiz_aperture_mm.

(** What follows the film back. *)
Definition after_film_back (camera camera_shape : string) (params : json)
    (horiz_aperture_mm vert_aperture_mm mm_to_inch : R) : M unit :=
  _ ← film_offset_block camera_shape params horiz_aperture_mm vert_aperture_mm mm_to_inch;
  after_film_offset camera camera_shape params horiz_aperture_mm.

(** The camera-property block of [PluginDialog.import_camera], for the
    nodes [camera] and [camera_shape] that the host created. *)
Definition import_camera_properties (camera camera_shape : string) (params : json)
  : M unit :=
  if truthy params then
    w ← lift (dict_get params "imageWidth" (JInt 1920));
    image_width ← lift (float w);
    h ← lift (dict_get params "imageHeight" (JInt 1080));
    image_height ← lift (float h);
    aspect_ratio ← lift (truediv image_width image_height);
    let horiz_aperture_mm := 36.0%R in
    vert_aperture_mm ← lift (truediv horiz_aperture_mm aspect_ratio);
    let mm_to_inch := 0.0393701%R in
    let horiz_aperture_inch := (horiz_aperture_mm * mm_to_inch)%R in
    let vert_aperture_inch := (vert_aperture_mm * mm_to_inch)%R in
    _ ← setAttr camera_shape "horizontalFilmAperture" horiz_aperture_inch;
    _ ← setAttr camera_shape "verticalFilmAperture" vert_aperture_inch;
    _ ← log_message (MsgFilmBack horiz_aperture_inch vert_aperture_inch) "info";
    after_film_back camera camera_shape params horiz_aperture_mm vert_aperture_mm
                    mm_to_inch
  else mret tt.

(** [int(x)] on a float: truncation toward zero. *)
Definition int_of_float (x : R) : Z :=
  if decide (0 <= x)%R then Int_part x else (- Int_part (- x))%Z.

(** The image-size lines of [PluginDialog.update_camera_info]. *)
Definition info_image_size (params : json) : result (list info_line) :=
  w ← dict_get params "imageWidth" (JInt 1920);
  image_width ← float w;
  h ← dict_get params "imageHeight" (JInt 1920);
  image_height ← float h;
  ratio ← truediv image_width image_height;
  Ok [InfoImageSize (int_of_float image_width) (int_of_float image_height);
      InfoAspectRatio ratio].

(** Its field-of-view line; also returns [horizontal_fov]. *)
Definition info_fov (params : json) : result (json * list info_line) :=
  horizontal_fov ← dict_get params "horizontalFieldOfView" JNull;
  match horizontal_fov with
  | JNull => Ok (horizontal_fov, [])
  | _ =>
      f ← float horizontal_fov;
      Ok (horizontal_fov, [InfoHorizontalFov (degrees f)])
  end.

(** A value under the format [:.3f]. *)
Definition format_3f (v : json) : result R :=
  match v with
  | JStr _ => Raise (ValueError "Unknown format code 'f' for object of type 'str'")
  | _ => as_number v
  end.

(** Its position and rotation lines. *)
Definition info_transform (transform_data : option (list json * Matrix3x3 json))
  : result (list info_line) :=
  match transform_data with
  | None => Ok []
  | Some (pos, rot_matrix) =>
      p0 ← index pos 0; x ← format_3f p0;
      p1 ← index pos 1; y ← format_3f p1;
      p2 ← index pos 2; z ← format_3f p2;
      rot_euler ← @rotation_matrix_to_euler USE_NUMPY json
                    (if USE_NUMPY then np_Number rot_matrix else json_Number)
                    rot_matrix;
      r0 ← index rot_euler 0;
      r1 ← index rot_euler 1;
      r2 ← index rot_euler 2;
      Ok [InfoPosition x y z; InfoRotation (degrees r0) (degrees r1) (degrees r2)]
  end.

(** Its focal-length line. *)
Definition info_focal_length (horizontal_fov : json) : result (list info_line) :=
  let focal_length := 35.0%R in
  focal_length ←
    match horizontal_fov with
    | JNull => Ok focal_length
    | _ =>
        let horiz_aperture_mm := 36.0%R in
        fov ← as_number horizontal_fov;
        truediv (horiz_aperture_mm / 2)%R (tan (fov / 2))
    end;
  Ok [InfoFocalLength focal_length].

(** Its principal-point lines. *)
Definition info_principal_point (params : json) : result (list info_line) :=
  principal_point ← dict_get params "principalPoint"
                      (JObj (<["x" := JInt 0]> (<["y" := JInt 0]> ∅)));
  if is_dict principal_point then
    px ← dict_get principal_point "x" (JInt 0);
    x ← format_3f px;
    py ← dict_get principal_point "y" (JInt 0);
    y ← format_3f py;
    Ok [InfoPrincipalPoint x y]
  else Ok [].

(** Its unit line. *)
Definition info_unit (state : json) : result (list info_line) :=
  settings ← dict_get state "calibrationSettingsBase" (JObj ∅);
  unit ← dict_get settings "referenceDistanceUnit" (JStr "Meters");
  Ok [InfoUnit unit].

(** The body of the [try] in [PluginDialog.update_camera_info]. *)
Definition update_camera_info_body (params : json)
    (transform_data : option (list json * Matrix3x3 json)) : M unit :=
  self ← get_parser;
  let l_file := [InfoFile (filepath self)] in
  l_size ← lift (info_image_size params);
  '(horizontal_fov, l_fov) ← lift (info_fov params);
  l_transform ← lift (info_transform transform_data);
  l_focal ← lift (info_focal_length horizontal_fov);
  l_principal ← lift (info_principal_point params);
  l_unit ← lift (info_unit (state_data self));
  _ ← (fun w => (Ok tt,
         set_info_text (Some (l_file ++ l_size ++ l_fov ++ l_transform ++ l_focal
                              ++ l_principal ++ l_unit)) w));
  log_message MsgInfoUpdated "info".

(** [PluginDialog.update_camera_info]. *)
Definition update_camera_info (params : json)
    (transform_data : option (list json * Matrix3x3 json)) : M unit :=
  try_except (update_camera_info_body params transform_data)
    (fun e => _ ← log_message (MsgInfoFailed e) "error";
              log_message (MsgTraceback e) "error").

(** The end of [PluginDialog.browse_file], once [parse] has returned
    [True]. *)
Definition browse_file_loaded : M unit :=
  _ ← log_message MsgFileLoaded "info";
  self ← get_parser;
  params ← lift (dict_get (state_data self) "cameraParameters" (JObj ∅));
  transform_data ← get_camera_transform;
  if truthy params then
    _ ← update_camera_info params transform_data;
    log_message MsgDisplayUpdated "info"
  else mret tt.

End CameraDeriver.

(** ** Predicates used in the statements *)

Definition is_3x3 {A : Type} (m : Matrix3x3 A) : Prop :=
  length (data m) = 3%nat /\ Forall (fun row => length row = 3%nat) (data m).

(** The messages printed at the error level. *)
Definition errors (l : list (string * message)) : list message :=
  snd <$> filter (fun p => p.1 = "error") l.

(** A JSON number. *)
Definition is_number (v : json) : bool :=
  match v with
  | JInt _ | JFloat _ => true
  | _ => false
  end.

(** A nested list of at least three rows with at least four numbers each,
    as [cameraTransform.rows] is documented. *)
Definition is_rows (v : json) : Prop :=
  exists l, v = JArr l /\ (3 <= length l)%nat
    /\ Forall (fun row => exists r, row = JArr r /\ (4 <= length r)%nat
                             /\ forallb is_number r = true) (take 3 l).

(** An array constructor that keeps any nested list. *)
Definition np_array_any (d : list (list json)) : result (Matrix3x3 json) :=
  Ok {| data := d |}.

(** What is known of [np.array]: a nested list of numbers becomes the
    array of the same entries. *)
Definition np_array_spec (np_array : list (list json) -> result (Matrix3x3 json)) : Prop :=
  forall d, Forall (fun row => forallb is_number row = true) d ->
            np_array d = Ok {| data := d |}.

(** [cameraTransform] is absent, or is a mapping whose [rows] is absent or
    well formed. *)
Definition transform_ok (camera_parameters : gmap string json) : Prop :=
  match camera_parameters !! "cameraTransform" with
  | None => True
  | Some t =>
      exists tm, t = JObj tm
        /\ match tm !! "rows" with
           | None => True
           | Some rows => is_rows rows
           end
  end.

(** [cameraTransform.rows] is absent. *)
Definition rows_absent (camera_parameters : gmap string json) : Prop :=
  match camera_parameters !! "cameraTransform" with
  | None => True
  | Some t => exists tm, t = JObj tm /\ tm !! "rows" = None
  end.

(** The failure condition of [get_camera_transform] as the specification
    states it: it fails exactly when the key [cameraParameters] is absent. *)
Definition derivation_claim (USE_NUMPY : bool)
    (np_array : list (list json) -> result (Matrix3x3 json)) (w : world) : Prop :=
  forall st, state_data (parser w) = JObj st ->
    ((exists w', get_camera_transform USE_NUMPY np_array w = (Ok None, w'))
     <-> st !! "cameraParameters" = None).

(** Example inputs. *)
Definition world_with_state (j : json) : world :=
  set_parser {| filepath := "a.fspy"; state_data := j;
                image_data := None; image_path := None |}
             (initial_world "a.fspy").

Definition one_file (path : string) (content : bytes) : string -> option bytes :=
  fun p => if String.eqb p path then Some content else None.

Definition identity3 : list (list json) :=
  [ [JInt 1; JInt 0; JInt 0]; [JInt 0; JInt 1; JInt 0]; [JInt 0; JInt 0; JInt 1] ].

(** ** Relations between the world before and after a run *)

(** [always R m]: every run of [m] relates its worlds by [R]. *)
Definition always {A : Type} (R : world -> world -> Prop) (m : M A) : Prop :=
  forall w r w', m w = (r, w') -> R w w'.

(** [on_raise R m]: every run of [m] that raises relates its worlds by [R]. *)
Definition on_raise {A : Type} (R : world -> world -> Prop) (m : M A) : Prop :=
  forall w e w', m w = (Raise e, w') -> R w w'.

(** [returns m]: [m] never raises. *)
Definition returns {A : Type} (m : M A) : Prop :=
  forall w, exists a w', m w = (Ok a, w').


(** A step that assigns nothing, touches neither the scene nor the panel,
    and prints nothing at the error level. *)
Definition quiet_step (w w' : world) : Prop :=
  parser w' = parser w
  /\ DEBUG_LEVELS w' = DEBUG_LEVELS w
  /\ scene w' = scene w
  /\ info_text w' = info_text w
  /\ exists new, stdout w' = stdout w ++ new /\ errors new = [].

(** A step whose calls into the scene all satisfy [P]. *)
Definition scene_step (P : scene_op -> Prop) (w w' : world) : Prop :=
  exists ops, scene w' = scene w ++ ops /\ Forall P ops.

Definition attr_of (op : scene_op) : string :=
  match op with
  | SetAttr _ a _ => a
  | LockAttr _ a => a
  end.

Definition sets_attr (attr : string) (op : scene_op) : Prop :=
  match op with
  | SetAttr _ a _ => a = attr
  | LockAttr _ _ => False
  end.

Definition keeps_focal_length (op : scene_op) : Prop := ~ sets_attr "focalLength" op.

Definition keeps_film_offset (op : scene_op) : Prop :=
  ~ sets_attr "horizontalFilmOffset" op /\ ~ sets_attr "verticalFilmOffset" op.

(** The film offsets as the specification derives them, from either form
    of [principalPoint]. *)
Definition principal_point_of (v : json) : option (R * R) :=
  match v with
  | JArr [JFloat x; JFloat y] => Some (x, y)
  | JObj pm =>
      match pm !! "x", pm !! "y" with
      | Some (JFloat x), Some (JFloat y) => Some (x, y)
      | _, _ => None
      end
  | _ => None
  end.

(** The film-offset property as the specification states it, for a run of
    the camera-property block. *)
Definition film_offset_claim (float_of_string : string -> option R)
    (camera camera_shape : string) (m : gmap string json) (w : world) : Prop :=
  forall pp x y,
    m !! "principalPoint" = Some pp ->
    principal_point_of pp = Some (x, y) ->
    exists r w' vert_aperture_mm,
      import_camera_properties float_of_string camera camera_shape (JObj m) w = (r, w')
      /\ SetAttr camera_shape "verticalFilmAperture" (vert_aperture_mm * 0.0393701)%R
           ∈ scene w'
      /\ SetAttr camera_shape "horizontalFilmOffset" (x * 36 * 0.0393701)%R ∈ scene w'
      /\ SetAttr camera_shape "verticalFilmOffset" (y * vert_aperture_mm * 0.0393701)%R
           ∈ scene w'.

Section RoundtripClaim.
Local Open Scope R_scope.
Variable USE_NUMPY : bool.

Definition within_tolerance (a b : R) : Prop := Rabs (a - b) <= 1e-6.

(** The singular test of the decomposition, on the matrix of [(x, y, z)]:
    its [sy] is [Rabs (cos y)]. *)
Definition near_gimbal_lock (y : R) : Prop := Rabs (cos y) < 1e-6.

(** The round-trip property as the specification states it. *)
Definition roundtrip_claim (x y z : R) : Prop :=
  exists m x' y' z',
    create_rotation_matrix USE_NUMPY x y z = Ok m
    /\ rotation_matrix_to_euler USE_NUMPY m = Ok [x'; y'; z']
    /\ (~ near_gimbal_lock y ->
        within_tolerance x' x /\ within_tolerance y' y /\ within_tolerance z' z)
    /\ (near_gimbal_lock y -> create_rotation_matrix USE_NUMPY x' y' z' = Ok m).

End RoundtripClaim.

(** ** Further reference definitions *)

(** A nested list with an upper-left 3x3 block. *)
Definition has_3x3 {A : Type} (d : list (list A)) : Prop :=
  (3 <= length d)%nat /\ Forall (fun row => (3 <= length row)%nat) (take 3 d).

Section MatrixSpec.
Local Open Scope R_scope.

Definition transpose (m : list (list R)) : list (list R) :=
  map (column m) (range (length (hd [] m))).

Definition identity_matrix : list (list R) :=
  [ [1; 0; 0]; [0; 1; 0]; [0; 0; 1] ].

(** The determinant of a 3x3 nested list, by the rule of Sarrus. *)
Definition det3 (m : list (list R)) : R :=
  let e i j := nth j (nth i m []) 0 in
  e 0%nat 0%nat * e 1%nat 1%nat * e 2%nat 2%nat
  + e 0%nat 1%nat * e 1%nat 2%nat * e 2%nat 0%nat
  + e 0%nat 2%nat * e 1%nat 0%nat * e 2%nat 1%nat
  - e 0%nat 2%nat * e 1%nat 1%nat * e 2%nat 0%nat
  - e 0%nat 1%nat * e 1%nat 0%nat * e 2%nat 2%nat
  - e 0%nat 0%nat * e 1%nat 2%nat * e 2%nat 1%nat.

End MatrixSpec.

(** ** The container layout, for round trips *)

Definition byte_of_Z (z : Z) : byte := default x00 (Byte.of_N (Z.to_N z)).

(** [struct.pack('<I', n)], the inverse of [unpack_u32_le]. *)
Definition pack_u32_le (n : Z) : bytes :=
  [ byte_of_Z (n mod 256); byte_of_Z (n / 256 mod 256);
    byte_of_Z (n / 65536 mod 256); byte_of_Z (n / 16777216 mod 256) ].

(** A container file: magic, version, the two sizes, the state block and
    what follows it.  [image_size] is the size the header announces. *)
Definition container (version : Z) (state : bytes) (image_size : Z) (rest : bytes)
  : bytes :=
  fspy_magic ++ pack_u32_le version ++ pack_u32_le (Z.of_nat (length state))
  ++ pack_u32_le image_size ++ state ++ rest.

(** A step that keeps the path fields of the parser, the debug levels,
    the scene and the panel, and prints nothing at the error level. *)
Definition frame_step (w w' : world) : Prop :=
  filepath (parser w') = filepath (parser w)
  /\ image_path (parser w') = image_path (parser w)
  /\ DEBUG_LEVELS w' = DEBUG_LEVELS w
  /\ scene w' = scene w
  /\ info_text w' = info_text w
  /\ exists new, stdout w' = stdout w ++ new /\ errors new = [].

(** What [FSpyParser.parse] reads from a path, as a function of the
    bytes of the file: the decoded state and the image block, or the
    exception that ends the [try]. *)
Section ContainerSpec.
Variable filesystem : string -> option bytes.
Variable utf8_decode : bytes -> option string.
Variable json_loads : string -> option json.

Definition container_fields (c : bytes) : result (json * bytes) :=
  if bool_decide (take 4 c <> fspy_magic) then
    Raise (ValueError "Invalid fSpy file format")
  else
    _ ← unpack_u32_le (take 4 (drop 4 c));
    state_size ← unpack_u32_le (take 4 (drop 8 c));
    image_size ← unpack_u32_le (take 4 (drop 12 c));
    j ← decode_state utf8_decode json_loads
          (strip_nul (take (Z.to_nat state_size) (drop 16 c)));
    Ok (j, take (Z.to_nat image_size) (drop (16 + Z.to_nat state_size) c)).

Definition read_container (path : string) : result (json * bytes) :=
  match filesystem path with
  | None => Raise OSError
  | Some c => container_fields c
  end.

End ContainerSpec.





(** * Properties *)

(** ** RotationMath *)

Open Scope R_scope.


Section Atan2.

Lemma atan2_pos (y x : R) : 0 < x -> atan2 y x = atan (y / x).
Proof. intros Hx. unfold atan2. destruct (decide (0 < x)); [reflexivity | contradiction]. Qed.

Lemma atan2_neg_nonneg (y x : R) : x < 0 -> 0 <= y -> atan2 y x = atan (y / x) + PI.
Proof.
  intros Hx Hy. unfold atan2.
  destruct (decide (0 < x)); [lra |].
  destruct (decide (x < 0)); [| lra].
  destruct (decide (0 <= y)); [reflexivity | lra].
Qed.

Lemma atan2_neg_neg (y x : R) : x < 0 -> y < 0 -> atan2 y x = atan (y / x) - PI.
Proof.
  intros Hx Hy. unfold atan2.
  destruct (decide (0 < x)); [lra |].
  destruct (decide (x < 0)); [| lra].
  destruct (decide (0 <= y)); [lra | reflexivity].
Qed.

Lemma atan2_zero_pos (y : R) : 0 < y -> atan2 y 0 = PI / 2.
Proof.
  intros Hy. unfold atan2.
  destruct (decide (0 < 0)); [lra |].
  destruct (decide (0 < y)); [reflexivity | lra].
Qed.

Lemma atan2_zero_neg (y : R) : y < 0 -> atan2 y 0 = - (PI / 2).
Proof.
  intros Hy. unfold atan2.
  destruct (decide (0 < 0)); [lra |].
  destruct (decide (0 < y)); [lra |].
  destruct (decide (y < 0)); [reflexivity | lra].
Qed.

Lemma atan2_zero_zero : atan2 0 0 = 0.
Proof.
  unfold atan2.
  destruct (decide (0 < 0)); [lra |].
  destruct (decide (0 < 0)); [lra | reflexivity].
Qed.

(** With a non-negative abscissa the angle lies in the right half plane. *)
Lemma atan2_right_half (y x : R) : 0 <= x -> - (PI / 2) <= atan2 y x <= PI / 2.
Proof.
  intros Hx. pose proof PI2_RGT_0 as Hpi.
  destruct (Rle_lt_or_eq_dec 0 x Hx) as [Hpos | <-].
  - rewrite atan2_pos by assumption.
    pose proof (atan_bound (y / x)). lra.
  - destruct (Rtotal_order y 0) as [Hy | [-> | Hy]].
    + rewrite atan2_zero_neg by assumption. lra.
    + rewrite atan2_zero_zero. lra.
    + rewrite atan2_zero_pos by assumption. lra.
Qed.

Lemma tan_scaled (k a : R) : 0 < k -> cos a <> 0 -> k * sin a / (k * cos a) = tan a.
Proof. intros Hk Hc. unfold tan. field. split; lra. Qed.

Lemma tan_shift_PI (a : R) : cos a <> 0 -> tan (a + PI) = tan a.
Proof. intros Hc. unfold tan. rewrite neg_sin, neg_cos. field. assumption. Qed.

(** [atan2] inverts polar coordinates on [(-PI, PI]]. *)
Lemma atan2_polar (k a : R) :
  0 < k -> - PI < a <= PI -> atan2 (k * sin a) (k * cos a) = a.
Proof.
  intros Hk [Hlo Hhi]. pose proof PI_RGT_0 as Hpi.
  destruct (Rtotal_order a (- (PI / 2))) as [Ha | [-> | Ha]].
  - (* third quadrant *)
    assert (Hc : cos a < 0).
    { rewrite <- cos_neg. apply cos_lt_0; lra. }
    assert (Hs : sin a < 0).
    { rewrite <- (Ropp_involutive a), sin_neg.
      pose proof (sin_gt_0 (- a)). lra. }
    rewrite atan2_neg_neg by nra.
    rewrite tan_scaled by lra.
    rewrite <- tan_shift_PI by lra.
    rewrite atan_tan by lra. lra.
  - rewrite cos_neg, sin_neg, cos_PI2, sin_PI2.
    replace (k * 0) with 0 by ring.
    rewrite atan2_zero_neg by lra. reflexivity.
  - destruct (Rtotal_order a (PI / 2)) as [Hb | [-> | Hb]].
    + assert (Hc : 0 < cos a) by (apply cos_gt_0; lra).
      rewrite atan2_pos by nra.
      rewrite tan_scaled by lra.
      apply atan_tan. lra.
    + rewrite cos_PI2, sin_PI2.
      replace (k * 0) with 0 by ring.
      rewrite atan2_zero_pos by lra. reflexivity.
    + assert (Hc : cos a < 0) by (apply cos_lt_0; lra).
      assert (Hs : 0 <= sin a) by (apply sin_ge_0; lra).
      rewrite atan2_neg_nonneg by nra.
      rewrite tan_scaled by lra.
      replace a with (a - PI + PI) at 1 by ring.
      rewrite tan_shift_PI.
      * rewrite atan_tan by lra. lra.
      * replace (a - PI) with (- (PI - a)) by ring.
        rewrite cos_neg, Rtrigo_facts.cos_pi_minus. lra.
Qed.

(** On the unit circle [atan2] returns an angle with the given cosine and
    sine. *)
Lemma cos_sin_atan2 (b a : R) :
  a ^ 2 + b ^ 2 = 1 -> cos (atan2 b a) = a /\ sin (atan2 b a) = b.
Proof.
  intros Hu.
  assert (Hroot : forall c, 0 < c -> c ^ 2 + b ^ 2 = 1 -> sqrt (1 + (b / c)²) = / c).
  { intros c Hc Hc1.
    replace (1 + (b / c)²) with ((/ c)²).
    - apply sqrt_Rsqr. left. apply Rinv_0_lt_compat. assumption.
    - unfold Rsqr. field_simplify; [| lra | lra].
      replace (c ^ 2 + b ^ 2) with 1 by lra. field. lra. }
  destruct (Rtotal_order a 0) as [Ha | [-> | Ha]].
  - assert (Hr : sqrt (1 + (b / a)²) = / - a).
    { replace (b / a) with (- b / - a) by (field; lra).
      rewrite <- (Hroot (- a)).
      - f_equal. f_equal. unfold Rsqr. field. lra.
      - lra.
      - lra. }
    destruct (Rle_or_lt 0 b) as [Hb | Hb].
    + rewrite atan2_neg_nonneg by assumption.
      rewrite neg_cos, neg_sin, cos_atan, sin_atan, Hr. split; field; lra.
    + rewrite atan2_neg_neg by assumption.
      replace (atan (b / a) - PI) with (- (- atan (b / a) + PI)) by ring.
      rewrite cos_neg, sin_neg, neg_cos, neg_sin, cos_neg, sin_neg.
      rewrite cos_atan, sin_atan, Hr. split; field; lra.
  - assert (Hb : b = 1 \/ b = -1) by nra.
    destruct Hb as [-> | ->].
    + rewrite atan2_zero_pos by lra. rewrite cos_PI2, sin_PI2. split; reflexivity.
    + rewrite atan2_zero_neg by lra. rewrite cos_neg, sin_neg, cos_PI2, sin_PI2.
      split; reflexivity.
  - rewrite atan2_pos by assumption.
    rewrite cos_atan, sin_atan, (Hroot a) by lra. split; field; lra.
Qed.

(** [atan2] depends on the direction of the point only. *)
Lemma atan2_scale (k b a : R) : 0 < k -> atan2 (k * b) (k * a) = atan2 b a.
Proof.
  intros Hk.
  assert (Hq : a <> 0 -> k * b / (k * a) = b / a) by (intros; field; lra).
  destruct (Rtotal_order a 0) as [Ha | [-> | Ha]].
  - destruct (Rle_or_lt 0 b) as [Hb | Hb].
    + rewrite !atan2_neg_nonneg by nra. rewrite Hq by lra. reflexivity.
    + rewrite !atan2_neg_neg by nra. rewrite Hq by lra. reflexivity.
  - replace (k * 0) with 0 by ring.
    destruct (Rtotal_order b 0) as [Hb | [-> | Hb]].
    + rewrite !atan2_zero_neg by nra. reflexivity.
    + replace (k * 0) with 0 by ring. reflexivity.
    + rewrite !atan2_zero_pos by nra. reflexivity.
  - rewrite !atan2_pos by nra. rewrite Hq by lra. reflexivity.
Qed.

Lemma cos_sin_atan2_scaled (k b a : R) :
  0 < k -> a ^ 2 + b ^ 2 = 1 ->
  cos (atan2 (k * b) (k * a)) = a /\ sin (atan2 (k * b) (k * a)) = b.
Proof. intros Hk Hu. rewrite atan2_scale by exact Hk. apply cos_sin_atan2, Hu. Qed.

End Atan2.

Ltac entrywise :=
  match goal with
  | |- Ok _ = Ok _ => f_equal; entrywise
  | |- Build_Matrix3x3 _ _ = Build_Matrix3x3 _ _ => f_equal; entrywise
  | |- _ :: _ = _ :: _ => f_equal; entrywise
  | |- _ => idtac
  end.

Section Euler.
Variable USE_NUMPY : bool.

Lemma is_3x3_inv {A : Type} (m : Matrix3x3 A) :
  is_3x3 m ->
  exists a b c d e f g h i, m = {| data := [[a; b; c]; [d; e; f]; [g; h; i]] |}.
Proof.
  destruct m as [rows]. unfold is_3x3. simpl. intros [Hlen Hrows].
  destruct rows as [| r0 [| r1 [| r2 [| ? ?]]]]; try discriminate.
  inversion Hrows as [| ? ? H0 Hrows1]; subst.
  inversion Hrows1 as [| ? ? H1 Hrows2]; subst.
  inversion Hrows2 as [| ? ? H2 _]; subst.
  destruct r0 as [| a [| b [| c [| ? ?]]]]; try discriminate.
  destruct r1 as [| d [| e [| f [| ? ?]]]]; try discriminate.
  destruct r2 as [| g [| h [| i [| ? ?]]]]; try discriminate.
  repeat eexists.
Qed.

Lemma sum_squares_nonneg (a d : R) : ~ (a ^ 2 + d ^ 2 < 0).
Proof. nra. Qed.

(** The decomposition on a matrix given by its nine entries. *)
Lemma rotation_matrix_to_euler_entries (a b c d e f g h i : R) :
  rotation_matrix_to_euler USE_NUMPY {| data := [[a; b; c]; [d; e; f]; [g; h; i]] |}
  = let sy := sqrt (a ^ 2 + d ^ 2) in
    Ok (if bool_decide (sy < 1e-6)
        then [atan2 (- f) e; atan2 (- g) sy; 0]
        else [atan2 h i; atan2 (- g) sy; atan2 d a]).
Proof.
  destruct USE_NUMPY;
    cbv [rotation_matrix_to_euler entry getitem math_sqrt mbind result_bind
         index lookup list_lookup data number square add_squares negate R_Number];
    (destruct (decide (a ^ 2 + d ^ 2 < 0)) as [Hneg | _];
     [ exfalso; exact (sum_squares_nonneg a d Hneg) | ]);
    destruct (bool_decide (sqrt (a ^ 2 + d ^ 2) < 1e-6)); reflexivity.
Qed.

(** C10. On every 3x3 matrix the decomposition returns, and its second
    angle lies in [[-PI/2, PI/2]]. *)
Theorem euler_pitch_range (m : Matrix3x3 R) :
  is_3x3 m ->
  exists x y z,
    rotation_matrix_to_euler USE_NUMPY m = Ok [x; y; z]
    /\ - (PI / 2) <= y <= PI / 2.
Proof.
  intros H3. destruct (is_3x3_inv m H3) as (a & b & c & d & e & f & g & h & i & ->).
  rewrite rotation_matrix_to_euler_entries. cbv zeta.
  destruct (bool_decide (sqrt (a ^ 2 + d ^ 2) < 1e-6));
    do 3 eexists; (split; [reflexivity | apply atan2_right_half, sqrt_pos]).
Qed.

(** The nine entries of the composed rotation. *)
Lemma create_rotation_matrix_entries (x y z : R) :
  create_rotation_matrix USE_NUMPY x y z
  = Ok {| data :=
       [ [cos z * cos y; cos z * sin y * sin x - sin z * cos x;
          cos z * sin y * cos x + sin z * sin x];
         [sin z * cos y; sin z * sin y * sin x + cos z * cos x;
          sin z * sin y * cos x - cos z * sin x];
         [- sin y; cos y * sin x; cos y * cos x] ] |}.
Proof.
  unfold create_rotation_matrix. destruct USE_NUMPY.
  - cbv [np_dot data mat_mul rot_x rot_y rot_z column range seq map hd length
         zip_with fold_right nth].
    entrywise; ring.
  - cbv [Matrix3x3_init dot mapM foldM range seq mbind result_bind index lookup
         list_lookup data rot_x rot_y rot_z setitem2 dot_product fold_left
         zip_with map insert list_insert].
    entrywise; ring.
Qed.

(** The elementary matrices of the source are the right-handed rotations
    about the coordinate axes. *)
Lemma rot_x_right_handed (x : R) : rot_x x = Rx x.
Proof.
  cbv [rot_x Rx matrix_of rotate_about vadd scale cross inner]. entrywise; ring.
Qed.

Lemma rot_y_right_handed (y : R) : rot_y y = Ry y.
Proof.
  cbv [rot_y Ry matrix_of rotate_about vadd scale cross inner]. entrywise; ring.
Qed.

Lemma rot_z_right_handed (z : R) : rot_z z = Rz z.
Proof.
  cbv [rot_z Rz matrix_of rotate_about vadd scale cross inner]. entrywise; ring.
Qed.

(** C2. [create_rotation_matrix] returns the matrix product
    [Rz(z) * Ry(y) * Rx(x)] of the right-handed elementary rotations, with
    [Rz] the leftmost factor; the product is the same under either
    bracketing. *)
Theorem create_rotation_matrix_product (x y z : R) :
  create_rotation_matrix USE_NUMPY x y z
  = Ok {| data := mat_mul (mat_mul (Rz z) (Ry y)) (Rx x) |}
  /\ mat_mul (mat_mul (Rz z) (Ry y)) (Rx x) = mat_mul (Rz z) (mat_mul (Ry y) (Rx x)).
Proof.
  rewrite <- rot_x_right_handed, <- rot_y_right_handed, <- rot_z_right_handed.
  split.
  - rewrite create_rotation_matrix_entries.
    cbv [mat_mul rot_x rot_y rot_z column range seq map hd length zip_with
         fold_right nth].
    entrywise; ring.
  - cbv [mat_mul rot_x rot_y rot_z column range seq map hd length zip_with
         fold_right nth].
    entrywise; ring.
Qed.

Lemma sin2_cos2_pow (a : R) : sin a ^ 2 + cos a ^ 2 = 1.
Proof. pose proof (sin2_cos2 a) as H. unfold Rsqr in H. lra. Qed.

Lemma first_column_norm (y z : R) :
  sqrt ((cos z * cos y) ^ 2 + (sin z * cos y) ^ 2) = Rabs (cos y).
Proof.
  rewrite <- sqrt_Rsqr_abs. f_equal. unfold Rsqr.
  pose proof (sin2_cos2_pow z). nra.
Qed.

End Euler.

Section Roundtrip.
Variable USE_NUMPY : bool.

Lemma euler_of_half_turn_about_y :
  rotation_matrix_to_euler USE_NUMPY
    {| data := [[-1; 0; 0]; [0; 1; 0]; [0; 0; -1]] |} = Ok [PI; 0; PI].
Proof.
  rewrite rotation_matrix_to_euler_entries. cbv zeta.
  replace ((-1) ^ 2 + 0 ^ 2) with 1 by ring. rewrite sqrt_1.
  rewrite bool_decide_eq_false_2 by lra.
  rewrite (atan2_neg_nonneg 0 (-1)) by lra.
  rewrite (atan2_pos (- 0) 1) by lra.
  replace (0 / -1) with 0 by (field; lra).
  replace (- 0 / 1) with 0 by field.
  rewrite atan_0. entrywise; ring.
Qed.

Lemma half_turn_about_y : 
  create_rotation_matrix USE_NUMPY 0 PI 0
  = Ok {| data := [[-1; 0; 0]; [0; 1; 0]; [0; 0; -1]] |}.
Proof.
  rewrite create_rotation_matrix_entries, cos_0, sin_0, cos_PI, sin_PI.
  entrywise; ring.
Qed.

Lemma half_turn_not_reproduced :
  (- PI <= 0 <= PI /\ - PI <= PI <= PI) /\ ~ roundtrip_claim USE_NUMPY 0 PI 0.
Proof.
  pose proof PI2_1 as Hpi. split; [lra |].
  intros (m & x' & y' & z' & Hm & He & Hang & _).
  rewrite half_turn_about_y in Hm. injection Hm as <-.
  rewrite euler_of_half_turn_about_y in He. injection He as <- <- <-.
  destruct Hang as (_ & Hy & _).
  - unfold near_gimbal_lock. rewrite cos_PI.
    rewrite Rabs_left by lra. lra.
  - unfold within_tolerance in Hy. rewrite Rabs_left in Hy by lra. lra.
Qed.

Lemma unit_row_norm (s x z : R) :
  s ^ 2 = 1 ->
  (sin z * s * sin x + cos z * cos x) ^ 2
  + (- (sin z * s * cos x - cos z * sin x)) ^ 2 = 1.
Proof.
  intros Hs. pose proof (sin2_cos2_pow x) as Hx. pose proof (sin2_cos2_pow z) as Hz.
  transitivity ((sin z ^ 2 * s ^ 2 + cos z ^ 2) * (sin x ^ 2 + cos x ^ 2)); [ring |].
  rewrite Hs, Hx. lra.
Qed.

(** The matrix recomposed from the angles of the decomposition, off the
    singular branch. *)
Lemma recompose_regular (x y z : R) :
  cos y <> 0 ->
  create_rotation_matrix USE_NUMPY
    (atan2 (cos y * sin x) (cos y * cos x))
    (atan2 (- - sin y) (Rabs (cos y)))
    (atan2 (sin z * cos y) (cos z * cos y))
  = create_rotation_matrix USE_NUMPY x y z.
Proof.
  intros Hc.
  pose proof (sin2_cos2_pow x) as Hx. pose proof (sin2_cos2_pow y) as Hy.
  pose proof (sin2_cos2_pow z) as Hz.
  set (X := atan2 (cos y * sin x) (cos y * cos x)).
  set (Y := atan2 (- - sin y) (Rabs (cos y))).
  set (Z := atan2 (sin z * cos y) (cos z * cos y)).
  destruct (Rtotal_order (cos y) 0) as [Hneg | [Hzero | Hpos]]; [| contradiction |].
  - assert (HX : cos X = - cos x /\ sin X = - sin x).
    { unfold X.
      replace (cos y * sin x) with (- cos y * - sin x) by ring.
      replace (cos y * cos x) with (- cos y * - cos x) by ring.
      apply cos_sin_atan2_scaled; [lra | nra]. }
    assert (HY : cos Y = - cos y /\ sin Y = sin y).
    { unfold Y. rewrite (Rabs_left _ Hneg), Ropp_involutive.
      apply cos_sin_atan2. nra. }
    assert (HZ : cos Z = - cos z /\ sin Z = - sin z).
    { unfold Z.
      replace (sin z * cos y) with (- cos y * - sin z) by ring.
      replace (cos z * cos y) with (- cos y * - cos z) by ring.
      apply cos_sin_atan2_scaled; [lra | nra]. }
    rewrite !create_rotation_matrix_entries.
    destruct HX as [-> ->], HY as [-> ->], HZ as [-> ->].
    entrywise; ring.
  - assert (HX : cos X = cos x /\ sin X = sin x).
    { unfold X. apply cos_sin_atan2_scaled; [lra | nra]. }
    assert (HY : cos Y = cos y /\ sin Y = sin y).
    { unfold Y. rewrite (Rabs_pos_eq (cos y)), Ropp_involutive by lra.
      apply cos_sin_atan2. nra. }
    assert (HZ : cos Z = cos z /\ sin Z = sin z).
    { unfold Z.
      replace (sin z * cos y) with (cos y * sin z) by ring.
      replace (cos z * cos y) with (cos y * cos z) by ring.
      apply cos_sin_atan2_scaled; [lra | nra]. }
    rewrite !create_rotation_matrix_entries.
    destruct HX as [-> ->], HY as [-> ->], HZ as [-> ->].
    reflexivity.
Qed.

(** The same at gimbal lock, on the singular branch. *)
Lemma recompose_gimbal_lock (x y z : R) :
  cos y = 0 ->
  create_rotation_matrix USE_NUMPY
    (atan2 (- (sin z * sin y * cos x - cos z * sin x))
           (sin z * sin y * sin x + cos z * cos x))
    (atan2 (- - sin y) 0)
    0
  = create_rotation_matrix USE_NUMPY x y z.
Proof.
  intros Hc0. rewrite !create_rotation_matrix_entries.
  assert (Hs : sin y ^ 2 = 1) by (pose proof (sin2_cos2_pow y); nra).
  destruct (cos_sin_atan2 (- (sin z * sin y * cos x - cos z * sin x))
              (sin z * sin y * sin x + cos z * cos x)
              (unit_row_norm (sin y) x z Hs)) as [-> ->].
  destruct (cos_sin_atan2 (- - sin y) 0) as [-> ->]; [nra |].
  rewrite cos_0, sin_0, Hc0.
  entrywise; try ring.
  - transitivity (cos z * sin y * sin x - sin z * cos x * sin y ^ 2);
      [ring | rewrite Hs; ring].
  - transitivity (cos z * sin y * cos x + sin z * sin x * sin y ^ 2);
      [ring | rewrite Hs; ring].
Qed.

(** Between the two, where [0 < Rabs (cos y) < 1e-6], the singular branch
    is taken and the recomposed matrix need not be the original: for
    [(0, PI/2 - 5e-7, PI)] the first entries are [cos y] and [- cos y]. *)
Lemma recompose_differs_near_gimbal_lock :
  let y := PI / 2 - 5e-7 in
  near_gimbal_lock y
  /\ exists m x' y' z',
       create_rotation_matrix USE_NUMPY 0 y PI = Ok m
       /\ rotation_matrix_to_euler USE_NUMPY m = Ok [x'; y'; z']
       /\ create_rotation_matrix USE_NUMPY x' y' z' <> Ok m.
Proof.
  intros y. pose proof PI2_1 as Hpi.
  assert (Hc : 0 < cos y < 5e-7).
  { unfold y. rewrite cos_shift. split.
    - apply sin_gt_0; lra.
    - apply sin_lt_x. lra. }
  assert (Hnear : Rabs (cos y) < 1e-6) by (rewrite Rabs_pos_eq; lra).
  split; [exact Hnear |].
  pose proof (create_rotation_matrix_entries USE_NUMPY 0 y PI) as Hm.
  match type of Hm with
  | _ = Ok ?M => pose proof (eq_refl (rotation_matrix_to_euler USE_NUMPY M)) as He
  end.
  rewrite rotation_matrix_to_euler_entries in He at 2. cbv zeta in He.
  rewrite first_column_norm in He.
  rewrite bool_decide_eq_true_2 in He by exact Hnear.
  eexists _, _, _, _. split; [exact Hm |]. split; [exact He |].
  rewrite create_rotation_matrix_entries. intros Heq.
  injection Heq as H00 _.
  destruct (cos_sin_atan2 (- - sin y) (Rabs (cos y))) as [Hcos _].
  { rewrite Rabs_pos_eq by lra. pose proof (sin2_cos2_pow y). nra. }
  rewrite Hcos, cos_0, cos_PI, Rabs_pos_eq in H00 by lra. lra.
Qed.

(** C1, as amended. The decomposition of the matrix of [(x, y, z)] returns
    [(x, y, z)] itself when [x] and [z] lie in [(-PI, PI]], [y] lies in
    [[-PI/2, PI/2]] and [cos y >= 1e-6]; for every [(x, y, z)] with
    [Rabs (cos y) >= 1e-6], and at gimbal lock [cos y = 0], the returned
    angles recompose to the matrix of [(x, y, z)]. *)
Theorem euler_roundtrip (x y z : R) :
  exists m x' y' z',
    create_rotation_matrix USE_NUMPY x y z = Ok m
    /\ rotation_matrix_to_euler USE_NUMPY m = Ok [x'; y'; z']
    /\ (- PI < x <= PI -> - (PI / 2) <= y <= PI / 2 -> - PI < z <= PI ->
        1e-6 <= cos y -> x' = x /\ y' = y /\ z' = z)
    /\ (1e-6 <= Rabs (cos y) \/ cos y = 0 ->
        create_rotation_matrix USE_NUMPY x' y' z' = Ok m).
Proof.
  pose proof PI_RGT_0 as Hpi.
  pose proof (create_rotation_matrix_entries USE_NUMPY x y z) as Hm.
  match type of Hm with
  | _ = Ok ?M => pose proof (eq_refl (rotation_matrix_to_euler USE_NUMPY M)) as He
  end.
  rewrite rotation_matrix_to_euler_entries in He at 2. cbv zeta in He.
  rewrite first_column_norm in He.
  destruct (bool_decide (Rabs (cos y) < 1e-6)) eqn:Hsing.
  - apply bool_decide_eq_true_1 in Hsing.
    eexists _, _, _, _. split; [exact Hm |]. split; [exact He |]. split.
    + intros _ _ _ Hc6. rewrite Rabs_pos_eq in Hsing by lra. lra.
    + intros [Hreg | Hc0]; [lra |].
      rewrite <- Hm. rewrite Hc0, Rabs_R0.
      apply recompose_gimbal_lock, Hc0.
  - apply bool_decide_eq_false_1 in Hsing.
    eexists _, _, _, _. split; [exact Hm |]. split; [exact He |]. split.
    + intros Hx Hy Hz Hc6. assert (Hcp : 0 < cos y) by lra.
      rewrite (Rabs_pos_eq (cos y)) by lra.
      split; [| split].
      * rewrite <- (atan2_polar (cos y) x) at 3 by lra. reflexivity.
      * replace (- - sin y) with (1 * sin y) by ring.
        replace (cos y) with (1 * cos y) at 1 by ring.
        apply atan2_polar; lra.
      * rewrite <- (atan2_polar (cos y) z) at 3 by lra.
        f_equal; ring.
    + intros _. rewrite <- Hm. apply recompose_regular.
      intros Hc0. apply Hsing. rewrite Hc0, Rabs_R0. lra.
Qed.

End Roundtrip.

Lemma euler_roundtrip_witness :
  exists m,
    create_rotation_matrix false 0 0 0 = Ok m
    /\ rotation_matrix_to_euler false m = Ok [0; 0; 0]
    /\ create_rotation_matrix false 0 0 0 = Ok m.
Proof.
  destruct (euler_roundtrip false 0 0 0) as (m & x' & y' & z' & Hm & He & Hang & Hrec).
  assert (Hpi : 0 < PI) by exact PI_RGT_0.
  assert (Hc : 1e-6 <= cos 0) by (rewrite cos_0; lra).
  assert (Hr : 1e-6 <= Rabs (cos 0)) by (rewrite cos_0, Rabs_R1; lra).
  assert (Hrec' := Hrec (or_introl Hr)).
  destruct Hang as (Ex & Ey & Ez); [lra | lra | lra | exact Hc |].
  rewrite Ex, Ey, Ez in He, Hrec'.
  exists m. split; [exact Hm |]. split; [exact He | exact Hrec'].
Defined.

(** C1, counterexample: the angles [(0, PI, 0)] lie in [[-PI, PI]], are not
    near gimbal lock, and are decomposed as [(PI, 0, PI)]. *)
Lemma roundtrip_fails_at_half_turn :
  (- PI <= 0 <= PI /\ - PI <= PI <= PI)
  /\ ~ roundtrip_claim true 0 PI 0 /\ ~ roundtrip_claim false 0 PI 0.
Proof.
  split; [exact (proj1 (half_turn_not_reproduced true)) |].
  split; [exact (proj2 (half_turn_not_reproduced true))
         | exact (proj2 (half_turn_not_reproduced false))].
Qed.

Lemma euler_pitch_range_witness :
  exists x y z,
    rotation_matrix_to_euler true {| data := [[1; 0; 0]; [0; 1; 0]; [0; 0; 1]] |}
    = Ok [x; y; z]
    /\ - (PI / 2) <= y <= PI / 2.
Proof.
  apply (euler_pitch_range true {| data := [[1; 0; 0]; [0; 1; 0]; [0; 0; 1]] |}).
  split; [reflexivity | repeat constructor].
Defined.

Close Scope R_scope.

(** ** ContainerParser *)

Lemma errors_app (l1 l2 : list (string * message)) :
  errors (l1 ++ l2) = errors l1 ++ errors l2.
Proof. unfold errors. rewrite filter_app, fmap_app. reflexivity. Qed.

Lemma errors_quiet (c : bool) (level : string) (msg : message) :
  level <> "error" -> errors (if c then [(level, msg)] else []) = [].
Proof.
  intros Hne. destruct c; [| reflexivity].
  unfold errors. rewrite filter_cons_False; [reflexivity | exact Hne].
Qed.

(** ** Runs of a computation, one statement at a time *)

Lemma run_log (A : Type) (msg : message) (level : string) (k : unit -> M A) (w : world) :
  (log_message msg level ≫= k) w
  = k tt (set_stdout (stdout w ++ (if log_enabled w level then [(level, msg)] else [])) w).
Proof. reflexivity. Qed.

Lemma run_get_parser (A : Type) (k : FSpyParser -> M A) (w : world) :
  (get_parser ≫= k) w = k (parser w) w.
Proof. reflexivity. Qed.

Lemma run_read (A : Type) (n : nat) (k : bytes -> M A) (w : world) (c : bytes) (p : nat) :
  fd w = {| contents := c; pos := p |} ->
  (read n ≫= k) w
  = k (take n (drop p c))
      (set_fd {| contents := c; pos := p + length (take n (drop p c)) |} w).
Proof. intros H. unfold mbind, M_bind, read. rewrite H. reflexivity. Qed.

Lemma run_lift_ok (A B : Type) (a : A) (k : A -> M B) (w : world) :
  (lift (Ok a) ≫= k) w = k a w.
Proof. reflexivity. Qed.

Lemma run_lift_raise (A B : Type) (e : exn) (k : A -> M B) (w : world) :
  (lift (Raise e) ≫= k) w = (Raise e, w).
Proof. reflexivity. Qed.

Lemma run_setAttr (A : Type) (node attr : string) (v : R) (k : unit -> M A) (w : world) :
  (setAttr node attr v ≫= k) w = k tt (set_scene (scene w ++ [SetAttr node attr v]) w).
Proof. reflexivity. Qed.

Lemma run_setAttr_lock (A : Type) (node attr : string) (k : unit -> M A) (w : world) :
  (setAttr_lock node attr ≫= k) w = k tt (set_scene (scene w ++ [LockAttr node attr]) w).
Proof. reflexivity. Qed.

(** ** Rules for [always], [on_raise], [returns] and [returns_only] *)

Section StepRelation.
Variable Rel : world -> world -> Prop.
Hypothesis Rel_refl : forall w, Rel w w.
Hypothesis Rel_trans : forall w1 w2 w3, Rel w1 w2 -> Rel w2 w3 -> Rel w1 w3.

Lemma always_ret {A : Type} (a : A) : always Rel (mret a).
Proof. intros w r w' H. injection H as <- <-. apply Rel_refl. Qed.

Lemma always_lift {A : Type} (r : result A) : always Rel (lift r).
Proof. intros w r' w' H. injection H as <- <-. apply Rel_refl. Qed.

Lemma always_raise {A : Type} (e : exn) : always Rel (@raise A e).
Proof. intros w r' w' H. injection H as <- <-. apply Rel_refl. Qed.

Lemma always_get_parser : always Rel get_parser.
Proof. intros w r' w' H. injection H as <- <-. apply Rel_refl. Qed.

Lemma always_bind {A B : Type} (m : M A) (k : A -> M B) :
  always Rel m -> (forall a, always Rel (k a)) -> always Rel (m ≫= k).
Proof.
  intros Hm Hk w r w'. unfold mbind, M_bind.
  destruct (m w) as [[a | e] w1] eqn:Em; intros Hr.
  - eapply Rel_trans; [exact (Hm _ _ _ Em) | exact (Hk _ _ _ _ Hr)].
  - injection Hr as <- <-. exact (Hm _ _ _ Em).
Qed.

(** After [lift r] the continuation runs on the value of [r] only. *)
Lemma always_bind_lift {A B : Type} (r : result A) (k : A -> M B) :
  (forall a, r = Ok a -> always Rel (k a)) -> always Rel (lift r ≫= k).
Proof.
  intros Hk w r' w'. destruct r as [a | e].
  - rewrite run_lift_ok. apply Hk. reflexivity.
  - rewrite run_lift_raise. intros H. injection H as <- <-. apply Rel_refl.
Qed.

Lemma on_raise_bind {A B : Type} (m : M A) (k : A -> M B) :
  always Rel m -> (forall a, on_raise Rel (k a)) -> on_raise Rel (m ≫= k).
Proof.
  intros Hm Hk w e w'. unfold mbind, M_bind.
  destruct (m w) as [[a | e1] w1] eqn:Em; intros Hr.
  - eapply Rel_trans; [exact (Hm _ _ _ Em) | exact (Hk _ _ _ _ Hr)].
  - injection Hr as <- <-. exact (Hm _ _ _ Em).
Qed.

Lemma always_on_raise {A : Type} (m : M A) : always Rel m -> on_raise Rel m.
Proof. intros H w e w' Hr. exact (H _ _ _ Hr). Qed.

Lemma returns_on_raise {A : Type} (m : M A) : returns m -> on_raise Rel m.
Proof. intros H w e w' Hr. destruct (H w) as (a & w1 & Ha). congruence. Qed.

End StepRelation.

Lemma returns_bind {A B : Type} (m : M A) (k : A -> M B) :
  returns m -> (forall a, returns (k a)) -> returns (m ≫= k).
Proof.
  intros Hm Hk w. unfold mbind, M_bind.
  destruct (Hm w) as (a & w1 & ->). apply Hk.
Qed.

Lemma returns_ret {A : Type} (a : A) : returns (mret a).
Proof. intros w. eexists _, _. reflexivity. Qed.

Lemma returns_get_parser : returns get_parser.
Proof. intros w. eexists _, _. reflexivity. Qed.

Lemma returns_log_message (msg : message) (level : string) :
  returns (log_message msg level).
Proof. intros w. eexists _, _. reflexivity. Qed.

Lemma returns_read (n : nat) : returns (read n).
Proof. intros w. eexists _, _. reflexivity. Qed.


Lemma try_except_returns {A : Type} (body : M A) (handler : exn -> M A) :
  (forall e, returns (handler e)) -> returns (try_except body handler).
Proof.
  intros Hh w. unfold try_except.
  destruct (body w) as [[a | e] w1]; [eexists _, _; reflexivity | apply Hh].
Qed.

(** ** Quiet steps *)

Lemma quiet_step_silent (w w' : world) :
  parser w' = parser w -> DEBUG_LEVELS w' = DEBUG_LEVELS w -> scene w' = scene w ->
  info_text w' = info_text w -> stdout w' = stdout w -> quiet_step w w'.
Proof.
  intros Hp Hd Hs Hi Ho. repeat split; try assumption.
  exists []. split; [rewrite app_nil_r; exact Ho | reflexivity].
Qed.

Lemma quiet_step_refl (w : world) : quiet_step w w.
Proof. apply quiet_step_silent; reflexivity. Qed.

Lemma quiet_step_trans (w1 w2 w3 : world) :
  quiet_step w1 w2 -> quiet_step w2 w3 -> quiet_step w1 w3.
Proof.
  intros (Hp & Hd & Hs & Hi & n1 & Ho1 & He1) (Hp' & Hd' & Hs' & Hi' & n2 & Ho2 & He2).
  repeat split; try congruence.
  exists (n1 ++ n2). split.
  - rewrite Ho2, Ho1, app_assoc. reflexivity.
  - rewrite errors_app, He1, He2. reflexivity.
Qed.

Lemma quiet_log_message (msg : message) (level : string) :
  level <> "error" -> always quiet_step (log_message msg level).
Proof.
  intros Hne w r w' H. injection H as <- <-.
  repeat split. eexists. split; [reflexivity | apply errors_quiet, Hne].
Qed.

Lemma quiet_read (n : nat) : always quiet_step (read n).
Proof. intros w r w' H. injection H as <- <-. apply quiet_step_silent; reflexivity. Qed.

(** The error level is enabled when the module is loaded, and
    [set_debug_level] leaves it so. *)
Lemma initial_world_logs_errors (path : string) :
  log_enabled (initial_world path) "error" = true.
Proof. reflexivity. Qed.

Lemma set_debug_level_keeps_errors (trace debug_flag : bool) (w w' : world) (r : result unit) :
  set_debug_level trace debug_flag w = (r, w') ->
  log_enabled w' "error" = log_enabled w "error".
Proof.
  intros H. injection H as <- <-. unfold log_enabled. cbn [DEBUG_LEVELS set_stdout].
  rewrite !lookup_insert_ne by discriminate. reflexivity.
Qed.

Section ParserFacts.
Variable filesystem : string -> option bytes.
Variable utf8_decode : bytes -> option string.
Variable json_loads : string -> option json.

Lemma quiet_open_rb (path : string) : always quiet_step (open_rb filesystem path).
Proof.
  intros w r w'. unfold open_rb.
  destruct (filesystem path); intros H; injection H as <- <-;
    apply quiet_step_silent; reflexivity.
Qed.

Lemma returns_set_state_data (j : json) : returns (set_state_data j).
Proof. intros w. eexists _, _. reflexivity. Qed.

Lemma returns_set_image_data (b : bytes) : returns (set_image_data b).
Proof. intros w. eexists _, _. reflexivity. Qed.

Create HintDb quiet.
Create HintDb returns.
#[local] Hint Resolve quiet_read quiet_open_rb : quiet.
#[local] Hint Extern 1 (always quiet_step (mret _)) =>
  apply always_ret, quiet_step_refl : quiet.
#[local] Hint Extern 1 (always quiet_step (lift _)) =>
  apply always_lift, quiet_step_refl : quiet.
#[local] Hint Extern 1 (always quiet_step (raise _)) =>
  apply always_raise, quiet_step_refl : quiet.
#[local] Hint Extern 1 (always quiet_step get_parser) =>
  apply always_get_parser, quiet_step_refl : quiet.
#[local] Hint Resolve returns_ret returns_get_parser returns_log_message returns_read
  returns_set_state_data returns_set_image_data : returns.

Ltac quiet_log := apply quiet_log_message; discriminate.

Ltac step_quiet :=
  lazymatch goal with
  | |- on_raise quiet_step (log_message _ _ ≫= _) =>
      apply (on_raise_bind _ quiet_step_trans); [quiet_log | intros ?]
  | |- on_raise quiet_step (_ ≫= _) =>
      apply (on_raise_bind _ quiet_step_trans); [solve [auto with quiet] | intros ?]
  end.

Ltac step_returns :=
  lazymatch goal with
  | |- returns (_ ≫= _) => apply returns_bind; [solve [auto with returns] | intros ?]
  | |- returns _ => solve [auto with returns]
  end.

(** A run of the body that raises has assigned nothing and has printed
    nothing at the error level. *)
Lemma parse_body_quiet_raise :
  on_raise quiet_step (parse_body filesystem utf8_decode json_loads).
Proof.
  unfold parse_body.
  repeat step_quiet.
  match goal with |- context [bool_decide ?P] => destruct (bool_decide P) end.
  - apply always_on_raise. auto with quiet.
  - repeat step_quiet.
    apply returns_on_raise.
    repeat step_returns.
Qed.


(** How [parse] ends when its body raises. *)
Lemma parse_of_raise (w w1 : world) (e : exn) :
  parse_body filesystem utf8_decode json_loads w = (Raise e, w1) ->
  exists w',
    parse filesystem utf8_decode json_loads w = (Ok false, w')
    /\ parser w' = parser w
    /\ fd w' = fd w1
    /\ exists new,
         stdout w' = stdout w ++ new
         /\ (log_enabled w "error" = true -> errors new = [MsgParseFailed e]).
Proof.
  intros Hbody.
  destruct (parse_body_quiet_raise _ _ _ Hbody) as (Hp & Hd & _ & _ & new & Ho & He).
  unfold parse, try_except. rewrite Hbody.
  eexists. split; [reflexivity |]. split; [exact Hp |]. split; [reflexivity |].
  eexists. split.
  - cbn. rewrite Ho, <- app_assoc. reflexivity.
  - intros Hen. unfold log_enabled in *. rewrite Hd, Hen.
    rewrite errors_app, He. reflexivity.
Qed.

Lemma bind_ok {A B : Type} (m : M A) (k : A -> M B) (w w1 : world) (a : A) :
  m w = (Ok a, w1) -> (m ≫= k) w = k a w1.
Proof. intros H. unfold mbind, M_bind. rewrite H. reflexivity. Qed.

(** The run of the body on a file that does not start with the magic. *)
Lemma parse_body_bad_magic (w : world) (content : bytes) :
  filesystem (filepath (parser w)) = Some content ->
  take 4 content <> fspy_magic ->
  exists w1,
    parse_body filesystem utf8_decode json_loads w
    = (Raise (ValueError "Invalid fSpy file format"), w1)
    /\ fd w1 = {| contents := content; pos := length (take 4 content) |}.
Proof.
  intros Hopen Hmagic. unfold parse_body.
  erewrite bind_ok by reflexivity.
  erewrite bind_ok by reflexivity.
  erewrite bind_ok by (unfold open_rb; cbn; rewrite Hopen; reflexivity).
  erewrite bind_ok by reflexivity.
  erewrite bind_ok by reflexivity.
  cbn [fd set_fd set_stdout contents pos].
  rewrite drop_0, bool_decide_eq_true_2 by exact Hmagic.
  eexists. split; reflexivity.
Qed.

Lemma run_open_rb (A : Type) (path : string) (c : bytes) (k : unit -> M A) (w : world) :
  filesystem path = Some c ->
  (open_rb filesystem path ≫= k) w = k tt (set_fd {| contents := c; pos := 0 |} w).
Proof. intros H. unfold mbind, M_bind, open_rb. rewrite H. reflexivity. Qed.

(** The run of the body on a file that ends inside the header. *)
Lemma parse_body_short_header (w : world) (rest : bytes) :
  filesystem (filepath (parser w)) = Some (fspy_magic ++ rest) ->
  (length rest < 4)%nat ->
  exists w1,
    parse_body filesystem utf8_decode json_loads w = (Raise struct_error, w1).
Proof.
  intros Hopen Hshort. unfold parse_body.
  rewrite run_log, run_get_parser.
  erewrite run_open_rb by exact Hopen.
  erewrite run_read by reflexivity.
  change (take 4 (drop 0 (fspy_magic ++ rest))) with fspy_magic.
  rewrite run_log, bool_decide_eq_false_2 by (intros H; apply H; reflexivity).
  erewrite run_read by reflexivity.
  change (drop (0 + length fspy_magic) (fspy_magic ++ rest)) with rest.
  assert (Hun : unpack_u32_le (take 4 rest) = Raise struct_error).
  { destruct rest as [| b0 [| b1 [| b2 [| b3 rest']]]]; try reflexivity.
    simpl in Hshort. lia. }
  rewrite Hun, run_lift_raise. eexists. reflexivity.
Qed.

(** The run of the body on a file whose state block does not decode. *)
Lemma parse_body_bad_state (w : world) (v0 v1 v2 v3 s0 s1 s2 s3 i0 i1 i2 i3 : byte)
    (rest : bytes) (n : Z) (e : exn) :
  filesystem (filepath (parser w))
  = Some (fspy_magic ++ [v0; v1; v2; v3] ++ [s0; s1; s2; s3] ++ [i0; i1; i2; i3] ++ rest) ->
  unpack_u32_le [s0; s1; s2; s3] = Ok n ->
  decode_state utf8_decode json_loads (strip_nul (take (Z.to_nat n) rest)) = Raise e ->
  exists w1, parse_body filesystem utf8_decode json_loads w = (Raise e, w1).
Proof.
  intros Hopen Hn Hdec. unfold parse_body.
  rewrite run_log, run_get_parser.
  erewrite run_open_rb by exact Hopen.
  erewrite run_read by reflexivity.
  match goal with |- context [take 4 (drop 0 ?c)] =>
    change (take 4 (drop 0 c)) with fspy_magic end.
  rewrite run_log, bool_decide_eq_false_2 by (intros H; apply H; reflexivity).
  erewrite run_read by reflexivity.
  match goal with |- context [take 4 (drop ?p ?c)] =>
    change (take 4 (drop p c)) with [v0; v1; v2; v3] end.
  change (unpack_u32_le [v0; v1; v2; v3]) with (Ok (
    Z.of_N (Byte.to_N v0) + 256 * Z.of_N (Byte.to_N v1)
    + 65536 * Z.of_N (Byte.to_N v2) + 16777216 * Z.of_N (Byte.to_N v3))%Z).
  rewrite run_lift_ok, run_log.
  erewrite run_read by reflexivity.
  match goal with |- context [take 4 (drop ?p ?c)] =>
    change (take 4 (drop p c)) with [s0; s1; s2; s3] end.
  rewrite Hn, run_lift_ok, run_log.
  erewrite run_read by reflexivity.
  match goal with |- context [take 4 (drop ?p ?c)] =>
    change (take 4 (drop p c)) with [i0; i1; i2; i3] end.
  change (unpack_u32_le [i0; i1; i2; i3]) with (Ok (
    Z.of_N (Byte.to_N i0) + 256 * Z.of_N (Byte.to_N i1)
    + 65536 * Z.of_N (Byte.to_N i2) + 16777216 * Z.of_N (Byte.to_N i3))%Z).
  rewrite run_lift_ok, run_log.
  erewrite run_read by reflexivity.
  match goal with |- context [take (Z.to_nat n) (drop ?p ?c)] =>
    change (drop p c) with rest end.
  rewrite run_log, Hdec, run_lift_raise. eexists. reflexivity.
Qed.

(** C3. A file whose first four bytes are not [fspy] makes [parse] return
    [False] (it does not raise): the [ValueError] of the magic test is the
    one error reported, the parser object is unchanged, and the read
    position is at most 4, after the bytes of the magic test. *)
Theorem parse_rejects_bad_magic (w : world) (content : bytes) :
  filesystem (filepath (parser w)) = Some content ->
  take 4 content <> fspy_magic ->
  exists w',
    parse filesystem utf8_decode json_loads w = (Ok false, w')
    /\ parser w' = parser w
    /\ contents (fd w') = content
    /\ pos (fd w') = length (take 4 content)
    /\ (pos (fd w') <= 4)%nat
    /\ exists new,
         stdout w' = stdout w ++ new
         /\ (log_enabled w "error" = true ->
             errors new = [MsgParseFailed (ValueError "Invalid fSpy file format")]).
Proof.
  intros Hopen Hmagic.
  destruct (parse_body_bad_magic w content Hopen Hmagic) as (w1 & Hbody & Hfd).
  destruct (parse_of_raise _ _ _ Hbody) as (w' & Hparse & Hp & Hfd' & Hout).
  exists w'. rewrite Hfd', Hfd. cbn [contents pos].
  repeat (split; [first [assumption | reflexivity] |]).
  split; [rewrite length_take; lia | exact Hout].
Qed.


End ParserFacts.

Lemma parse_rejects_bad_magic_witness :
  let fs := one_file "a.fspy" ["f"; "s"; "p"; "x"; "y"]%byte in
  let w := initial_world "a.fspy" in
  exists w',
    parse fs (fun _ => None) (fun _ => None) w = (Ok false, w')
    /\ parser w' = parser w
    /\ contents (fd w') = ["f"; "s"; "p"; "x"; "y"]%byte
    /\ pos (fd w') = 4%nat
    /\ (pos (fd w') <= 4)%nat
    /\ exists new,
         stdout w' = stdout w ++ new
         /\ (log_enabled w "error" = true ->
             errors new = [MsgParseFailed (ValueError "Invalid fSpy file format")]).
Proof.
  intros fs w.
  apply (parse_rejects_bad_magic fs (fun _ => None) (fun _ => None) w
           ["f"; "s"; "p"; "x"; "y"]%byte).
  - reflexivity.
  - discriminate.
Defined.


(** A well-formed container: the state block is stripped of its NUL
    padding and decoded, the image block is kept as it is, and the whole
    file is read. *)
Lemma parse_reads_container :
  let content :=
    (fspy_magic ++ [x01; x00; x00; x00] ++ [x03; x00; x00; x00] ++ [x02; x00; x00; x00]
     ++ ["{"; "}"; x00] ++ [xff; xd8])%byte in
  let decode := fun b : bytes => if decide (b = ["{"; "}"]%byte) then Some "{}" else None in
  let loads := fun s : string => if decide (s = "{}") then Some (JObj ∅) else None in
  exists w',
    parse (one_file "a.fspy" content) decode loads (initial_world "a.fspy") = (Ok true, w')
    /\ state_data (parser w') = JObj ∅
    /\ image_data (parser w') = Some [xff; xd8]
    /\ pos (fd w') = length content
    /\ errors (stdout w') = [].
Proof.
  intros content decode loads. eexists.
  split; [vm_compute; reflexivity |].
  repeat split; vm_compute; reflexivity.
Qed.

(** ** CameraDeriver: the transform *)

Lemma truthy_dict (m : gmap string json) : m <> ∅ -> truthy (JObj m) = true.
Proof.
  intros Hne. simpl. destruct (size m) eqn:Hsize; [| reflexivity].
  apply map_size_empty_iff in Hsize. contradiction.
Qed.

Section CameraTransformFacts.
Variable USE_NUMPY : bool.
Variable np_array : list (list json) -> result (Matrix3x3 json).

Lemma get_camera_transform_returns : returns (get_camera_transform USE_NUMPY np_array).
Proof.
  apply try_except_returns. intros e.
  apply returns_bind; [apply returns_log_message | intros ?; apply returns_ret].
Qed.

Lemma get_camera_transform_of_raise (w w1 : world) (e : exn) :
  get_camera_transform_body USE_NUMPY np_array w = (Raise e, w1) ->
  exists w', get_camera_transform USE_NUMPY np_array w = (Ok None, w').
Proof.
  intros Hbody. unfold get_camera_transform, try_except, mbind at 1, M_bind at 1.
  rewrite Hbody. eexists. reflexivity.
Qed.

Lemma get_camera_transform_of_ok (w w1 : world) (r : list json * Matrix3x3 json) :
  get_camera_transform_body USE_NUMPY np_array w = (Ok r, w1) ->
  get_camera_transform USE_NUMPY np_array w = (Ok (Some r), w1).
Proof.
  intros Hbody. unfold get_camera_transform, try_except, mbind at 1, M_bind at 1.
  rewrite Hbody. reflexivity.
Qed.

(** The body on a state without usable camera parameters. *)
Lemma get_camera_transform_body_falsy (w : world) (st : gmap string json) :
  state_data (parser w) = JObj st ->
  truthy (default (JObj ∅) (st !! "cameraParameters")) = false ->
  get_camera_transform_body USE_NUMPY np_array w
  = (Raise (ValueError "No camera parameters found"), w).
Proof.
  intros Hst Hfalsy. unfold get_camera_transform_body.
  rewrite run_get_parser, Hst. cbn [dict_get].
  rewrite run_lift_ok. cbv beta. rewrite Hfalsy. reflexivity.
Qed.

Hypothesis np_array_numeric : np_array_spec np_array.

Lemma wrap_numeric (d : list (list json)) :
  Forall (fun row => forallb is_number row = true) d ->
  (exists m, Matrix3x3_init d = Ok m) ->
  exists m, (if USE_NUMPY then np_array d else Matrix3x3_init d) = Ok m.
Proof.
  intros Hnum Hinit. destruct USE_NUMPY; [| exact Hinit].
  eexists. apply np_array_numeric, Hnum.
Qed.

(** The body from the rows it reads. *)
Lemma get_camera_transform_body_rows (w : world) (st cp : gmap string json)
    (transform rows : json) (position : list json) (rotation : list (list json))
    (m : Matrix3x3 json) :
  state_data (parser w) = JObj st ->
  st !! "cameraParameters" = Some (JObj cp) ->
  cp <> ∅ ->
  default (JObj ∅) (cp !! "cameraTransform") = transform ->
  dict_get transform "rows" identity_rows = Ok rows ->
  mapM (fun i => row ← subscript rows i; subscript row 3) (range 3) = Ok position ->
  mapM (fun i => mapM (fun j => row ← subscript rows i; subscript row j) (range 3))
       (range 3) = Ok rotation ->
  (if USE_NUMPY then np_array rotation else Matrix3x3_init rotation) = Ok m ->
  exists w1,
    get_camera_transform_body USE_NUMPY np_array w = (Ok (position, m), w1).
Proof.
  intros Hst Hcp Hne Ht Hrows Hpos Hrot Hm. unfold get_camera_transform_body.
  rewrite run_get_parser, Hst. cbn [dict_get]. rewrite Hcp. cbn [default from_option Datatypes.id].
  rewrite run_lift_ok. cbv beta. rewrite truthy_dict by exact Hne. cbn [negb].
  cbn [dict_get]. rewrite Ht, run_lift_ok, run_log. cbv beta.
  rewrite Hrows, run_lift_ok. cbv beta.
  rewrite Hpos, run_lift_ok. cbv beta.
  rewrite Hrot, run_lift_ok. cbv beta.
  rewrite Hm, run_lift_ok, run_log.
  eexists. reflexivity.
Qed.

(** What the body reads from well-formed rows. *)
Lemma read_rows (rows : json) :
  is_rows rows ->
  exists position rotation m,
    mapM (fun i => row ← subscript rows i; subscript row 3) (range 3) = Ok position
    /\ mapM (fun i => mapM (fun j => row ← subscript rows i; subscript row j) (range 3))
           (range 3) = Ok rotation
    /\ Forall (fun row => forallb is_number row = true) rotation
    /\ Matrix3x3_init rotation = Ok m.
Proof.
  intros (l & -> & Hlen & Hrows).
  destruct l as [| r0 [| r1 [| r2 l']]]; simpl in Hlen; try lia.
  cbn [take] in Hrows.
  inversion Hrows as [| ? ? (a0 & -> & Hl0 & Hn0) Hrows1]; subst.
  inversion Hrows1 as [| ? ? (a1 & -> & Hl1 & Hn1) Hrows2]; subst.
  inversion Hrows2 as [| ? ? (a2 & -> & Hl2 & Hn2) _]; subst.
  destruct a0 as [| x0 [| x1 [| x2 [| x3 a0']]]]; simpl in Hl0; try lia.
  destruct a1 as [| y0 [| y1 [| y2 [| y3 a1']]]]; simpl in Hl1; try lia.
  destruct a2 as [| z0 [| z1 [| z2 [| z3 a2']]]]; simpl in Hl2; try lia.
  cbn [forallb] in Hn0, Hn1, Hn2.
  repeat match goal with
         | H : _ && _ = true |- _ => apply andb_prop in H; destruct H
         end.
  eexists _, _, _. split; [reflexivity |]. split; [reflexivity |].
  split; [| reflexivity].
  repeat constructor; cbn [forallb];
    repeat match goal with H : is_number _ = true |- _ => rewrite H; clear H end;
    reflexivity.
Qed.

(** C5. When [cameraParameters] is a non-empty mapping and
    [cameraTransform.rows] is absent, [get_camera_transform] returns the
    position [(0, 0, 0)] and the 3x3 identity. *)
Theorem get_camera_transform_default (w : world) (st cp : gmap string json) :
  state_data (parser w) = JObj st ->
  st !! "cameraParameters" = Some (JObj cp) ->
  cp <> ∅ ->
  rows_absent cp ->
  exists w',
    get_camera_transform USE_NUMPY np_array w
    = (Ok (Some ([JInt 0; JInt 0; JInt 0], {| data := identity3 |})), w').
Proof.
  intros Hst Hcp Hne Habs.
  assert (Hrows : dict_get (default (JObj ∅) (cp !! "cameraTransform")) "rows"
                    identity_rows = Ok identity_rows).
  { unfold rows_absent in Habs.
    destruct (cp !! "cameraTransform") as [t |]; [| reflexivity].
    destruct Habs as (tm & -> & Hnone). cbn. rewrite Hnone. reflexivity. }
  destruct (get_camera_transform_body_rows w st cp _ identity_rows
              [JInt 0; JInt 0; JInt 0] identity3 {| data := identity3 |}
              Hst Hcp Hne eq_refl Hrows eq_refl eq_refl) as (w1 & Hbody).
  - destruct USE_NUMPY; [| reflexivity].
    apply np_array_numeric. repeat constructor.
  - exists w1. apply get_camera_transform_of_ok, Hbody.
Qed.

(** C6, as amended. [get_camera_transform] never raises.  It fails when
    [cameraParameters] is absent and also when it is present but empty or
    otherwise false; it succeeds when [cameraParameters] is a non-empty
    mapping whose [cameraTransform] is absent or is a mapping whose [rows]
    is absent or well formed. *)
Theorem get_camera_transform_failure (w : world) (st : gmap string json) :
  state_data (parser w) = JObj st ->
  (exists r w', get_camera_transform USE_NUMPY np_array w = (Ok r, w'))
  /\ (st !! "cameraParameters" = None ->
      exists w', get_camera_transform USE_NUMPY np_array w = (Ok None, w'))
  /\ (forall v, st !! "cameraParameters" = Some v -> truthy v = false ->
      exists w', get_camera_transform USE_NUMPY np_array w = (Ok None, w'))
  /\ (forall cp, st !! "cameraParameters" = Some (JObj cp) -> cp <> ∅ ->
      transform_ok cp ->
      exists r w', get_camera_transform USE_NUMPY np_array w = (Ok (Some r), w')).
Proof.
  intros Hst. split; [apply get_camera_transform_returns |].
  split; [| split].
  - intros Hnone.
    eapply get_camera_transform_of_raise, get_camera_transform_body_falsy;
      [exact Hst | rewrite Hnone; reflexivity].
  - intros v Hv Hfalsy.
    eapply get_camera_transform_of_raise, get_camera_transform_body_falsy;
      [exact Hst | rewrite Hv; exact Hfalsy].
  - intros cp Hcp Hne Hok.
    assert (Hrows : exists rows,
               dict_get (default (JObj ∅) (cp !! "cameraTransform")) "rows"
                 identity_rows = Ok rows /\ is_rows rows).
    { unfold transform_ok in Hok.
      destruct (cp !! "cameraTransform") as [t |].
      - destruct Hok as (tm & -> & Hr). cbn.
        destruct (tm !! "rows") as [rows |]; [exists rows; split; [reflexivity | exact Hr] |].
        exists identity_rows. split; [reflexivity |].
        eexists. split; [reflexivity |]. split; [simpl; lia |].
        repeat constructor; eexists; (split; [reflexivity |]); split;
          first [simpl; lia | reflexivity].
      - exists identity_rows. split; [reflexivity |].
        eexists. split; [reflexivity |]. split; [simpl; lia |].
        repeat constructor; eexists; (split; [reflexivity |]); split;
          first [simpl; lia | reflexivity]. }
    destruct Hrows as (rows & Hget & Hwf).
    destruct (read_rows rows Hwf) as (position & rotation & m & Hpos & Hrot & Hnum & Hinit).
    destruct (wrap_numeric rotation Hnum (ex_intro _ m Hinit)) as (m' & Hm').
    destruct (get_camera_transform_body_rows w st cp _ rows position rotation m'
                Hst Hcp Hne eq_refl Hget Hpos Hrot Hm') as (w1 & Hbody).
    eexists _, w1. apply get_camera_transform_of_ok, Hbody.
Qed.

End CameraTransformFacts.

Lemma np_array_any_spec : np_array_spec np_array_any.
Proof. intros d _. reflexivity. Qed.

Lemma get_camera_transform_default_witness :
  let cp : gmap string json := <["imageWidth" := JInt 1920]> ∅ in
  let st : gmap string json := <["cameraParameters" := JObj cp]> ∅ in
  exists w',
    get_camera_transform false np_array_any (world_with_state (JObj st))
    = (Ok (Some ([JInt 0; JInt 0; JInt 0], {| data := identity3 |})), w').
Proof.
  intros cp st.
  apply (get_camera_transform_default false np_array_any np_array_any_spec
           (world_with_state (JObj st)) st cp).
  - reflexivity.
  - reflexivity.
  - apply insert_non_empty.
  - vm_compute. exact I.
Defined.

(** C6, counterexample: with [cameraParameters] present but empty the
    derivation fails although the key is not absent. *)
Lemma derivation_fails_on_empty_parameters :
  ~ derivation_claim false np_array_any
      (world_with_state (JObj (<["cameraParameters" := JObj ∅]> ∅))).
Proof.
  intros Hclaim.
  specialize (Hclaim (<["cameraParameters" := JObj ∅]> ∅) eq_refl).
  destruct Hclaim as [Hfail _].
  assert (Hnone : (<["cameraParameters" := JObj ∅]> ∅ : gmap string json)
                  !! "cameraParameters" = None).
  { apply Hfail.
    eapply get_camera_transform_of_raise, get_camera_transform_body_falsy;
      reflexivity. }
  rewrite lookup_insert_eq in Hnone. discriminate.
Qed.

Lemma get_camera_transform_failure_witness :
  let cp : gmap string json := <["imageWidth" := JInt 1920]> ∅ in
  let st : gmap string json := <["cameraParameters" := JObj cp]> ∅ in
  let w := world_with_state (JObj st) in
  (exists r w', get_camera_transform false np_array_any w = (Ok r, w'))
  /\ (st !! "cameraParameters" = None ->
      exists w', get_camera_transform false np_array_any w = (Ok None, w'))
  /\ (forall v, st !! "cameraParameters" = Some v -> truthy v = false ->
      exists w', get_camera_transform false np_array_any w = (Ok None, w'))
  /\ (forall cp, st !! "cameraParameters" = Some (JObj cp) -> cp <> ∅ ->
      transform_ok cp ->
      exists r w', get_camera_transform false np_array_any w = (Ok (Some r), w')).
Proof.
  intros cp st w.
  apply (get_camera_transform_failure false np_array_any np_array_any_spec w st).
  reflexivity.
Defined.


(** With [cameraParameters] present and non-empty the derivation still
    fails when [rows] is too short: the [IndexError] is caught. *)
Lemma derivation_fails_on_short_rows :
  let transform : gmap string json := <["rows" := JArr []]> ∅ in
  let cp : gmap string json := <["cameraTransform" := JObj transform]> ∅ in
  let st : gmap string json := <["cameraParameters" := JObj cp]> ∅ in
  exists w',
    get_camera_transform false np_array_any (world_with_state (JObj st)) = (Ok None, w')
    /\ errors (stdout w') = [MsgTransformFailed IndexError].
Proof.
  intros transform cp st. eexists. split.
  - vm_compute. reflexivity.
  - vm_compute. reflexivity.
Qed.

(** ** CameraDeriver: the intrinsics *)

(** ** Steps of the scene *)

Lemma scene_step_same (P : scene_op -> Prop) (w w' : world) :
  scene w' = scene w -> scene_step P w w'.
Proof. intros H. exists []. split; [rewrite app_nil_r; exact H | constructor]. Qed.

Lemma scene_step_refl (P : scene_op -> Prop) (w : world) : scene_step P w w.
Proof. apply scene_step_same. reflexivity. Qed.

Lemma scene_step_trans (P : scene_op -> Prop) (w1 w2 w3 : world) :
  scene_step P w1 w2 -> scene_step P w2 w3 -> scene_step P w1 w3.
Proof.
  intros (o1 & H1 & F1) (o2 & H2 & F2). exists (o1 ++ o2). split.
  - rewrite H2, H1, app_assoc. reflexivity.
  - apply Forall_app. split; assumption.
Qed.

Lemma scene_log_message (P : scene_op -> Prop) (msg : message) (level : string) :
  always (scene_step P) (log_message msg level).
Proof. intros w r w' H. injection H as <- <-. apply scene_step_same. reflexivity. Qed.

Lemma scene_setAttr (P : scene_op -> Prop) (node attr : string) (v : R) :
  P (SetAttr node attr v) -> always (scene_step P) (setAttr node attr v).
Proof.
  intros HP w r w' H. injection H as <- <-.
  eexists. split; [reflexivity | repeat constructor; exact HP].
Qed.

Lemma scene_setAttr_lock (P : scene_op -> Prop) (node attr : string) :
  P (LockAttr node attr) -> always (scene_step P) (setAttr_lock node attr).
Proof.
  intros HP w r w' H. injection H as <- <-.
  eexists. split; [reflexivity | repeat constructor; exact HP].
Qed.

Ltac scene_side :=
  cbn;
  try solve [ exact I | discriminate | intros []
            | split; solve [discriminate | intros []] ].

Ltac scene_steps :=
  repeat
    lazymatch goal with
    | |- always (scene_step _) (lift _ ≫= _) =>
        apply (always_bind_lift _ (scene_step_refl _)); intros ? ?
    | |- always (scene_step _) (log_message _ _ ≫= _) =>
        apply (always_bind _ (scene_step_trans _)); [apply scene_log_message | intros ?]
    | |- always (scene_step _) (setAttr _ _ _ ≫= _) =>
        apply (always_bind _ (scene_step_trans _));
        [apply scene_setAttr; scene_side | intros ?]
    | |- always (scene_step _) (setAttr_lock _ _ ≫= _) =>
        apply (always_bind _ (scene_step_trans _));
        [apply scene_setAttr_lock; scene_side | intros ?]
    | |- always (scene_step _) (log_message _ _) => apply scene_log_message
    | |- always (scene_step _) (mret _) => apply always_ret, scene_step_refl
    end.

Section Intrinsics.
Local Open Scope R_scope.
Variable float_of_string : string -> option R.
Variables camera camera_shape : string.

Lemma truediv_ok (a b : R) : b <> 0 -> truediv a b = Ok (a / b).
Proof. intros Hb. unfold truediv. destruct (decide (b = 0)); [contradiction | reflexivity]. Qed.

(** The run of the camera-property block up to the film back. *)
Lemma import_camera_film_back (m : gmap string json) (iw ih : R) (w : world) :
  m <> ∅ ->
  float float_of_string (default (JInt 1920) (m !! "imageWidth")) = Ok iw ->
  float float_of_string (default (JInt 1080) (m !! "imageHeight")) = Ok ih ->
  iw <> 0 -> ih <> 0 ->
  exists w2,
    scene w2 = scene w ++
      [SetAttr camera_shape "horizontalFilmAperture" (36 * 0.0393701);
       SetAttr camera_shape "verticalFilmAperture" (36 / (iw / ih) * 0.0393701)]
    /\ import_camera_properties float_of_string camera camera_shape (JObj m) w
       = after_film_back float_of_string camera camera_shape (JObj m)
           36 (36 / (iw / ih)) 0.0393701 w2.
Proof.
  intros Hne Hw Hh Hiw Hih. unfold import_camera_properties.
  rewrite truthy_dict by exact Hne. cbn [dict_get].
  rewrite run_lift_ok. cbv beta. rewrite Hw, run_lift_ok, run_lift_ok. cbv beta.
  rewrite Hh, run_lift_ok. cbv beta.
  rewrite (truediv_ok iw ih Hih), run_lift_ok. cbv beta.
  rewrite truediv_ok, run_lift_ok.
  2:{ intros H0. apply Rmult_integral in H0. destruct H0 as [H0 | H0]; [lra |].
      revert H0. apply Rinv_neq_0_compat. exact Hih. }
  cbv beta zeta.
  replace 36.0 with 36 by lra.
  rewrite run_setAttr, run_setAttr, run_log.
  eexists. split; [| reflexivity].
  cbn [scene set_scene set_stdout]. rewrite <- app_assoc. reflexivity.
Qed.

(** Without a field of view the block writes no focal length. *)
Lemma after_film_back_keeps_focal_length (m : gmap string json) (h v k : R) :
  m !! "horizontalFieldOfView" = None ->
  always (scene_step keeps_focal_length)
    (after_film_back float_of_string camera camera_shape (JObj m) h v k).
Proof.
  intros Hfov. unfold after_film_back.
  apply (always_bind _ (scene_step_trans _)).
  - unfold film_offset_block. scene_steps.
    match goal with |- context [if ?c then _ else _] => destruct c end;
      unfold keeps_focal_length; scene_steps.
  - intros _. unfold after_film_offset, keeps_focal_length. scene_steps.
    unfold focal_length_block. cbn [dict_get]. rewrite Hfov. cbn [default from_option].
    scene_steps. subst. injection H as <-. scene_steps.
Qed.

(** With [principalPoint] a mapping the block writes no film offset. *)
Lemma after_film_back_keeps_film_offset (m pm : gmap string json) (h v k : R) :
  m !! "principalPoint" = Some (JObj pm) ->
  always (scene_step keeps_film_offset)
    (after_film_back float_of_string camera camera_shape (JObj m) h v k).
Proof.
  intros Hpp. unfold after_film_back.
  apply (always_bind _ (scene_step_trans _)).
  - unfold film_offset_block. cbn [dict_get]. rewrite Hpp.
    cbn [default from_option Datatypes.id].
    scene_steps. injection H as <-. cbn [is_list andb]. scene_steps.
  - intros _. unfold after_film_offset, keeps_film_offset. scene_steps.
    unfold focal_length_block. scene_steps.
    destruct a1; scene_steps.
Qed.

(** With a [principalPoint] that is not a list of two elements the
    block writes no film offset. *)
Lemma after_film_back_without_pair (m : gmap string json) (pp : json) (h v k : R) :
  m !! "principalPoint" = Some pp ->
  is_list pp && Nat.eqb (len pp) 2 = false ->
  always (scene_step keeps_film_offset)
    (after_film_back float_of_string camera camera_shape (JObj m) h v k).
Proof.
  intros Hpp Hguard. unfold after_film_back.
  apply (always_bind _ (scene_step_trans _)).
  - unfold film_offset_block. cbn [dict_get]. rewrite Hpp.
    cbn [default from_option Datatypes.id].
    scene_steps. injection H as <-. rewrite Hguard. scene_steps.
  - intros _. unfold after_film_offset, keeps_film_offset. scene_steps.
    unfold focal_length_block. scene_steps.
    destruct a1; scene_steps.
Qed.

(** Every run of what follows the film offset extends the scene. *)
Lemma after_film_offset_extends (params : json) (h : R) :
  always (scene_step (fun _ => True))
    (after_film_offset camera camera_shape params h).
Proof.
  unfold after_film_offset, focal_length_block. scene_steps. destruct a1; scene_steps.
Qed.

(** The run of the film-offset statements on a two-element list. *)
Lemma film_offset_block_pair (m : gmap string json) (p0 p1 : json) (px py h v k : R)
    (w : world) :
  m !! "principalPoint" = Some (JArr [p0; p1]) ->
  float float_of_string p0 = Ok px ->
  float float_of_string p1 = Ok py ->
  exists w3,
    film_offset_block float_of_string camera_shape (JObj m) h v k w = (Ok tt, w3)
    /\ scene w3 = scene w ++
         [SetAttr camera_shape "horizontalFilmOffset" (px * h * k);
          SetAttr camera_shape "verticalFilmOffset" (py * v * k)].
Proof.
  intros Hpp H0 H1. unfold film_offset_block. cbn [dict_get]. rewrite Hpp.
  cbn [default from_option Datatypes.id].
  rewrite run_lift_ok. cbv beta. cbn [is_list len length Nat.eqb andb subscript].
  change (index [p0; p1] 0) with (Ok p0). change (index [p0; p1] 1) with (Ok p1).
  rewrite run_lift_ok. cbv beta. rewrite H0, run_lift_ok. cbv beta zeta.
  rewrite run_lift_ok. cbv beta. rewrite H1, run_lift_ok. cbv beta zeta.
  rewrite run_setAttr, run_setAttr.
  eexists. split; [reflexivity |].
  cbn [scene set_scene set_stdout]. rewrite <- app_assoc. reflexivity.
Qed.

(** The run of the film-offset statements without a [principalPoint]:
    the default is the list [[0, 0]]. *)
Lemma film_offset_block_default (m : gmap string json) (h v k : R) (w : world) :
  m !! "principalPoint" = None ->
  exists w3,
    film_offset_block float_of_string camera_shape (JObj m) h v k w = (Ok tt, w3)
    /\ scene w3 = scene w ++
         [SetAttr camera_shape "horizontalFilmOffset" (0 * h * k);
          SetAttr camera_shape "verticalFilmOffset" (0 * v * k)].
Proof.
  intros Hpp. unfold film_offset_block. cbn [dict_get]. rewrite Hpp.
  cbn [default from_option Datatypes.id].
  rewrite run_lift_ok. cbv beta. cbn [is_list len length Nat.eqb andb subscript].
  change (index [JInt 0; JInt 0] 0) with (Ok (JInt 0)).
  change (index [JInt 0; JInt 0] 1) with (Ok (JInt 0)).
  rewrite run_lift_ok. cbv beta.
  change (float float_of_string (JInt 0)) with (@Ok R 0).
  rewrite run_lift_ok. cbv beta zeta.
  rewrite run_lift_ok. cbv beta.
  change (float float_of_string (JInt 0)) with (@Ok R 0).
  rewrite run_lift_ok. cbv beta zeta.
  rewrite run_setAttr, run_setAttr.
  eexists. split; [reflexivity |].
  cbn [scene set_scene set_stdout]. rewrite <- app_assoc. reflexivity.
Qed.

(** C7. With [imageWidth] 1920, [imageHeight] 1080 and no
    [horizontalFieldOfView]: the film back written to the camera is
    [36 * 0.0393701] by [(36 / (1920 / 1080)) * 0.0393701] inches, about
    1.4173 by 0.7972; no focal length is written; the focal length shown
    in the panel is 35.0. *)
Theorem intrinsics_of_full_hd (m : gmap string json) (wv hv : json) (w : world) :
  m !! "imageWidth" = Some wv -> float float_of_string wv = Ok 1920 ->
  m !! "imageHeight" = Some hv -> float float_of_string hv = Ok 1080 ->
  m !! "horizontalFieldOfView" = None ->
  (exists r w' ops,
     import_camera_properties float_of_string camera camera_shape (JObj m) w = (r, w')
     /\ scene w' = scene w ++
          [SetAttr camera_shape "horizontalFilmAperture" (36 * 0.0393701);
           SetAttr camera_shape "verticalFilmAperture" (36 / (1920 / 1080) * 0.0393701)]
          ++ ops
     /\ Forall keeps_focal_length ops)
  /\ Rabs (36 * 0.0393701 - 1.4173) < 0.00005
  /\ Rabs (36 / (1920 / 1080) * 0.0393701 - 0.7972) < 0.00005
  /\ info_fov float_of_string (JObj m) = Ok (JNull, [])
  /\ info_focal_length JNull = Ok [InfoFocalLength 35.0].
Proof.
  intros Hw Hwf Hh Hhf Hfov.
  assert (Hne : m <> ∅).
  { intros ->. rewrite lookup_empty in Hw. discriminate. }
  split; [| split; [| split; [| split]]].
  - destruct (import_camera_film_back m 1920 1080 w Hne) as (w2 & Hscene & Hrun);
      [rewrite Hw; exact Hwf | rewrite Hh; exact Hhf | lra | lra |].
    destruct (after_film_back float_of_string camera camera_shape (JObj m)
                36 (36 / (1920 / 1080)) 0.0393701 w2) as [r w'] eqn:Htail.
    destruct (after_film_back_keeps_focal_length m _ _ _ Hfov _ _ _ Htail)
      as (ops & Hops & Hkeep).
    exists r, w', ops. split; [exact Hrun |]. split; [| exact Hkeep].
    rewrite Hops, Hscene, <- app_assoc. reflexivity.
  - rewrite Rabs_right; lra.
  - rewrite Rabs_right; lra.
  - unfold info_fov. cbn [dict_get]. rewrite Hfov. reflexivity.
  - reflexivity.
Qed.

(** C8, as amended. The camera-property block computes the film offsets
    only from a [principalPoint] that is a two-element list, as
    [principalPoint[0] * 36 * 0.0393701] and
    [principalPoint[1] * vert_aperture_mm * 0.0393701]; from a mapping it
    writes no film offset, and from no other value either: not from a
    list of another length, not from a value that is not a list.  An
    absent [principalPoint] is the list [[0, 0]].  The panel shows a
    [principalPoint] only when it is a mapping (an absent one is the
    mapping of zeros), and computes no offset. *)
Theorem film_offsets_by_form (m : gmap string json) (iw ih : R) (w : world) :
  m <> ∅ ->
  float float_of_string (default (JInt 1920) (m !! "imageWidth")) = Ok iw ->
  float float_of_string (default (JInt 1080) (m !! "imageHeight")) = Ok ih ->
  iw <> 0 -> ih <> 0 ->
  let vert_aperture_mm := 36 / (iw / ih) in
  let film_back :=
    [SetAttr camera_shape "horizontalFilmAperture" (36 * 0.0393701);
     SetAttr camera_shape "verticalFilmAperture" (vert_aperture_mm * 0.0393701)] in
  (forall p0 p1 px py,
     m !! "principalPoint" = Some (JArr [p0; p1]) ->
     float float_of_string p0 = Ok px -> float float_of_string p1 = Ok py ->
     exists r w' ops,
       import_camera_properties float_of_string camera camera_shape (JObj m) w = (r, w')
       /\ scene w' = scene w ++ film_back ++
            [SetAttr camera_shape "horizontalFilmOffset" (px * 36 * 0.0393701);
             SetAttr camera_shape "verticalFilmOffset"
               (py * vert_aperture_mm * 0.0393701)] ++ ops)
  /\ (forall pm,
       m !! "principalPoint" = Some (JObj pm) ->
       exists r w' ops,
         import_camera_properties float_of_string camera camera_shape (JObj m) w = (r, w')
         /\ scene w' = scene w ++ film_back ++ ops
         /\ Forall keeps_film_offset ops)
  /\ (forall pm x y,
       m !! "principalPoint" = Some (JObj pm) ->
       format_3f (default (JInt 0) (pm !! "x")) = Ok x ->
       format_3f (default (JInt 0) (pm !! "y")) = Ok y ->
       info_principal_point (JObj m) = Ok [InfoPrincipalPoint x y])
  /\ (forall l,
       m !! "principalPoint" = Some (JArr l) -> info_principal_point (JObj m) = Ok [])
  /\ (forall pp,
       m !! "principalPoint" = Some pp ->
       is_list pp && Nat.eqb (len pp) 2 = false ->
       exists r w' ops,
         import_camera_properties float_of_string camera camera_shape (JObj m) w = (r, w')
         /\ scene w' = scene w ++ film_back ++ ops
         /\ Forall keeps_film_offset ops)
  /\ (m !! "principalPoint" = None ->
      exists r w' ops,
        import_camera_properties float_of_string camera camera_shape (JObj m) w = (r, w')
        /\ scene w' = scene w ++ film_back ++
             [SetAttr camera_shape "horizontalFilmOffset" (0 * 36 * 0.0393701);
              SetAttr camera_shape "verticalFilmOffset"
                (0 * vert_aperture_mm * 0.0393701)] ++ ops)
  /\ (forall pp,
       m !! "principalPoint" = Some pp -> is_dict pp = false ->
       info_principal_point (JObj m) = Ok [])
  /\ (m !! "principalPoint" = None ->
      info_principal_point (JObj m) = Ok [InfoPrincipalPoint 0 0]).
Proof.
  intros Hne Hw Hh Hiw Hih vert film_back.
  destruct (import_camera_film_back m iw ih w Hne Hw Hh Hiw Hih) as (w2 & Hscene & Hrun).
  split; [| split; [| split; [| split; [| split; [| split; [| split]]]]]].
  - intros p0 p1 px py Hpp H0 H1.
    destruct (film_offset_block_pair m p0 p1 px py 36 vert 0.0393701 w2 Hpp H0 H1)
      as (w3 & Hblock & Hscene3).
    rewrite Hrun. unfold after_film_back. rewrite (bind_ok _ _ _ _ _ Hblock).
    match goal with |- context [?tail w3 = _] =>
      destruct (tail w3) as [r w'] eqn:Htail end.
    destruct (after_film_offset_extends _ _ _ _ _ Htail) as (ops & Hops & _).
    exists r, w', ops. split; [reflexivity |].
    rewrite Hops, Hscene3, Hscene. unfold film_back. rewrite <- !app_assoc. reflexivity.
  - intros pm Hpp. rewrite Hrun.
    destruct (after_film_back float_of_string camera camera_shape (JObj m)
                36 vert 0.0393701 w2) as [r w'] eqn:Htail.
    destruct (after_film_back_keeps_film_offset m pm _ _ _ Hpp _ _ _ Htail)
      as (ops & Hops & Hkeep).
    exists r, w', ops. split; [exact Htail |]. split; [| exact Hkeep].
    rewrite Hops, Hscene. unfold film_back. rewrite <- app_assoc. reflexivity.
  - intros pm x y Hpp Hx Hy. unfold info_principal_point. cbn [dict_get].
    rewrite Hpp. cbn [default from_option Datatypes.id mbind result_bind is_dict dict_get].
    cbn [default from_option Datatypes.id] in Hx, Hy.
    rewrite Hx. cbn [mbind result_bind]. rewrite Hy. reflexivity.
  - intros l Hpp. unfold info_principal_point. cbn [dict_get]. rewrite Hpp. reflexivity.
  - intros pp Hpp Hguard. rewrite Hrun.
    destruct (after_film_back float_of_string camera camera_shape (JObj m)
                36 vert 0.0393701 w2) as [r w'] eqn:Htail.
    destruct (after_film_back_without_pair m pp _ _ _ Hpp Hguard _ _ _ Htail)
      as (ops & Hops & Hkeep).
    exists r, w', ops. split; [exact Htail |]. split; [| exact Hkeep].
    rewrite Hops, Hscene. unfold film_back. rewrite <- app_assoc. reflexivity.
  - intros Hnone.
    destruct (film_offset_block_default m 36 vert 0.0393701 w2 Hnone)
      as (w3 & Hblock & Hscene3).
    rewrite Hrun. unfold after_film_back. rewrite (bind_ok _ _ _ _ _ Hblock).
    match goal with |- context [?tail w3 = _] =>
      destruct (tail w3) as [r w'] eqn:Htail end.
    destruct (after_film_offset_extends _ _ _ _ _ Htail) as (ops & Hops & _).
    exists r, w', ops. split; [reflexivity |].
    rewrite Hops, Hscene3, Hscene. unfold film_back. rewrite <- !app_assoc. reflexivity.
  - intros pp Hpp Hnd. unfold info_principal_point. cbn [dict_get]. rewrite Hpp.
    cbn [default from_option Datatypes.id mbind result_bind]. rewrite Hnd. reflexivity.
  - intros Hnone. unfold info_principal_point. cbn [dict_get]. rewrite Hnone. reflexivity.
Qed.

Lemma int_of_float_IZR (n : Z) : (0 <= n)%Z -> int_of_float (IZR n) = n.
Proof.
  intros Hn. unfold int_of_float.
  destruct (decide (0 <= IZR n)) as [_ | Hneg].
  - symmetry. apply Int_part_spec. lra.
  - exfalso. apply Hneg. apply IZR_le in Hn. exact Hn.
Qed.

(** The image-size lines of the panel when [imageHeight] is absent. *)
Lemma info_image_size_without_height (m : gmap string json) (iw : R) :
  m !! "imageHeight" = None ->
  float float_of_string (default (JInt 1920) (m !! "imageWidth")) = Ok iw ->
  info_image_size float_of_string (JObj m)
  = Ok [InfoImageSize (int_of_float iw) 1920; InfoAspectRatio (iw / 1920)].
Proof.
  intros Hh Hw. unfold info_image_size. cbn [dict_get mbind result_bind].
  rewrite Hw, Hh. cbn [mbind result_bind default from_option Datatypes.id float].
  rewrite truediv_ok by lra. rewrite (int_of_float_IZR 1920) by lia. reflexivity.
Qed.

(** The panel that [update_camera_info] sets for the parameters
    [{"imageWidth": 1920}] of a state without calibration settings. *)
Lemma update_camera_info_without_height (USE_NUMPY : bool)
    (np_Number : Matrix3x3 json -> Number json) :
  let m : gmap string json := <["imageWidth" := JInt 1920]> ∅ in
  let st : gmap string json := <["cameraParameters" := JObj m]> ∅ in
  exists w',
    update_camera_info USE_NUMPY np_Number float_of_string (JObj m) None
      (world_with_state (JObj st)) = (Ok tt, w')
    /\ info_text w'
       = Some [InfoFile "a.fspy";
               InfoImageSize 1920 1920; InfoAspectRatio (1920 / 1920);
               InfoFocalLength 35.0;
               InfoPrincipalPoint 0 0;
               InfoUnit (JStr "Meters")].
Proof.
  intros m st. unfold update_camera_info, try_except, update_camera_info_body.
  rewrite run_get_parser.
  rewrite (info_image_size_without_height m 1920 eq_refl eq_refl), run_lift_ok.
  rewrite (int_of_float_IZR 1920) by lia.
  change (info_fov float_of_string (JObj m)) with (@Ok (json * list info_line) (JNull, [])).
  rewrite run_lift_ok. cbv beta iota.
  change (info_transform USE_NUMPY np_Number None) with (@Ok (list info_line) []).
  rewrite run_lift_ok.
  change (info_focal_length JNull) with (Ok [InfoFocalLength 35.0]).
  rewrite run_lift_ok.
  change (info_principal_point (JObj m)) with (Ok [InfoPrincipalPoint (IZR 0) (IZR 0)]).
  rewrite run_lift_ok.
  change (info_unit (state_data (parser (world_with_state (JObj st)))))
    with (Ok [InfoUnit (JStr "Meters")]).
  rewrite run_lift_ok.
  eexists. split; reflexivity.
Qed.

(** C9. With [imageHeight] absent the two call sites disagree: the panel
    takes the height as 1920, the camera-property block as 1080. *)
Theorem image_height_defaults_disagree (m : gmap string json) (iw : R) (w : world) :
  m <> ∅ ->
  m !! "imageHeight" = None ->
  float float_of_string (default (JInt 1920) (m !! "imageWidth")) = Ok iw ->
  iw <> 0 ->
  info_image_size float_of_string (JObj m)
  = Ok [InfoImageSize (int_of_float iw) 1920; InfoAspectRatio (iw / 1920)]
  /\ exists w2,
      scene w2 = scene w ++
        [SetAttr camera_shape "horizontalFilmAperture" (36 * 0.0393701);
         SetAttr camera_shape "verticalFilmAperture" (36 / (iw / 1080) * 0.0393701)]
      /\ import_camera_properties float_of_string camera camera_shape (JObj m) w
         = after_film_back float_of_string camera camera_shape (JObj m)
             36 (36 / (iw / 1080)) 0.0393701 w2.
Proof.
  intros Hne Hh Hw Hiw. split.
  - apply info_image_size_without_height; assumption.
  - apply (import_camera_film_back m iw 1080 w Hne Hw); [| exact Hiw | lra].
    rewrite Hh. reflexivity.
Qed.

End Intrinsics.


Lemma intrinsics_of_full_hd_witness :
  let m : gmap string json :=
    <["imageWidth" := JInt 1920]> (<["imageHeight" := JInt 1080]> ∅) in
  let w := initial_world "a.fspy" in
  (exists r w' ops,
     import_camera_properties (fun _ => None) "camera1" "cameraShape1" (JObj m) w = (r, w')
     /\ scene w' = scene w ++
          [SetAttr "cameraShape1" "horizontalFilmAperture" (36 * 0.0393701);
           SetAttr "cameraShape1" "verticalFilmAperture" (36 / (1920 / 1080) * 0.0393701)]
          ++ ops
     /\ Forall keeps_focal_length ops)
  /\ (Rabs (36 * 0.0393701 - 1.4173) < 0.00005)%R
  /\ (Rabs (36 / (1920 / 1080) * 0.0393701 - 0.7972) < 0.00005)%R
  /\ info_fov (fun _ => None) (JObj m) = Ok (JNull, [])
  /\ info_focal_length JNull = Ok [InfoFocalLength 35.0].
Proof.
  intros m w.
  apply (intrinsics_of_full_hd (fun _ => None) "camera1" "cameraShape1" m
           (JInt 1920) (JInt 1080) w); reflexivity.
Defined.

Lemma film_offsets_by_form_witness :
  let m : gmap string json :=
    <["principalPoint" := JArr [JFloat 0.25; JFloat 0.5]]> ∅ in
  let w := initial_world "a.fspy" in
  exists r w' ops,
    import_camera_properties (fun _ => None) "camera1" "cameraShape1" (JObj m) w = (r, w')
    /\ scene w' = scene w ++
         [SetAttr "cameraShape1" "horizontalFilmAperture" (36 * 0.0393701);
          SetAttr "cameraShape1" "verticalFilmAperture" (36 / (1920 / 1080) * 0.0393701)]
         ++ [SetAttr "cameraShape1" "horizontalFilmOffset" (0.25 * 36 * 0.0393701);
             SetAttr "cameraShape1" "verticalFilmOffset"
               (0.5 * (36 / (1920 / 1080)) * 0.0393701)] ++ ops.
Proof.
  intros m w.
  assert (Hw : (1920 <> 0)%R) by lra.
  assert (Hh : (1080 <> 0)%R) by lra.
  exact (proj1 (film_offsets_by_form (fun _ => None) "camera1" "cameraShape1" m
                  1920 1080 w (insert_non_empty _ _ _) eq_refl eq_refl Hw Hh)
           (JFloat 0.25) (JFloat 0.5) 0.25%R 0.5%R eq_refl eq_refl eq_refl).
Defined.

Lemma image_height_defaults_disagree_witness :
  let m : gmap string json := <["imageWidth" := JInt 1920]> ∅ in
  let w := initial_world "a.fspy" in
  info_image_size (fun _ => None) (JObj m)
  = Ok [InfoImageSize (int_of_float 1920) 1920; InfoAspectRatio (1920 / 1920)]
  /\ exists w2,
      scene w2 = scene w ++
        [SetAttr "cameraShape1" "horizontalFilmAperture" (36 * 0.0393701);
         SetAttr "cameraShape1" "verticalFilmAperture" (36 / (1920 / 1080) * 0.0393701)]
      /\ import_camera_properties (fun _ => None) "camera1" "cameraShape1" (JObj m) w
         = after_film_back (fun _ => None) "camera1" "cameraShape1" (JObj m)
             36 (36 / (1920 / 1080)) 0.0393701 w2.
Proof.
  intros m w.
  assert (Hw : (1920 <> 0)%R) by lra.
  exact (image_height_defaults_disagree (fun _ => None) "camera1" "cameraShape1" m
           1920 w (insert_non_empty _ _ _) eq_refl eq_refl Hw).
Defined.

(** C8, counterexample: from a [principalPoint] given as a mapping the
    camera-property block writes no film offset. *)
Lemma no_film_offset_from_mapping :
  ~ film_offset_claim (fun _ => None) "camera1" "cameraShape1"
      (<["principalPoint" := JObj (<["x" := JFloat 0.25]> (<["y" := JFloat 0.5]> ∅))]> ∅)
      (initial_world "a.fspy").
Proof.
  set (pm := (<["x" := JFloat 0.25]> (<["y" := JFloat 0.5]> ∅) : gmap string json)).
  set (m := (<["principalPoint" := JObj pm]> ∅ : gmap string json)).
  intros Hclaim.
  destruct (Hclaim (JObj pm) 0.25%R 0.5%R eq_refl eq_refl)
    as (r & w' & vert & Hrun & _ & Hoff & _).
  assert (Hw : (1920 <> 0)%R) by lra.
  assert (Hh : (1080 <> 0)%R) by lra.
  destruct (import_camera_film_back (fun _ => None) "camera1" "cameraShape1" m
              1920 1080 (initial_world "a.fspy") (insert_non_empty _ _ _)
              eq_refl eq_refl Hw Hh) as (w2 & Hscene & Hrun').
  rewrite Hrun' in Hrun.
  destruct (after_film_back_keeps_film_offset (fun _ => None) "camera1" "cameraShape1"
              m pm _ _ _ eq_refl _ _ _ Hrun) as (ops & Hops & Hkeep).
  rewrite Hops, Hscene in Hoff. cbn [scene initial_world app] in Hoff.
  rewrite !elem_of_cons in Hoff.
  destruct Hoff as [Heq | [Heq | Hin]];
    [apply (f_equal attr_of) in Heq; discriminate Heq
    | apply (f_equal attr_of) in Heq; discriminate Heq |].
  rewrite Forall_forall in Hkeep.
  destruct (Hkeep _ Hin) as [Hh0 _]. apply Hh0. reflexivity.
Qed.

(** * Further properties *)

(** ** Matrix3x3 and RotationMath *)

Open Scope R_scope.

Section MatrixFacts.
Variable USE_NUMPY : bool.

Lemma has_3x3_inv {A : Type} (d : list (list A)) :
  has_3x3 d ->
  exists a b c ra d0 e f rb g h i rc rest,
    d = (a :: b :: c :: ra) :: (d0 :: e :: f :: rb) :: (g :: h :: i :: rc) :: rest.
Proof.
  intros [Hlen Hrows].
  destruct d as [| r0 [| r1 [| r2 rest]]]; simpl in Hlen; try lia.
  cbn [take] in Hrows.
  inversion Hrows as [| ? ? H0 Hrows1]; subst.
  inversion Hrows1 as [| ? ? H1 Hrows2]; subst.
  inversion Hrows2 as [| ? ? H2 _]; subst.
  destruct r0 as [| a [| b [| c ra]]]; simpl in H0; try lia.
  destruct r1 as [| d0 [| e [| f rb]]]; simpl in H1; try lia.
  destruct r2 as [| g [| h [| i rc]]]; simpl in H2; try lia.
  repeat eexists.
Qed.

(** X1. [Matrix3x3(data)] keeps the upper-left 3x3 block of a nested list
    that has one, whatever lies beyond it, and raises [IndexError] on every
    other nested list. *)
Theorem Matrix3x3_init_block {A : Type} (d : list (list A)) :
  (has_3x3 d ->
   exists m, Matrix3x3_init d = Ok m /\ is_3x3 m
             /\ data m = take 3 <$> take 3 d)
  /\ (~ has_3x3 d -> Matrix3x3_init d = Raise IndexError).
Proof.
  split.
  - intros H.
    destruct (has_3x3_inv d H)
      as (a & b & c & ra & d0 & e & f & rb & g & h & i & rc & rest & ->).
    eexists. split; [reflexivity |]. split; [| reflexivity].
    split; [reflexivity | repeat constructor].
  - intros Hno.
    destruct d as [| r0 [| r1 [| r2 rest]]];
      try (destruct r0 as [| ? [| ? [| ? ?]]]; reflexivity);
      try (destruct r0 as [| ? [| ? [| ? ?]]]; try reflexivity;
           destruct r1 as [| ? [| ? [| ? ?]]]; reflexivity);
      try reflexivity.
    destruct r0 as [| ? [| ? [| ? ?]]]; try reflexivity.
    destruct r1 as [| ? [| ? [| ? ?]]]; try reflexivity.
    destruct r2 as [| ? [| ? [| ? ?]]]; try reflexivity.
    exfalso. apply Hno. split; [simpl; lia |].
    simpl. repeat (constructor; [simpl; lia |]). constructor.
Qed.

Ltac unfold_dot :=
  cbv [Matrix3x3_init dot mapM foldM range seq mbind result_bind index lookup
       list_lookup data setitem2 dot_product fold_left zip_with map insert
       list_insert].

Ltac unfold_mat_mul :=
  cbv [np_dot data mat_mul column range seq map hd length zip_with fold_right nth].

(** X2. On 3x3 matrices the loops of [Matrix3x3.dot] compute the matrix
    product, the result [numpy] gives for the same operands. *)
Theorem dot_is_matrix_product (a b : Matrix3x3 R) :
  is_3x3 a -> is_3x3 b ->
  dot a b = Ok {| data := mat_mul (data a) (data b) |}
  /\ dot a b = Ok (np_dot a b)
  /\ is_3x3 (np_dot a b).
Proof.
  intros Ha Hb.
  destruct (is_3x3_inv a Ha) as (a0 & a1 & a2 & a3 & a4 & a5 & a6 & a7 & a8 & ->).
  destruct (is_3x3_inv b Hb) as (b0 & b1 & b2 & b3 & b4 & b5 & b6 & b7 & b8 & ->).
  assert (E : dot {| data := [[a0; a1; a2]; [a3; a4; a5]; [a6; a7; a8]] |}
                  {| data := [[b0; b1; b2]; [b3; b4; b5]; [b6; b7; b8]] |}
              = Ok (np_dot {| data := [[a0; a1; a2]; [a3; a4; a5]; [a6; a7; a8]] |}
                           {| data := [[b0; b1; b2]; [b3; b4; b5]; [b6; b7; b8]] |})).
  { unfold_dot. unfold_mat_mul. entrywise; ring. }
  split; [exact E |]. split; [exact E |].
  split; [reflexivity | repeat constructor].
Qed.

(** X3. [Matrix3x3.dot] is associative on 3x3 matrices: the two
    bracketings of a product of three matrices return the same matrix. *)
Theorem dot_associative (a b c : Matrix3x3 R) :
  is_3x3 a -> is_3x3 b -> is_3x3 c ->
  (ab ← dot a b; dot ab c) = (bc ← dot b c; dot a bc).
Proof.
  intros Ha Hb Hc.
  destruct (is_3x3_inv a Ha) as (a0 & a1 & a2 & a3 & a4 & a5 & a6 & a7 & a8 & ->).
  destruct (is_3x3_inv b Hb) as (b0 & b1 & b2 & b3 & b4 & b5 & b6 & b7 & b8 & ->).
  destruct (is_3x3_inv c Hc) as (c0 & c1 & c2 & c3 & c4 & c5 & c6 & c7 & c8 & ->).
  unfold_dot. entrywise; ring.
Qed.

(** X4. The matrix of [create_rotation_matrix] is a proper rotation: it
    is 3x3, its product with its transpose is the identity on both sides,
    and its determinant is 1. *)
Theorem create_rotation_matrix_orthonormal (x y z : R) :
  exists m,
    create_rotation_matrix USE_NUMPY x y z = Ok m
    /\ is_3x3 m
    /\ mat_mul (data m) (transpose (data m)) = identity_matrix
    /\ mat_mul (transpose (data m)) (data m) = identity_matrix
    /\ det3 (data m) = 1.
Proof.
  eexists. split; [apply create_rotation_matrix_entries |].
  split; [split; [reflexivity | repeat constructor] |].
  assert (Hx : sin x * sin x + cos x * cos x = 1) by (pose proof (sin2_cos2_pow x); lra).
  assert (Hy : sin y * sin y + cos y * cos y = 1) by (pose proof (sin2_cos2_pow y); lra).
  assert (Hz : sin z * sin z + cos z * cos z = 1) by (pose proof (sin2_cos2_pow z); lra).
  generalize dependent (sin x). generalize dependent (cos x).
  generalize dependent (sin y). generalize dependent (cos y).
  generalize dependent (sin z). generalize dependent (cos z).
  intros cz sz Hz cy sy Hy cx sx Hx.
  cbv [data transpose identity_matrix det3 mat_mul column range seq map hd length
       zip_with fold_right nth].
  repeat split; entrywise; nsatz.
Qed.

(** [atan2] takes its values in [(-PI, PI]]. *)
Lemma atan2_range (y x : R) : - PI < atan2 y x <= PI.
Proof.
  pose proof PI_RGT_0 as Hpi. pose proof (atan_bound (y / x)) as Hb.
  destruct (Rtotal_order x 0) as [Hx | [-> | Hx]].
  - destruct (Rle_or_lt 0 y) as [Hy | Hy].
    + rewrite atan2_neg_nonneg by assumption.
      assert (Hq : y / x <= 0).
      { pose proof (Rinv_lt_0_compat _ Hx). unfold Rdiv. nra. }
      destruct Hq as [Hq | Hq].
      * pose proof (atan_increasing _ _ Hq) as Hi. rewrite atan_0 in Hi. lra.
      * rewrite Hq, atan_0. lra.
    + rewrite atan2_neg_neg by assumption.
      assert (Hq : 0 < y / x).
      { pose proof (Rinv_lt_0_compat _ Hx). unfold Rdiv. nra. }
      pose proof (atan_increasing _ _ Hq) as Hi. rewrite atan_0 in Hi. lra.
  - destruct (Rtotal_order y 0) as [Hy | [-> | Hy]].
    + rewrite atan2_zero_neg by assumption. lra.
    + rewrite atan2_zero_zero. lra.
    + rewrite atan2_zero_pos by assumption. lra.
  - rewrite atan2_pos by assumption. lra.
Qed.

(** X5. On every 3x3 matrix the first and the third angle of the
    decomposition lie in [(-PI, PI]]: the angles need no wrapping. *)
Theorem euler_roll_yaw_range (m : Matrix3x3 R) :
  is_3x3 m ->
  exists x y z,
    rotation_matrix_to_euler USE_NUMPY m = Ok [x; y; z]
    /\ - PI < x <= PI /\ - PI < z <= PI.
Proof.
  intros H3. destruct (is_3x3_inv m H3) as (a & b & c & d & e & f & g & h & i & ->).
  rewrite rotation_matrix_to_euler_entries. cbv zeta.
  pose proof PI_RGT_0 as Hpi.
  destruct (bool_decide (sqrt (a ^ 2 + d ^ 2) < 1e-6));
    do 3 eexists; (split; [reflexivity |]); split;
    first [apply atan2_range | lra].
Qed.

End MatrixFacts.

Lemma dot_is_matrix_product_witness :
  dot {| data := identity_matrix |} {| data := identity_matrix |}
  = Ok {| data := mat_mul identity_matrix identity_matrix |}
  /\ dot {| data := identity_matrix |} {| data := identity_matrix |}
     = Ok (np_dot {| data := identity_matrix |} {| data := identity_matrix |})
  /\ is_3x3 (np_dot {| data := identity_matrix |} {| data := identity_matrix |}).
Proof.
  apply (dot_is_matrix_product {| data := identity_matrix |} {| data := identity_matrix |});
    (split; [reflexivity | repeat constructor]).
Defined.

Lemma dot_associative_witness :
  (ab ← dot {| data := identity_matrix |} {| data := rot_x 1 |};
   dot ab {| data := rot_y 1 |})
  = (bc ← dot {| data := rot_x 1 |} {| data := rot_y 1 |};
     dot {| data := identity_matrix |} bc).
Proof.
  apply (dot_associative {| data := identity_matrix |} {| data := rot_x 1 |}
           {| data := rot_y 1 |});
    (split; [reflexivity | repeat constructor]).
Defined.

Lemma euler_roll_yaw_range_witness :
  exists x y z,
    rotation_matrix_to_euler false {| data := identity_matrix |} = Ok [x; y; z]
    /\ - PI < x <= PI /\ - PI < z <= PI.
Proof.
  apply (euler_roll_yaw_range false {| data := identity_matrix |}).
  split; [reflexivity | repeat constructor].
Defined.

Section Decomposition.
Variable USE_NUMPY : bool.

(** A matrix with orthonormal columns and determinant 1 is its own
    cofactor matrix, and its rows are unit vectors. *)
Lemma rotation_cofactors (a b c d e f g h i : R) :
  a * a + d * d + g * g = 1 -> b * b + e * e + h * h = 1 -> c * c + f * f + i * i = 1 ->
  a * b + d * e + g * h = 0 -> a * c + d * f + g * i = 0 -> b * c + e * f + h * i = 0 ->
  a * e * i + b * f * g + c * d * h - c * e * g - b * d * i - a * f * h = 1 ->
  (a = e * i - f * h /\ b = f * g - d * i /\ c = d * h - e * g)
  /\ (d = c * h - b * i /\ e = a * i - c * g /\ f = b * g - a * h)
  /\ (g = b * f - c * e /\ h = c * d - a * f /\ i = a * e - b * d).
Proof.
  intros H1 H2 H3 H4 H5 H6 H7.
  repeat split; nsatz.
Qed.

(** What orthonormal columns and determinant 1 mean for the entries. *)
Lemma rotation_equations (a b c d e f g h i : R) :
  let m := [[a; b; c]; [d; e; f]; [g; h; i]] in
  mat_mul (transpose m) m = identity_matrix ->
  det3 m = 1 ->
  (a * a + d * d + g * g = 1 /\ b * b + e * e + h * h = 1 /\ c * c + f * f + i * i = 1)
  /\ (a * b + d * e + g * h = 0 /\ a * c + d * f + g * i = 0 /\ b * c + e * f + h * i = 0)
  /\ a * e * i + b * f * g + c * d * h - c * e * g - b * d * i - a * f * h = 1.
Proof.
  intros m Hort Hdet.
  cbv [m mat_mul transpose column range seq map hd length zip_with fold_right nth
       identity_matrix] in Hort.
  cbv [m det3 nth] in Hdet.
  injection Hort as H00 H01 H02 H10 H11 H12 H20 H21 H22.
  repeat split; lra.
Qed.

Lemma sqrt_sum_squares (a d : R) : sqrt (a ^ 2 + d ^ 2) * sqrt (a ^ 2 + d ^ 2) = a * a + d * d.
Proof. rewrite sqrt_sqrt by nra. ring. Qed.

(** The angles of a rotation matrix away from gimbal lock. *)
Lemma euler_angles_regular (a b c d e f g h i : R) :
  a * a + d * d + g * g = 1 -> g * g + h * h + i * i = 1 ->
  0 < sqrt (a ^ 2 + d ^ 2) ->
  let s := sqrt (a ^ 2 + d ^ 2) in
  (cos (atan2 h i) = i / s /\ sin (atan2 h i) = h / s)
  /\ (cos (atan2 (- g) s) = s /\ sin (atan2 (- g) s) = - g)
  /\ (cos (atan2 d a) = a / s /\ sin (atan2 d a) = d / s).
Proof.
  intros Hc Hr Hs s. pose proof (sqrt_sum_squares a d) as Hss.
  change (s * s = a * a + d * d) in Hss. change (0 < s) in Hs.
  assert (Hunit : forall u v, u * u + v * v = s * s -> (u / s) ^ 2 + (v / s) ^ 2 = 1).
  { intros u v Huv. replace ((u / s) ^ 2 + (v / s) ^ 2) with ((u * u + v * v) / (s * s))
      by (field; lra).
    rewrite Huv. field. lra. }
  split; [| split].
  - assert (Hh : s * (h / s) = h) by (field; lra).
    assert (Hi : s * (i / s) = i) by (field; lra).
    destruct (cos_sin_atan2_scaled s (h / s) (i / s) Hs) as [Hcos Hsin];
      [apply Hunit; lra |].
    rewrite Hh, Hi in Hcos, Hsin. split; assumption.
  - apply cos_sin_atan2. nra.
  - assert (Hd : s * (d / s) = d) by (field; lra).
    assert (Ha : s * (a / s) = a) by (field; lra).
    destruct (cos_sin_atan2_scaled s (d / s) (a / s) Hs) as [Hcos Hsin];
      [apply Hunit; lra |].
    rewrite Hd, Ha in Hcos, Hsin. split; assumption.
Qed.

(** X20. The angles recompose the matrix they were read from: for every
    rotation matrix (orthonormal columns, determinant 1) that is at
    gimbal lock exactly or away from it by the threshold of the source,
    [create_rotation_matrix] on the angles that
    [rotation_matrix_to_euler] returns gives the matrix back. *)
Theorem euler_recomposes_rotation (a b c d e f g h i : R) :
  let m := [[a; b; c]; [d; e; f]; [g; h; i]] in
  mat_mul (transpose m) m = identity_matrix ->
  det3 m = 1 ->
  sqrt (a ^ 2 + d ^ 2) = 0 \/ 1e-6 <= sqrt (a ^ 2 + d ^ 2) ->
  exists x y z,
    rotation_matrix_to_euler USE_NUMPY {| data := m |} = Ok [x; y; z]
    /\ create_rotation_matrix USE_NUMPY x y z = Ok {| data := m |}.
Proof.
  intros m Hort Hdet Hsy.
  destruct (rotation_equations a b c d e f g h i Hort Hdet)
    as ((C0 & C1 & C2) & (O01 & O02 & O12) & D).
  destruct (rotation_cofactors a b c d e f g h i C0 C1 C2 O01 O02 O12 D)
    as ((Ka & Kb & Kc) & (Kd & Ke & Kf) & (Kg & Kh & Ki)).
  assert (R0 : a * a + b * b + c * c = 1) by nsatz.
  assert (R1 : d * d + e * e + f * f = 1) by nsatz.
  assert (R2 : g * g + h * h + i * i = 1) by nsatz.
  pose proof (sqrt_sum_squares a d) as Hss.
  unfold m. rewrite rotation_matrix_to_euler_entries. cbv zeta.
  set (s := sqrt (a ^ 2 + d ^ 2)) in *.
  destruct Hsy as [Hzero | Hreg].
  - (* gimbal lock *)
    rewrite bool_decide_eq_true_2 by lra.
    do 3 eexists. split; [reflexivity |].
    rewrite Hzero in Hss.
    assert (Ha : a = 0) by nra. assert (Hd : d = 0) by nra.
    assert (Hh : h = 0) by nra. assert (Hi : i = 0) by nra.
    destruct (cos_sin_atan2 (- f) e) as [Hcx Hsx]; [nra |].
    destruct (cos_sin_atan2 (- g) 0) as [Hcy Hsyn]; [nra |].
    rewrite create_rotation_matrix_entries, Hzero, Hcx, Hsx, Hcy, Hsyn, cos_0, sin_0.
    entrywise; nra.
  - (* away from gimbal lock *)
    rewrite bool_decide_eq_false_2 by lra.
    do 3 eexists. split; [reflexivity |].
    assert (Hs : 0 < s) by lra.
    destruct (euler_angles_regular a b c d e f g h i C0 R2 Hs)
      as ((Hcx & Hsx) & (Hcy & Hsyn) & (Hcz & Hsz)).
    fold s in Hcx, Hsx, Hcy, Hsyn, Hcz, Hsz.
    rewrite create_rotation_matrix_entries, Hcx, Hsx, Hcy, Hsyn, Hcz, Hsz.
    assert (P01 : - a * g * h - d * i = b * (s * s)) by (rewrite Hss; nsatz).
    assert (P02 : - a * g * i + d * h = c * (s * s)) by (rewrite Hss; nsatz).
    assert (P11 : - d * g * h + a * i = e * (s * s)) by (rewrite Hss; nsatz).
    assert (P12 : - d * g * i - a * h = f * (s * s)) by (rewrite Hss; nsatz).
    clear Hss C0 C1 C2 O01 O02 O12 D Ka Kb Kc Kd Ke Kf Kg Kh Ki R0 R1 R2 Hort Hdet.
    entrywise.
    + field. lra.
    + replace (a / s * - g * (h / s) - d / s * (i / s))
        with ((- a * g * h - d * i) / (s * s)) by (field; lra).
      rewrite P01. field. lra.
    + replace (a / s * - g * (i / s) + d / s * (h / s))
        with ((- a * g * i + d * h) / (s * s)) by (field; lra).
      rewrite P02. field. lra.
    + field. lra.
    + replace (d / s * - g * (h / s) + a / s * (i / s))
        with ((- d * g * h + a * i) / (s * s)) by (field; lra).
      rewrite P11. field. lra.
    + replace (d / s * - g * (i / s) - a / s * (h / s))
        with ((- d * g * i - a * h) / (s * s)) by (field; lra).
      rewrite P12. field. lra.
    + ring.
    + field. lra.
    + field. lra.
Qed.


End Decomposition.

Lemma euler_recomposes_rotation_witness :
  let m := [[0; -1; 0]; [1; 0; 0]; [0; 0; 1]] in
  exists x y z,
    rotation_matrix_to_euler false {| data := m |} = Ok [x; y; z]
    /\ create_rotation_matrix false x y z = Ok {| data := m |}.
Proof.
  intros m.
  apply (euler_recomposes_rotation false 0 (-1) 0 1 0 0 0 0 1).
  - cbv [mat_mul transpose column range seq map hd length zip_with fold_right nth
         identity_matrix].
    entrywise; ring.
  - cbv [det3 nth]. ring.
  - right. replace (0 ^ 2 + 1 ^ 2) with 1 by ring. rewrite sqrt_1. lra.
Defined.


Close Scope R_scope.

(** ** ContainerParser: further properties *)

Lemma to_N_byte_of_Z (z : Z) : (0 <= z < 256)%Z -> Z.of_N (Byte.to_N (byte_of_Z z)) = z.
Proof.
  intros Hz. unfold byte_of_Z.
  destruct (Byte.of_N (Z.to_N z)) as [b |] eqn:Hb.
  - cbn [default from_option Datatypes.id]. apply Byte.to_of_N in Hb.
    unfold Datatypes.id. rewrite Hb. lia.
  - pose proof (Byte.to_of_N_option_map (Z.to_N z)) as Hm. rewrite Hb in Hm.
    destruct (N.leb_spec (Z.to_N z) 255) as [Hle | Hgt]; [discriminate Hm | lia].
Qed.

Lemma byte_range (b : byte) : (0 <= Z.of_N (Byte.to_N b) < 256)%Z.
Proof. pose proof (Byte.to_N_bounded b). lia. Qed.

(** X6. [struct.unpack('<I', b)] returns on the strings of four bytes,
    with a value in [[0, 2^32)], raises [struct.error] on every other
    length, and inverts the little-endian encoding. *)
Theorem unpack_u32_le_spec (b : bytes) :
  (length b = 4%nat ->
   exists n, unpack_u32_le b = Ok n /\ (0 <= n < 2 ^ 32)%Z /\ pack_u32_le n = b)
  /\ (length b <> 4%nat -> unpack_u32_le b = Raise struct_error)
  /\ (forall n, (0 <= n < 2 ^ 32)%Z -> unpack_u32_le (pack_u32_le n) = Ok n).
Proof.
  split; [| split].
  - intros Hlen.
    destruct b as [| b0 [| b1 [| b2 [| b3 [| ? ?]]]]]; try discriminate Hlen.
    eexists. split; [reflexivity |].
    pose proof (byte_range b0). pose proof (byte_range b1).
    pose proof (byte_range b2). pose proof (byte_range b3).
    set (n0 := Z.of_N (Byte.to_N b0)) in *. set (n1 := Z.of_N (Byte.to_N b1)) in *.
    set (n2 := Z.of_N (Byte.to_N b2)) in *. set (n3 := Z.of_N (Byte.to_N b3)) in *.
    split; [lia |].
    unfold pack_u32_le.
    replace ((n0 + 256 * n1 + 65536 * n2 + 16777216 * n3) mod 256)%Z with n0
      by (Z.to_euclidean_division_equations; lia).
    replace ((n0 + 256 * n1 + 65536 * n2 + 16777216 * n3) / 256 mod 256)%Z with n1
      by (Z.to_euclidean_division_equations; lia).
    replace ((n0 + 256 * n1 + 65536 * n2 + 16777216 * n3) / 65536 mod 256)%Z with n2
      by (Z.to_euclidean_division_equations; lia).
    replace ((n0 + 256 * n1 + 65536 * n2 + 16777216 * n3) / 16777216 mod 256)%Z with n3
      by (Z.to_euclidean_division_equations; lia).
    unfold n0, n1, n2, n3, byte_of_Z. rewrite !N2Z.id, !Byte.of_to_N. reflexivity.
  - intros Hlen.
    destruct b as [| b0 [| b1 [| b2 [| b3 [| ? ?]]]]]; try reflexivity.
    exfalso. apply Hlen. reflexivity.
  - intros n Hn. unfold pack_u32_le, unpack_u32_le.
    rewrite !to_N_byte_of_Z by (Z.to_euclidean_division_equations; lia).
    f_equal. Z.to_euclidean_division_equations. lia.
Qed.

Lemma unpack_u32_le_length (b : bytes) (n : Z) : unpack_u32_le b = Ok n -> length b = 4%nat.
Proof.
  destruct b as [| b0 [| b1 [| b2 [| b3 [| ? ?]]]]]; intros H; try discriminate H.
  reflexivity.
Qed.

Lemma unpack_pack_u32_le (n : Z) :
  (0 <= n < 2 ^ 32)%Z -> unpack_u32_le (pack_u32_le n) = Ok n.
Proof.
  intros Hn. unfold pack_u32_le, unpack_u32_le.
  rewrite !to_N_byte_of_Z by (Z.to_euclidean_division_equations; lia).
  f_equal. Z.to_euclidean_division_equations. lia.
Qed.

Lemma result_bind_ok {A B : Type} (a : A) (k : A -> result B) : (Ok a ≫= k) = k a.
Proof. reflexivity. Qed.

Lemma result_bind_raise {A B : Type} (e : exn) (k : A -> result B) :
  (Raise e ≫= k) = Raise e.
Proof. reflexivity. Qed.

Lemma run_read_eq (A : Type) (n : nat) (k : bytes -> M A) (w : world) (c : bytes)
    (p : nat) (chunk : bytes) (p' : nat) :
  fd w = {| contents := c; pos := p |} ->
  take n (drop p c) = chunk ->
  p + length chunk = p' ->
  (read n ≫= k) w = k chunk (set_fd {| contents := c; pos := p' |} w).
Proof. intros Hfd <- <-. apply run_read, Hfd. Qed.

Lemma run_set_state_data (A : Type) (j : json) (k : unit -> M A) (w : world) :
  (set_state_data j ≫= k) w
  = k tt (set_parser {| filepath := filepath (parser w); state_data := j;
                        image_data := image_data (parser w);
                        image_path := image_path (parser w) |} w).
Proof. reflexivity. Qed.

Lemma run_set_image_data (A : Type) (b : bytes) (k : unit -> M A) (w : world) :
  (set_image_data b ≫= k) w
  = k tt (set_parser {| filepath := filepath (parser w); state_data := state_data (parser w);
                        image_data := Some b;
                        image_path := image_path (parser w) |} w).
Proof. reflexivity. Qed.

Lemma drop_after_take {A : Type} (p n : nat) (c : list A) :
  drop (p + length (take n (drop p c))) c = drop (p + n) c.
Proof.
  rewrite length_take, length_drop.
  destruct (Nat.le_gt_cases n (length c - p)) as [Hle | Hgt].
  - rewrite Nat.min_l by exact Hle. reflexivity.
  - rewrite Nat.min_r by lia.
    rewrite !drop_ge by lia. reflexivity.
Qed.

(** ** The frame of [parse] *)

Lemma frame_step_silent (w w' : world) :
  filepath (parser w') = filepath (parser w) ->
  image_path (parser w') = image_path (parser w) ->
  DEBUG_LEVELS w' = DEBUG_LEVELS w -> scene w' = scene w ->
  info_text w' = info_text w -> stdout w' = stdout w -> frame_step w w'.
Proof.
  intros Hf Hp Hd Hs Hi Ho. repeat split; try assumption.
  exists []. split; [rewrite app_nil_r; exact Ho | reflexivity].
Qed.

Lemma frame_step_refl (w : world) : frame_step w w.
Proof. apply frame_step_silent; reflexivity. Qed.

Lemma frame_step_trans (w1 w2 w3 : world) :
  frame_step w1 w2 -> frame_step w2 w3 -> frame_step w1 w3.
Proof.
  intros (Hf & Hp & Hd & Hs & Hi & n1 & Ho1 & He1)
         (Hf' & Hp' & Hd' & Hs' & Hi' & n2 & Ho2 & He2).
  repeat split; try congruence.
  exists (n1 ++ n2). split.
  - rewrite Ho2, Ho1, app_assoc. reflexivity.
  - rewrite errors_app, He1, He2. reflexivity.
Qed.

Lemma quiet_frame_step (w w' : world) : quiet_step w w' -> frame_step w w'.
Proof.
  intros (Hp & Hd & Hs & Hi & Ho).
  split; [rewrite Hp; reflexivity |]. split; [rewrite Hp; reflexivity |].
  repeat split; assumption.
Qed.

Lemma frame_of_quiet {A : Type} (m : M A) : always quiet_step m -> always frame_step m.
Proof. intros H w r w' Hr. apply quiet_frame_step, (H _ _ _ Hr). Qed.

Lemma frame_set_state_data (j : json) : always frame_step (set_state_data j).
Proof. intros w r w' H. injection H as <- <-. apply frame_step_silent; reflexivity. Qed.

Lemma frame_set_image_data (b : bytes) : always frame_step (set_image_data b).
Proof. intros w r w' H. injection H as <- <-. apply frame_step_silent; reflexivity. Qed.

Section ParserMore.
Variable filesystem : string -> option bytes.
Variable utf8_decode : bytes -> option string.
Variable json_loads : string -> option json.

Ltac step_frame :=
  lazymatch goal with
  | |- always frame_step (log_message _ _ ≫= _) =>
      apply (always_bind _ frame_step_trans);
      [apply frame_of_quiet, quiet_log_message; discriminate | intros ?]
  | |- always frame_step (set_state_data _ ≫= _) =>
      apply (always_bind _ frame_step_trans); [apply frame_set_state_data | intros ?]
  | |- always frame_step (set_image_data _ ≫= _) =>
      apply (always_bind _ frame_step_trans); [apply frame_set_image_data | intros ?]
  | |- always frame_step (get_parser ≫= _) =>
      apply (always_bind _ frame_step_trans);
      [apply always_get_parser, frame_step_refl | intros ?]
  | |- always frame_step (read _ ≫= _) =>
      apply (always_bind _ frame_step_trans);
      [apply frame_of_quiet, quiet_read | intros ?]
  | |- always frame_step (open_rb _ _ ≫= _) =>
      apply (always_bind _ frame_step_trans);
      [apply frame_of_quiet, quiet_open_rb | intros ?]
  | |- always frame_step (lift _ ≫= _) =>
      apply (always_bind _ frame_step_trans);
      [apply always_lift, frame_step_refl | intros ?]
  | |- always frame_step (mret _) => apply always_ret, frame_step_refl
  | |- always frame_step (raise _) => apply always_raise, frame_step_refl
  end.

Lemma parse_body_frame :
  always frame_step (parse_body filesystem utf8_decode json_loads).
Proof.
  unfold parse_body.
  repeat step_frame.
  match goal with |- context [bool_decide ?P] => destruct (bool_decide P) end;
    repeat step_frame.
Qed.

Ltac name_world :=
  let w := fresh "w" in
  first [ set (w := set_stdout _ _) | set (w := set_fd _ _) | set (w := set_parser _ _) ].

(** The run of the body of [parse] against [container_fields]. *)
Lemma parse_body_fields (w : world) (c : bytes) :
  filesystem (filepath (parser w)) = Some c ->
  match container_fields utf8_decode json_loads c with
  | Ok (j, img) =>
      exists w1,
        parse_body filesystem utf8_decode json_loads w = (Ok true, w1)
        /\ parser w1 = {| filepath := filepath (parser w); state_data := j;
                          image_data := Some img; image_path := image_path (parser w) |}
  | Raise e =>
      exists w1, parse_body filesystem utf8_decode json_loads w = (Raise e, w1)
  end.
Proof.
  intros Hopen. unfold parse_body, container_fields.
  rewrite run_log. name_world. rewrite run_get_parser.
  erewrite run_open_rb by exact Hopen. name_world.
  erewrite (run_read_eq _ 4 _ _ c 0 (take 4 c) (length (take 4 c))) by reflexivity.
  name_world. rewrite run_log. name_world. cbv beta.
  destruct (decide (take 4 c = fspy_magic)) as [Hm | Hm].
  2: { repeat rewrite bool_decide_eq_true_2 by exact Hm. eexists. reflexivity. }
  repeat rewrite bool_decide_eq_false_2 by (intros H; apply H; exact Hm).
  assert (Hl : length (take 4 c) = 4%nat) by (rewrite Hm; reflexivity).
  erewrite (run_read_eq _ 4 _ _ c 4 (take 4 (drop 4 c)) (4 + length (take 4 (drop 4 c))));
    [| unfold w3, w2; cbn [fd set_fd set_stdout]; rewrite Hl; reflexivity
     | reflexivity | reflexivity].
  name_world. cbv beta.
  destruct (unpack_u32_le (take 4 (drop 4 c))) as [version | e] eqn:Hv.
  2: { rewrite run_lift_raise, result_bind_raise. eexists. reflexivity. }
  rewrite run_lift_ok, result_bind_ok, run_log. name_world.
  erewrite (run_read_eq _ 4 _ _ c 8 (take 4 (drop 8 c)) (8 + length (take 4 (drop 8 c))));
    [| unfold w5, w4; cbn [fd set_fd set_stdout];
       rewrite (unpack_u32_le_length _ _ Hv); reflexivity
     | reflexivity | reflexivity].
  name_world. cbv beta.
  destruct (unpack_u32_le (take 4 (drop 8 c))) as [state_size | e] eqn:Hs.
  2: { rewrite run_lift_raise, result_bind_raise. eexists. reflexivity. }
  rewrite run_lift_ok, result_bind_ok, run_log. name_world.
  erewrite (run_read_eq _ 4 _ _ c 12 (take 4 (drop 12 c)) (12 + length (take 4 (drop 12 c))));
    [| unfold w7, w6; cbn [fd set_fd set_stdout];
       rewrite (unpack_u32_le_length _ _ Hs); reflexivity
     | reflexivity | reflexivity].
  name_world. cbv beta.
  destruct (unpack_u32_le (take 4 (drop 12 c))) as [image_size | e] eqn:Hi.
  2: { rewrite run_lift_raise, result_bind_raise. eexists. reflexivity. }
  rewrite run_lift_ok, result_bind_ok, run_log. name_world.
  erewrite (run_read_eq _ _ _ _ c 16 (take (Z.to_nat state_size) (drop 16 c))
              (16 + length (take (Z.to_nat state_size) (drop 16 c))));
    [| unfold w9, w8; cbn [fd set_fd set_stdout];
       rewrite (unpack_u32_le_length _ _ Hi); reflexivity
     | reflexivity | reflexivity].
  name_world. rewrite run_log. name_world. cbv beta.
  destruct (decode_state utf8_decode json_loads
              (strip_nul (take (Z.to_nat state_size) (drop 16 c)))) as [j | e] eqn:Hj.
  2: { rewrite run_lift_raise, result_bind_raise. eexists. reflexivity. }
  rewrite run_lift_ok, result_bind_ok, run_set_state_data. name_world.
  rewrite run_log. name_world.
  erewrite (run_read_eq _ _ _ _ c _
              (take (Z.to_nat image_size) (drop (16 + Z.to_nat state_size) c)) _);
    [| reflexivity | cbn [pos]; rewrite drop_after_take; reflexivity | reflexivity].
  name_world. rewrite run_set_image_data. name_world.
  rewrite run_log. name_world. rewrite run_get_parser, run_log. name_world.
  eexists. split; reflexivity.
Qed.

Lemma read_container_run (w : world) :
  match read_container filesystem utf8_decode json_loads (filepath (parser w)) with
  | Ok (j, img) =>
      exists w1,
        parse_body filesystem utf8_decode json_loads w = (Ok true, w1)
        /\ parser w1 = {| filepath := filepath (parser w); state_data := j;
                          image_data := Some img; image_path := image_path (parser w) |}
  | Raise e =>
      exists w1, parse_body filesystem utf8_decode json_loads w = (Raise e, w1)
  end.
Proof.
  unfold read_container.
  destruct (filesystem (filepath (parser w))) as [c |] eqn:Hopen.
  - apply parse_body_fields, Hopen.
  - unfold parse_body. rewrite run_log, run_get_parser.
    unfold mbind at 1, M_bind at 1, open_rb. cbn [parser set_stdout]. rewrite Hopen.
    eexists. reflexivity.
Qed.

Lemma pack_u32_le_length (n : Z) : length (pack_u32_le n) = 4%nat.
Proof. reflexivity. Qed.

Lemma strip_nul_padding (text : bytes) (k : nat) :
  x00 ∉ text -> strip_nul (text ++ replicate k x00) = text.
Proof.
  intros Hno. unfold strip_nul, bytes in *. rewrite filter_app.
  replace (filter (fun c : byte => c <> x00) (replicate k x00)) with (@nil byte).
  - rewrite app_nil_r. induction text as [| b text IH]; [reflexivity |].
    rewrite filter_cons_True.
    + f_equal. apply IH. intros H. apply Hno. right. exact H.
    + intros ->. apply Hno. left.
  - induction k as [| k IH]; [reflexivity |].
    cbn [replicate]. rewrite filter_cons_False by (intros H; apply H; reflexivity).
    exact IH.
Qed.

(** [container_fields] on a file laid out by [container]. *)
Lemma container_fields_container (version : Z) (state : bytes) (image_size : Z)
    (rest : bytes) :
  (0 <= version < 2 ^ 32)%Z -> (Z.of_nat (length state) < 2 ^ 32)%Z ->
  (0 <= image_size < 2 ^ 32)%Z ->
  container_fields utf8_decode json_loads (container version state image_size rest)
  = (j ← decode_state utf8_decode json_loads (strip_nul state);
     Ok (j, take (Z.to_nat image_size) rest)).
Proof.
  intros Hv Hs Hi. unfold container_fields, container.
  rewrite bool_decide_eq_false_2 by (intros H; apply H; reflexivity).
  change (take 4 (drop 4 (fspy_magic ++ pack_u32_le version ++ ?t)))
    with (pack_u32_le version).
  rewrite unpack_pack_u32_le, result_bind_ok by exact Hv.
  match goal with |- context [take 4 (drop 8 ?c)] =>
    change (take 4 (drop 8 c)) with (pack_u32_le (Z.of_nat (length state))) end.
  rewrite unpack_pack_u32_le, result_bind_ok by lia.
  match goal with |- context [take 4 (drop 12 ?c)] =>
    change (take 4 (drop 12 c)) with (pack_u32_le image_size) end.
  rewrite unpack_pack_u32_le, result_bind_ok by exact Hi.
  rewrite Nat2Z.id.
  match goal with |- context [drop 16 ?c] =>
    change (drop 16 c) with (state ++ rest) end.
  rewrite take_app_length.
  match goal with |- context [drop (16 + length state) ?c] =>
    replace (drop (16 + length state) c) with rest end.
  - reflexivity.
  - rewrite <- drop_drop.
    change (drop 16 (fspy_magic ++ pack_u32_le version
                     ++ pack_u32_le (Z.of_nat (length state))
                     ++ pack_u32_le image_size ++ state ++ rest))
      with (state ++ rest).
    rewrite drop_app_length. reflexivity.
Qed.

(** The run of [parse] on a file laid out by [container]. *)
Lemma parse_container (w : world) (version : Z) (state : bytes) (image_size : Z)
    (rest : bytes) (j : json) :
  filesystem (filepath (parser w)) = Some (container version state image_size rest) ->
  (0 <= version < 2 ^ 32)%Z -> (Z.of_nat (length state) < 2 ^ 32)%Z ->
  (0 <= image_size < 2 ^ 32)%Z ->
  decode_state utf8_decode json_loads (strip_nul state) = Ok j ->
  exists w' new,
    parse filesystem utf8_decode json_loads w = (Ok true, w')
    /\ state_data (parser w') = j
    /\ image_data (parser w') = Some (take (Z.to_nat image_size) rest)
    /\ stdout w' = stdout w ++ new
    /\ errors new = [].
Proof.
  intros Hopen Hv Hs Hi Hj.
  pose proof (parse_body_fields w _ Hopen) as H.
  rewrite container_fields_container, Hj, result_bind_ok in H by assumption.
  destruct H as (w1 & Hrun & Hp).
  destruct (parse_body_frame _ _ _ Hrun) as (_ & _ & _ & _ & _ & new & Ho & He).
  exists w1, new. unfold parse, try_except. rewrite Hrun, Hp.
  repeat split; assumption.
Qed.

(** X7. [parse] computes [read_container] on its path: when that gives a
    state and an image block, [parse] returns [True] and has assigned
    the two; when it raises (no file, no magic, a header word cut short,
    a state block that does not decode), [parse] returns [False], leaves
    the parser as it was and reports that exception alone. *)
Theorem parse_refines_read_container (w : world) :
  exists w',
    match read_container filesystem utf8_decode json_loads (filepath (parser w)) with
    | Ok (j, img) =>
        parse filesystem utf8_decode json_loads w = (Ok true, w')
        /\ state_data (parser w') = j
        /\ image_data (parser w') = Some img
    | Raise e =>
        parse filesystem utf8_decode json_loads w = (Ok false, w')
        /\ parser w' = parser w
        /\ exists new,
             stdout w' = stdout w ++ new
             /\ (log_enabled w "error" = true -> errors new = [MsgParseFailed e])
    end.
Proof.
  pose proof (read_container_run w) as H.
  destruct (read_container filesystem utf8_decode json_loads (filepath (parser w)))
    as [[j img] | e].
  - destruct H as (w1 & Hrun & Hp). exists w1.
    unfold parse, try_except. rewrite Hrun, Hp. repeat split.
  - destruct H as (w1 & Hrun).
    destruct (parse_of_raise _ _ _ _ _ _ Hrun) as (w' & Hparse & Hp & _ & Hnew).
    exists w'. repeat split; assumption.
Qed.

(** X8. Whatever the file, [parse] returns (it never raises), keeps the
    path fields of the parser, the debug levels, the scene and the
    panel, and prints nothing at the error level when it returns [True]. *)
Theorem parse_frame (w : world) :
  exists b w' new,
    parse filesystem utf8_decode json_loads w = (Ok b, w')
    /\ filepath (parser w') = filepath (parser w)
    /\ image_path (parser w') = image_path (parser w)
    /\ DEBUG_LEVELS w' = DEBUG_LEVELS w
    /\ scene w' = scene w
    /\ info_text w' = info_text w
    /\ stdout w' = stdout w ++ new
    /\ (b = true -> errors new = []).
Proof.
  unfold parse, try_except.
  destruct (parse_body filesystem utf8_decode json_loads w) as [[b | e] w1] eqn:Hbody.
  - destruct (parse_body_frame _ _ _ Hbody) as (Hf & Hp & Hd & Hs & Hi & new & Ho & He).
    exists b, w1, new. repeat split; try assumption. intros _. exact He.
  - destruct (parse_body_frame _ _ _ Hbody) as (Hf & Hp & Hd & Hs & Hi & new & Ho & He).
    eexists false, _, _. split; [reflexivity |].
    repeat split; try assumption.
    + cbn. rewrite Ho, <- app_assoc. reflexivity.
    + intros H. discriminate H.
Qed.

(** X9. Round trip through the container layout: a file made of the
    magic, any version word, the two sizes, a state block padded with
    NUL bytes and an image block followed by trailing bytes is parsed to
    the decoded state and to exactly the image block; nothing is printed
    at the error level. *)
Theorem parse_container_roundtrip (w : world) (version : Z) (text : bytes) (k : nat)
    (image trailing : bytes) (s : string) (j : json) :
  filesystem (filepath (parser w))
  = Some (container version (text ++ replicate k x00) (Z.of_nat (length image))
            (image ++ trailing)) ->
  (0 <= version < 2 ^ 32)%Z ->
  (Z.of_nat (length text + k) < 2 ^ 32)%Z ->
  (Z.of_nat (length image) < 2 ^ 32)%Z ->
  x00 ∉ text ->
  utf8_decode text = Some s ->
  json_loads s = Some j ->
  exists w' new,
    parse filesystem utf8_decode json_loads w = (Ok true, w')
    /\ state_data (parser w') = j
    /\ image_data (parser w') = Some image
    /\ stdout w' = stdout w ++ new
    /\ errors new = [].
Proof.
  intros Hopen Hv Hs Hi Hno Hd Hl.
  destruct (parse_container w version (text ++ replicate k x00)
              (Z.of_nat (length image)) (image ++ trailing) j)
    as (w' & new & Hrun & Hst & Him & Ho & He); try assumption.
  - rewrite length_app, length_replicate. exact Hs.
  - lia.
  - rewrite strip_nul_padding by exact Hno.
    unfold decode_state. rewrite Hd, Hl. reflexivity.
  - exists w', new. rewrite Nat2Z.id, take_app_length in Him.
    repeat split; assumption.
Qed.

(** X10. An image block shorter than the size its header announces is
    accepted: [parse] returns [True], keeps the bytes that are there and
    prints nothing at the error level. *)
Theorem parse_accepts_truncated_image (w : world) (version : Z) (state : bytes)
    (image_size : Z) (rest : bytes) (j : json) :
  filesystem (filepath (parser w)) = Some (container version state image_size rest) ->
  (0 <= version < 2 ^ 32)%Z ->
  (Z.of_nat (length state) < 2 ^ 32)%Z ->
  (Z.of_nat (length rest) < image_size < 2 ^ 32)%Z ->
  decode_state utf8_decode json_loads (strip_nul state) = Ok j ->
  exists w' new,
    parse filesystem utf8_decode json_loads w = (Ok true, w')
    /\ state_data (parser w') = j
    /\ image_data (parser w') = Some rest
    /\ stdout w' = stdout w ++ new
    /\ errors new = [].
Proof.
  intros Hopen Hv Hs Hi Hj.
  destruct (parse_container w version state image_size rest j)
    as (w' & new & Hrun & Hst & Him & Ho & He); try assumption; [lia |].
  exists w', new. rewrite take_ge in Him by lia.
  repeat split; assumption.
Qed.

(** ** What [parse] prints *)















End ParserMore.

Lemma parse_container_roundtrip_witness :
  let decode := fun b : bytes => if decide (b = ["{"; "}"]%byte) then Some "{}" else None in
  let loads := fun s : string => if decide (s = "{}") then Some (JObj ∅) else None in
  let content := container 7 (["{"; "}"]%byte ++ replicate 3 x00) 2 ([xff; xd8] ++ [x2a]) in
  let w := initial_world "a.fspy" in
  exists w' new,
    parse (one_file "a.fspy" content) decode loads w = (Ok true, w')
    /\ state_data (parser w') = JObj ∅
    /\ image_data (parser w') = Some [xff; xd8]
    /\ stdout w' = stdout w ++ new
    /\ errors new = [].
Proof.
  intros decode loads content w.
  apply (parse_container_roundtrip (one_file "a.fspy" content) decode loads w
           7 ["{"; "}"]%byte 3 [xff; xd8] [x2a] "{}" (JObj ∅)).
  - reflexivity.
  - lia.
  - simpl. lia.
  - simpl. lia.
  - apply (bool_decide_unpack _). vm_compute. exact I.
  - reflexivity.
  - reflexivity.
Defined.

Lemma parse_accepts_truncated_image_witness :
  let decode := fun b : bytes => if decide (b = ["{"; "}"]%byte) then Some "{}" else None in
  let loads := fun s : string => if decide (s = "{}") then Some (JObj ∅) else None in
  let content := container 1 ["{"; "}"]%byte 1000 [xff; xd8] in
  let w := initial_world "a.fspy" in
  exists w' new,
    parse (one_file "a.fspy" content) decode loads w = (Ok true, w')
    /\ state_data (parser w') = JObj ∅
    /\ image_data (parser w') = Some [xff; xd8]
    /\ stdout w' = stdout w ++ new
    /\ errors new = [].
Proof.
  intros decode loads content w.
  apply (parse_accepts_truncated_image (one_file "a.fspy" content) decode loads w
           1 ["{"; "}"]%byte 1000 [xff; xd8] (JObj ∅)).
  - reflexivity.
  - lia.
  - simpl. lia.
  - simpl. lia.
  - reflexivity.
Defined.


(** ** CameraDeriver: further properties of the transform *)

Ltac quiet_steps :=
  repeat
    lazymatch goal with
    | |- always quiet_step (lift _ ≫= _) =>
        apply (always_bind_lift _ quiet_step_refl); intros ? ?
    | |- always quiet_step (log_message _ _ ≫= _) =>
        apply (always_bind _ quiet_step_trans);
        [apply quiet_log_message; discriminate | intros ?]
    | |- always quiet_step (get_parser ≫= _) =>
        apply (always_bind _ quiet_step_trans);
        [apply always_get_parser, quiet_step_refl | intros ?]
    | |- always quiet_step (log_message _ _) => apply quiet_log_message; discriminate
    | |- always quiet_step (mret _) => apply always_ret, quiet_step_refl
    | |- always quiet_step (raise _) => apply always_raise, quiet_step_refl
    | |- always quiet_step (if ?c then _ else _) => destruct c
    end.

Section CameraTransformMore.
Variable USE_NUMPY : bool.
Variable np_array : list (list json) -> result (Matrix3x3 json).

Lemma get_camera_transform_body_quiet :
  always quiet_step (get_camera_transform_body USE_NUMPY np_array).
Proof. unfold get_camera_transform_body. quiet_steps. Qed.

(** The run of [get_camera_transform] when its body raises. *)
Lemma get_camera_transform_raise_run (w w1 : world) (e : exn) :
  get_camera_transform_body USE_NUMPY np_array w = (Raise e, w1) ->
  exists w' new,
    get_camera_transform USE_NUMPY np_array w = (Ok None, w')
    /\ parser w' = parser w
    /\ DEBUG_LEVELS w' = DEBUG_LEVELS w
    /\ scene w' = scene w
    /\ info_text w' = info_text w
    /\ stdout w' = stdout w ++ new
    /\ (log_enabled w "error" = true -> errors new = [MsgTransformFailed e]).
Proof.
  intros Hbody.
  destruct (get_camera_transform_body_quiet _ _ _ Hbody)
    as (Hp & Hd & Hs & Hi & new & Ho & He).
  unfold get_camera_transform, try_except, mbind at 1, M_bind at 1.
  rewrite Hbody.
  eexists _, _. split; [reflexivity |].
  cbn [parser DEBUG_LEVELS scene info_text stdout set_stdout].
  repeat (split; [assumption |]).
  split; [rewrite Ho, <- app_assoc; reflexivity |].
  intros Hen. unfold log_enabled in *. rewrite Hd, Hen.
  rewrite errors_app, He. reflexivity.
Qed.

(** X11. [get_camera_transform] returns on every state (it never
    raises) and only prints: the parser, the debug levels, the scene and
    the panel are as before.  It returns a result exactly when its body
    returns that result, and then nothing is printed at the error level;
    it returns the failure value [None] exactly when its body raises,
    and then the one message at the error level names the exception
    that the body raised. *)
Theorem get_camera_transform_frame (w : world) :
  exists r w' new,
    get_camera_transform USE_NUMPY np_array w = (Ok r, w')
    /\ parser w' = parser w
    /\ DEBUG_LEVELS w' = DEBUG_LEVELS w
    /\ scene w' = scene w
    /\ info_text w' = info_text w
    /\ stdout w' = stdout w ++ new
    /\ match r with
       | Some t =>
           (exists w1, get_camera_transform_body USE_NUMPY np_array w = (Ok t, w1))
           /\ errors new = []
       | None =>
           exists e w1,
             get_camera_transform_body USE_NUMPY np_array w = (Raise e, w1)
             /\ (log_enabled w "error" = true -> errors new = [MsgTransformFailed e])
       end.
Proof.
  destruct (get_camera_transform_body USE_NUMPY np_array w) as [[t | e] w1] eqn:Hbody.
  - destruct (get_camera_transform_body_quiet _ _ _ Hbody)
      as (Hp & Hd & Hs & Hi & new & Ho & He).
    exists (Some t), w1, new.
    rewrite (get_camera_transform_of_ok _ _ _ _ _ Hbody).
    repeat (split; [first [assumption | reflexivity] |]).
    split; [exists w1; reflexivity | exact He].
  - destruct (get_camera_transform_raise_run w w1 e Hbody)
      as (w' & new & Hrun & Hp & Hd & Hs & Hi & Ho & He).
    exists None, w', new. repeat (split; [assumption |]).
    exists e, w1. split; [reflexivity | exact He].
Qed.

(** X12. A state that is not a mapping, as [None] is before [parse] has
    succeeded, gives the failure value and the one error
    [AttributeError]. *)
Theorem get_camera_transform_without_state (w : world) :
  is_dict (state_data (parser w)) = false ->
  exists w' new,
    get_camera_transform USE_NUMPY np_array w = (Ok None, w')
    /\ parser w' = parser w
    /\ stdout w' = stdout w ++ new
    /\ (log_enabled w "error" = true -> errors new = [MsgTransformFailed AttributeError]).
Proof.
  intros Hnd.
  assert (Hbody : get_camera_transform_body USE_NUMPY np_array w
                  = (Raise AttributeError, w)).
  { unfold get_camera_transform_body. rewrite run_get_parser.
    destruct (state_data (parser w)); try discriminate Hnd; reflexivity. }
  destruct (get_camera_transform_raise_run w w AttributeError Hbody)
    as (w' & new & Hrun & Hp & _ & _ & _ & Ho & He).
  exists w', new. repeat split; assumption.
Qed.

Hypothesis np_array_numeric : np_array_spec np_array.

(** The run of [get_camera_transform] on rows of four entries or more. *)
Lemma get_camera_transform_block (w : world) (st cp tm : gmap string json)
    (x0 x1 x2 x3 y0 y1 y2 y3 z0 z1 z2 z3 : json) (t0 t1 t2 more : list json) :
  state_data (parser w) = JObj st ->
  st !! "cameraParameters" = Some (JObj cp) ->
  cp !! "cameraTransform" = Some (JObj tm) ->
  tm !! "rows" = Some (JArr (JArr (x0 :: x1 :: x2 :: x3 :: t0)
                             :: JArr (y0 :: y1 :: y2 :: y3 :: t1)
                             :: JArr (z0 :: z1 :: z2 :: z3 :: t2) :: more)) ->
  forallb is_number [x0; x1; x2; y0; y1; y2; z0; z1; z2] = true ->
  exists w',
    get_camera_transform USE_NUMPY np_array w
    = (Ok (Some ([x3; y3; z3],
                 {| data := [[x0; x1; x2]; [y0; y1; y2]; [z0; z1; z2]] |})), w')
    /\ quiet_step w w'.
Proof.
  intros Hst Hcp Hct Hrows Hnum.
  assert (Hne : cp <> ∅).
  { intros ->. rewrite lookup_empty in Hct. discriminate Hct. }
  destruct (get_camera_transform_body_rows USE_NUMPY np_array w st cp (JObj tm)
              (JArr (JArr (x0 :: x1 :: x2 :: x3 :: t0)
                     :: JArr (y0 :: y1 :: y2 :: y3 :: t1)
                     :: JArr (z0 :: z1 :: z2 :: z3 :: t2) :: more))
              [x3; y3; z3] [[x0; x1; x2]; [y0; y1; y2]; [z0; z1; z2]]
              {| data := [[x0; x1; x2]; [y0; y1; y2]; [z0; z1; z2]] |}
              Hst Hcp Hne) as (w1 & Hbody).
  - rewrite Hct. reflexivity.
  - cbn [dict_get]. rewrite Hrows. reflexivity.
  - reflexivity.
  - reflexivity.
  - destruct USE_NUMPY; [| reflexivity].
    apply np_array_numeric.
    cbn [forallb] in Hnum.
    repeat match goal with
           | H : _ && _ = true |- _ => apply andb_prop in H; destruct H
           end.
    repeat constructor; cbn [forallb];
      repeat match goal with H : is_number _ = true |- _ => rewrite H; clear H end;
      reflexivity.
  - exists w1. split.
    + apply get_camera_transform_of_ok, Hbody.
    + exact (get_camera_transform_body_quiet _ _ _ Hbody).
Qed.


Section FileToTransform.
Variable filesystem : string -> option bytes.
Variable utf8_decode : bytes -> option string.
Variable json_loads : string -> option json.

(** X23. From the file to the transform: on a container whose state
    block decodes to a state with [cameraTransform.rows], [parse]
    followed, when it has returned [True], by [get_camera_transform],
    the order in which [browse_file] calls them, gives the position and
    the rotation block of the rows in the file; nothing is printed at
    the error level. *)
Theorem parse_then_get_camera_transform (w : world) (version : Z) (state : bytes)
    (image_size : Z) (rest : bytes) (st cp tm : gmap string json)
    (x0 x1 x2 x3 y0 y1 y2 y3 z0 z1 z2 z3 : json) (t0 t1 t2 more : list json) :
  filesystem (filepath (parser w)) = Some (container version state image_size rest) ->
  (0 <= version < 2 ^ 32)%Z -> (Z.of_nat (length state) < 2 ^ 32)%Z ->
  (0 <= image_size < 2 ^ 32)%Z ->
  decode_state utf8_decode json_loads (strip_nul state) = Ok (JObj st) ->
  st !! "cameraParameters" = Some (JObj cp) ->
  cp !! "cameraTransform" = Some (JObj tm) ->
  tm !! "rows" = Some (JArr (JArr (x0 :: x1 :: x2 :: x3 :: t0)
                             :: JArr (y0 :: y1 :: y2 :: y3 :: t1)
                             :: JArr (z0 :: z1 :: z2 :: z3 :: t2) :: more)) ->
  forallb is_number [x0; x1; x2; y0; y1; y2; z0; z1; z2] = true ->
  exists w' new,
    (loaded ← parse filesystem utf8_decode json_loads;
     if loaded : bool then get_camera_transform USE_NUMPY np_array else mret None) w
    = (Ok (Some ([x3; y3; z3],
                 {| data := [[x0; x1; x2]; [y0; y1; y2]; [z0; z1; z2]] |})), w')
    /\ image_data (parser w') = Some (take (Z.to_nat image_size) rest)
    /\ stdout w' = stdout w ++ new
    /\ errors new = [].
Proof.
  intros Hopen Hv Hs Hi Hj Hcp Hct Hrows Hnum.
  destruct (parse_container filesystem utf8_decode json_loads w version state
              image_size rest (JObj st) Hopen Hv Hs Hi Hj)
    as (w1 & new1 & Hparse & Hst & Him & Ho1 & He1).
  destruct (get_camera_transform_block w1 st cp tm x0 x1 x2 x3 y0 y1 y2 y3 z0 z1 z2 z3
              t0 t1 t2 more Hst Hcp Hct Hrows Hnum)
    as (w2 & Hget & Hp & _ & _ & _ & new2 & Ho2 & He2).
  exists w2, (new1 ++ new2).
  rewrite (bind_ok _ _ _ _ _ Hparse). split; [exact Hget |].
  split; [rewrite Hp; exact Him |].
  split; [rewrite Ho2, Ho1, app_assoc; reflexivity |].
  rewrite errors_app, He1, He2. reflexivity.
Qed.

End FileToTransform.

End CameraTransformMore.

Lemma get_camera_transform_without_state_witness :
  let w := initial_world "a.fspy" in
  exists w' new,
    get_camera_transform false np_array_any w = (Ok None, w')
    /\ parser w' = parser w
    /\ stdout w' = stdout w ++ new
    /\ (log_enabled w "error" = true -> errors new = [MsgTransformFailed AttributeError]).
Proof.
  intros w. apply (get_camera_transform_without_state false np_array_any w). reflexivity.
Defined.


(** ** CameraDeriver: further properties of the intrinsics *)

Section IntrinsicsMore.
Local Open Scope R_scope.
Variable USE_NUMPY : bool.
Variable np_Number : Matrix3x3 json -> Number json.
Variable float_of_string : string -> option R.
Variables camera camera_shape : string.

Lemma radians_degrees (f : R) : radians (degrees f) = f.
Proof. unfold radians, degrees. pose proof PI_neq0. field. assumption. Qed.

Lemma truediv_zero (a : R) : truediv a 0 = Raise ZeroDivisionError.
Proof. unfold truediv. destruct (decide (0 = 0)); [reflexivity | contradiction]. Qed.

(** The run of the focal-length statements on a numeric field of view. *)
Lemma focal_length_block_run (m : gmap string json) (v : json) (f h : R) (w : world) :
  m !! "horizontalFieldOfView" = Some v ->
  as_number v = Ok f ->
  focal_length_block camera_shape (JObj m) h w
  = match truediv (h / 2) (tan (f / 2)) with
    | Ok focal_length =>
        (Ok tt,
         set_stdout (stdout w ++ (if log_enabled w "info"
                                  then [("info", MsgFocalLength focal_length)] else []))
           (set_scene (scene w ++ [SetAttr camera_shape "focalLength" focal_length]) w))
    | Raise e => (Raise e, w)
    end.
Proof.
  intros Hfov Hnum. unfold focal_length_block. cbn [dict_get]. rewrite Hfov.
  cbn [default from_option Datatypes.id]. rewrite run_lift_ok.
  assert (Hrun :
    (fov ← lift (as_number v);
     focal_length ← lift (truediv (h / 2) (tan (radians (degrees fov) / 2)));
     _ ← setAttr camera_shape "focalLength" focal_length;
     log_message (MsgFocalLength focal_length) "info") w
    = match truediv (h / 2) (tan (f / 2)) with
      | Ok focal_length =>
          (Ok tt,
           set_stdout (stdout w ++ (if log_enabled w "info"
                                    then [("info", MsgFocalLength focal_length)] else []))
             (set_scene (scene w ++ [SetAttr camera_shape "focalLength" focal_length]) w))
      | Raise e => (Raise e, w)
      end).
  { rewrite Hnum, run_lift_ok. cbv beta. rewrite radians_degrees.
    destruct (truediv (h / 2) (tan (f / 2))) as [fl | e].
    - rewrite run_lift_ok, run_setAttr. reflexivity.
    - rewrite run_lift_raise. reflexivity. }
  destruct v; try discriminate Hnum; exact Hrun.
Qed.

Lemma info_focal_length_run (v : json) (f : R) :
  as_number v = Ok f ->
  info_focal_length v
  = (focal_length ← truediv (36 / 2) (tan (f / 2)); Ok [InfoFocalLength focal_length]).
Proof.
  intros Hnum. unfold info_focal_length.
  replace 36.0 with 36 by lra.
  destruct v; try discriminate Hnum; rewrite Hnum; reflexivity.
Qed.

(** X14. The two call sites agree on the focal length: from a numeric
    field of view [f] (radians) with [tan (f / 2)] not zero, the
    focal-length statements of the camera-property block write
    [focalLength = 18 / tan (f / 2)], the back-and-forth through degrees
    being the identity, and the panel shows the same value. *)
Theorem focal_length_call_sites_agree (m : gmap string json) (v : json) (f : R)
    (w : world) :
  m !! "horizontalFieldOfView" = Some v ->
  as_number v = Ok f ->
  tan (f / 2) <> 0 ->
  (exists w',
     focal_length_block camera_shape (JObj m) 36 w = (Ok tt, w')
     /\ scene w' = scene w ++ [SetAttr camera_shape "focalLength" (18 / tan (f / 2))])
  /\ info_focal_length v = Ok [InfoFocalLength (18 / tan (f / 2))].
Proof.
  intros Hfov Hnum Htan. split.
  - rewrite (focal_length_block_run m v f 36 w Hfov Hnum), truediv_ok by exact Htan.
    eexists. split; [reflexivity |].
    cbn [scene set_scene set_stdout]. do 3 f_equal. lra.
  - rewrite (info_focal_length_run v f Hnum), truediv_ok by exact Htan.
    cbn [mbind result_bind]. do 3 f_equal. lra.
Qed.

Lemma tan_half_fov (F : R) : 0 < F -> tan (2 * atan (18 / F) / 2) = 18 / F.
Proof.
  intros HF. replace (2 * atan (18 / F) / 2) with (atan (18 / F)) by lra.
  apply tan_atan.
Qed.

(** X15. Round trip of the focal length: the field of view of a lens of
    focal length [F > 0] on the 36 mm film back, [2 * atan (18 / F)], is
    imported as the focal length [F], and shown as [F] in the panel. *)
Theorem focal_length_roundtrip (m : gmap string json) (F : R) (w : world) :
  0 < F ->
  m !! "horizontalFieldOfView" = Some (JFloat (2 * atan (18 / F))) ->
  (exists w',
     focal_length_block camera_shape (JObj m) 36 w = (Ok tt, w')
     /\ scene w' = scene w ++ [SetAttr camera_shape "focalLength" F])
  /\ info_focal_length (JFloat (2 * atan (18 / F))) = Ok [InfoFocalLength F].
Proof.
  intros HF Hfov.
  assert (Hpos : 0 < 18 / F) by (apply Rdiv_lt_0_compat; lra).
  assert (Hval : 36 / 2 / (18 / F) = F) by (field; lra).
  split.
  - rewrite (focal_length_block_run m (JFloat (2 * atan (18 / F))) (2 * atan (18 / F))
               36 w Hfov eq_refl), tan_half_fov by exact HF.
    rewrite truediv_ok by lra.
    eexists. split; [reflexivity |].
    cbn [scene set_scene set_stdout]. rewrite Hval. reflexivity.
  - rewrite (info_focal_length_run (JFloat (2 * atan (18 / F))) (2 * atan (18 / F))
               eq_refl), tan_half_fov by exact HF.
    rewrite truediv_ok by lra. cbn [mbind result_bind]. rewrite Hval. reflexivity.
Qed.

(** X16. A field of view of zero is a division by zero at both call
    sites: the focal-length statements of the camera-property block
    raise [ZeroDivisionError] and write no focal length, and the
    focal-length line of the panel raises it too. *)
Theorem zero_field_of_view (m : gmap string json) (v : json) (w : world) :
  m !! "horizontalFieldOfView" = Some v ->
  as_number v = Ok 0 ->
  focal_length_block camera_shape (JObj m) 36 w = (Raise ZeroDivisionError, w)
  /\ info_focal_length v = Raise ZeroDivisionError.
Proof.
  intros Hfov Hnum.
  assert (Htan : tan (0 / 2) = 0).
  { replace (0 / 2) with 0 by lra. apply tan_0. }
  split.
  - rewrite (focal_length_block_run m v 0 36 w Hfov Hnum), Htan, truediv_zero.
    reflexivity.
  - rewrite (info_focal_length_run v 0 Hnum), Htan, truediv_zero. reflexivity.
Qed.

(** X17. An image size with a zero: the camera-property block raises
    [ZeroDivisionError] before it has written an attribute or printed,
    whichever of the two is zero; the image-size lines of the panel
    raise it for a zero height only, and show the aspect ratio
    [0 / height] for a zero width. *)
Theorem zero_image_size (m : gmap string json) (wv hv : json) (iw ih : R) (w : world) :
  m !! "imageWidth" = Some wv -> float float_of_string wv = Ok iw ->
  m !! "imageHeight" = Some hv -> float float_of_string hv = Ok ih ->
  iw = 0 \/ ih = 0 ->
  import_camera_properties float_of_string camera camera_shape (JObj m) w
  = (Raise ZeroDivisionError, w)
  /\ (ih = 0 -> info_image_size float_of_string (JObj m) = Raise ZeroDivisionError)
  /\ (ih <> 0 ->
      info_image_size float_of_string (JObj m)
      = Ok [InfoImageSize 0 (int_of_float ih); InfoAspectRatio (0 / ih)]).
Proof.
  intros Hw Hwf Hh Hhf Hzero.
  assert (Hne : m <> ∅).
  { intros ->. rewrite lookup_empty in Hw. discriminate Hw. }
  split; [| split].
  - unfold import_camera_properties.
    rewrite truthy_dict by exact Hne. cbn [dict_get].
    rewrite Hw, Hh. cbn [default from_option Datatypes.id].
    rewrite run_lift_ok. cbv beta. rewrite Hwf, run_lift_ok, run_lift_ok. cbv beta.
    rewrite Hhf, run_lift_ok. cbv beta.
    destruct (decide (ih = 0)) as [-> | Hih].
    + rewrite truediv_zero, run_lift_raise. reflexivity.
    + destruct Hzero as [-> | Hih0]; [| contradiction].
      rewrite (truediv_ok 0 ih Hih), run_lift_ok. cbv beta.
      replace (0 / ih) with 0 by (unfold Rdiv; ring).
      rewrite truediv_zero, run_lift_raise. reflexivity.
  - intros ->. unfold info_image_size. cbn [dict_get]. rewrite Hw, Hh.
    cbn [default from_option Datatypes.id mbind result_bind].
    rewrite Hwf. cbn [mbind result_bind]. rewrite Hhf. cbn [mbind result_bind].
    rewrite truediv_zero. reflexivity.
  - intros Hih. destruct Hzero as [-> | Hih0]; [| contradiction].
    unfold info_image_size. cbn [dict_get]. rewrite Hw, Hh.
    cbn [default from_option Datatypes.id mbind result_bind].
    rewrite Hwf. cbn [mbind result_bind]. rewrite Hhf. cbn [mbind result_bind].
    rewrite (truediv_ok 0 ih Hih). cbn [mbind result_bind].
    rewrite (int_of_float_IZR 0) by lia. reflexivity.
Qed.



(** X19. The whole camera-property block on complete parameters: with a
    non-zero image size, a [principalPoint] that is a pair and a numeric
    field of view [f] with [tan (f / 2)] not zero, it returns after
    exactly these seven calls, in this order: the film back (whose sides
    are in the ratio of the image), the film offsets, the horizontal
    film fit, the lock of [tx], and the focal length
    [18 / tan (f / 2)]. *)
Theorem import_camera_properties_writes (m : gmap string json) (iw ih : R)
    (p0 p1 v : json) (px py f : R) (w : world) :
  float float_of_string (default (JInt 1920) (m !! "imageWidth")) = Ok iw ->
  float float_of_string (default (JInt 1080) (m !! "imageHeight")) = Ok ih ->
  iw <> 0 -> ih <> 0 ->
  m !! "principalPoint" = Some (JArr [p0; p1]) ->
  float float_of_string p0 = Ok px -> float float_of_string p1 = Ok py ->
  m !! "horizontalFieldOfView" = Some v ->
  as_number v = Ok f ->
  tan (f / 2) <> 0 ->
  let k := 0.0393701 in
  let vert_aperture_mm := 36 / (iw / ih) in
  (exists w',
     import_camera_properties float_of_string camera camera_shape (JObj m) w = (Ok tt, w')
     /\ scene w' = scene w ++
          [SetAttr camera_shape "horizontalFilmAperture" (36 * k);
           SetAttr camera_shape "verticalFilmAperture" (vert_aperture_mm * k);
           SetAttr camera_shape "horizontalFilmOffset" (px * 36 * k);
           SetAttr camera_shape "verticalFilmOffset" (py * vert_aperture_mm * k);
           SetAttr camera_shape "filmFit" 1;
           LockAttr camera "tx";
           SetAttr camera_shape "focalLength" (18 / tan (f / 2))])
  /\ 36 * k / (vert_aperture_mm * k) = iw / ih.
Proof.
  intros Hw Hh Hiw Hih Hpp H0 H1 Hfov Hnum Htan k vert.
  assert (Hne : m <> ∅).
  { intros ->. rewrite lookup_empty in Hpp. discriminate Hpp. }
  split.
  - destruct (import_camera_film_back float_of_string camera camera_shape
                m iw ih w Hne Hw Hh Hiw Hih) as (w2 & Hscene & Hrun).
    destruct (film_offset_block_pair float_of_string camera_shape
                m p0 p1 px py 36 vert k w2 Hpp H0 H1) as (w3 & Hblock & Hscene3).
    rewrite Hrun. unfold after_film_back. rewrite (bind_ok _ _ _ _ _ Hblock).
    unfold after_film_offset. rewrite run_setAttr, run_setAttr_lock.
    rewrite (focal_length_block_run m v f 36 _ Hfov Hnum), truediv_ok by exact Htan.
    eexists. split; [reflexivity |].
    cbn [scene set_scene set_stdout]. rewrite Hscene3, Hscene, <- !app_assoc.
    cbn [app]. do 9 f_equal. lra.
  - unfold vert, k. field. repeat split; lra.
Qed.

End IntrinsicsMore.

Lemma focal_length_call_sites_agree_witness :
  let m : gmap string json := <["horizontalFieldOfView" := JFloat (PI / 2)]> ∅ in
  (exists w',
     focal_length_block "cameraShape1" (JObj m) 36 (initial_world "a.fspy") = (Ok tt, w')
     /\ scene w' = scene (initial_world "a.fspy")
                   ++ [SetAttr "cameraShape1" "focalLength" (18 / tan (PI / 2 / 2))%R])
  /\ info_focal_length (JFloat (PI / 2)) = Ok [InfoFocalLength (18 / tan (PI / 2 / 2))%R].
Proof.
  intros m.
  apply (focal_length_call_sites_agree "cameraShape1" m (JFloat (PI / 2)) (PI / 2)%R
           (initial_world "a.fspy")).
  - reflexivity.
  - reflexivity.
  - replace (PI / 2 / 2)%R with (PI / 4)%R by lra. rewrite tan_PI4. lra.
Defined.

Lemma focal_length_roundtrip_witness :
  let m : gmap string json :=
    <["horizontalFieldOfView" := JFloat (2 * atan (18 / 50))]> ∅ in
  (exists w',
     focal_length_block "cameraShape1" (JObj m) 36 (initial_world "a.fspy") = (Ok tt, w')
     /\ scene w' = scene (initial_world "a.fspy")
                   ++ [SetAttr "cameraShape1" "focalLength" 50%R])
  /\ info_focal_length (JFloat (2 * atan (18 / 50))) = Ok [InfoFocalLength 50%R].
Proof.
  intros m.
  apply (focal_length_roundtrip "cameraShape1" m 50%R (initial_world "a.fspy")).
  - lra.
  - reflexivity.
Defined.

Lemma zero_field_of_view_witness :
  let m : gmap string json := <["horizontalFieldOfView" := JInt 0]> ∅ in
  focal_length_block "cameraShape1" (JObj m) 36 (initial_world "a.fspy")
  = (Raise ZeroDivisionError, initial_world "a.fspy")
  /\ info_focal_length (JInt 0) = Raise ZeroDivisionError.
Proof.
  intros m.
  apply (zero_field_of_view "cameraShape1" m (JInt 0) (initial_world "a.fspy"));
    reflexivity.
Defined.

Lemma zero_image_size_witness :
  let m : gmap string json := <["imageWidth" := JInt 1920]> (<["imageHeight" := JInt 0]> ∅) in
  import_camera_properties (fun _ => None) "camera1" "cameraShape1" (JObj m)
    (initial_world "a.fspy")
  = (Raise ZeroDivisionError, initial_world "a.fspy")
  /\ (0%R = 0%R -> info_image_size (fun _ => None) (JObj m) = Raise ZeroDivisionError)
  /\ (0%R <> 0%R ->
      info_image_size (fun _ => None) (JObj m)
      = Ok [InfoImageSize 0 (int_of_float 0); InfoAspectRatio (0 / 0)]).
Proof.
  intros m.
  apply (zero_image_size (fun _ => None) "camera1" "cameraShape1" m
           (JInt 1920) (JInt 0) 1920%R 0%R (initial_world "a.fspy")).
  - reflexivity.
  - reflexivity.
  - reflexivity.
  - reflexivity.
  - right. reflexivity.
Defined.

Lemma import_camera_properties_writes_witness :
  let m : gmap string json :=
    <["imageWidth" := JInt 1920]> (<["imageHeight" := JInt 1080]>
      (<["principalPoint" := JArr [JFloat 0.1; JFloat 0.2]]>
         (<["horizontalFieldOfView" := JFloat (PI / 2)]> ∅))) in
  let k := 0.0393701%R in
  let vert_aperture_mm := (36 / (1920 / 1080))%R in
  (exists w',
     import_camera_properties (fun _ => None) "camera1" "cameraShape1" (JObj m)
       (initial_world "a.fspy") = (Ok tt, w')
     /\ scene w' = scene (initial_world "a.fspy") ++
          [SetAttr "cameraShape1" "horizontalFilmAperture" (36 * k)%R;
           SetAttr "cameraShape1" "verticalFilmAperture" (vert_aperture_mm * k)%R;
           SetAttr "cameraShape1" "horizontalFilmOffset" (0.1 * 36 * k)%R;
           SetAttr "cameraShape1" "verticalFilmOffset" (0.2 * vert_aperture_mm * k)%R;
           SetAttr "cameraShape1" "filmFit" 1%R;
           LockAttr "camera1" "tx";
           SetAttr "cameraShape1" "focalLength" (18 / tan (PI / 2 / 2))%R])
  /\ (36 * k / (vert_aperture_mm * k) = 1920 / 1080)%R.
Proof.
  intros m.
  apply (import_camera_properties_writes (fun _ => None) "camera1" "cameraShape1" m
           1920%R 1080%R (JFloat 0.1) (JFloat 0.2) (JFloat (PI / 2)) 0.1%R 0.2%R (PI / 2)%R
           (initial_world "a.fspy")).
  - reflexivity.
  - reflexivity.
  - lra.
  - lra.
  - reflexivity.
  - reflexivity.
  - reflexivity.
  - reflexivity.
  - reflexivity.
  - replace (PI / 2 / 2)%R with (PI / 4)%R by lra. rewrite tan_PI4. lra.
Defined.

Lemma parse_then_get_camera_transform_witness :
  let row0 := JArr [JInt 0; JInt (-1); JInt 0; JFloat 2.5] in
  let row1 := JArr [JInt 1; JInt 0; JInt 0; JInt 3] in
  let row2 := JArr [JInt 0; JInt 0; JInt 1; JInt 4] in
  let tm : gmap string json := <["rows" := JArr [row0; row1; row2]]> ∅ in
  let cp : gmap string json := <["cameraTransform" := JObj tm]> ∅ in
  let st : gmap string json := <["cameraParameters" := JObj cp]> ∅ in
  let decode := fun b : bytes => if decide (b = ["{"; "}"]%byte) then Some "{}" else None in
  let loads := fun s : string => if decide (s = "{}") then Some (JObj st) else None in
  let content := container 1 ["{"; "}"; x00]%byte 2 [xff; xd8] in
  let w := initial_world "a.fspy" in
  exists w' new,
    (loaded ← parse (one_file "a.fspy" content) decode loads;
     if loaded : bool then get_camera_transform false np_array_any else mret None) w
    = (Ok (Some ([JFloat 2.5; JInt 3; JInt 4],
                 {| data := [[JInt 0; JInt (-1); JInt 0]; [JInt 1; JInt 0; JInt 0];
                             [JInt 0; JInt 0; JInt 1]] |})), w')
    /\ image_data (parser w') = Some (take (Z.to_nat 2) [xff; xd8])
    /\ stdout w' = stdout w ++ new
    /\ errors new = [].
Proof.
  intros row0 row1 row2 tm cp st decode loads content w.
  apply (parse_then_get_camera_transform false np_array_any np_array_any_spec
           (one_file "a.fspy" content) decode loads w 1 ["{"; "}"; x00]%byte 2 [xff; xd8]
           st cp tm
           (JInt 0) (JInt (-1)) (JInt 0) (JFloat 2.5) (JInt 1) (JInt 0) (JInt 0) (JInt 3)
           (JInt 0) (JInt 0) (JInt 1) (JInt 4) [] [] [] []).
  - reflexivity.
  - lia.
  - simpl. lia.
  - lia.
  - reflexivity.
  - reflexivity.
  - reflexivity.
  - reflexivity.
  - reflexivity.
Defined.
